(** * LuminaNote: task / project persistence and state reconciliation

    A shallow embedding of the persistence layer of LuminaNote:

    - [database]          : services/database.ts (the sql.js singleton),
    - [taskRepository]    : services/taskRepository.ts,
    - [projectRepository] : services/projectRepository.ts,
    - [useTasks]          : hooks/useTasks.ts (SQLite + localStorage version),
    - [useProjects]       : hooks/useProjects.ts (SQLite + localStorage version).

    JavaScript exceptions are modelled by a state-and-error monad in which a
    thrown error keeps the mutations made before the throw; React state and
    the sql.js database object are the threaded state.  Counts and
    positions are integers; the progress percentage, the one computation
    that leaves the integers, is carried out in binary64 arithmetic. *)

From Stdlib Require Import List String ZArith QArith Qround Qabs Qpower.
From Stdlib Require Import Bool Lia Lqa Permutation.
Import ListNotations.

Local Open Scope string_scope.
Local Open Scope list_scope.
Local Open Scope Z_scope.

(* ================================================================== *)
(** ** Entity types (types/index.ts) *)

Inductive Category := today | week | backlog.
Inductive Priority := low | medium | high.
Inductive ProjectStatus := active | on_hold | completed.
Inductive ProjectColor := slate | sage | amber | rose.

Definition Category_eqb (a b : Category) : bool :=
  match a, b with
  | today, today | week, week | backlog, backlog => true
  | _, _ => false
  end.

Definition ProjectStatus_eqb (a b : ProjectStatus) : bool :=
  match a, b with
  | active, active | on_hold, on_hold | completed, completed => true
  | _, _ => false
  end.

(** An optional property [p?: T] is [option T]; [None] stands for both
    [undefined] and the SQL [NULL] that sql.js hands back as [null]. *)
Module Task.
Record t := mk {
  id : string;
  title : string;
  completed : bool;
  category : Category;
  priority : Priority;
  createdAt : string;
  projectId : option string;
  dueDate : option string;
  dueTime : option string;
  isRecurring : option bool;
  lastCompletedAt : option string;
  order : option Z
}.

(** [{ ...task, completed: c }] *)
Definition with_completed (c : bool) (x : t) : t :=
  mk (id x) (title x) c (category x) (priority x) (createdAt x)
     (projectId x) (dueDate x) (dueTime x) (isRecurring x)
     (lastCompletedAt x) (order x).

(** [{ ...task, completed: c, lastCompletedAt: l }] *)
Definition with_completed_lastCompletedAt
    (c : bool) (l : option string) (x : t) : t :=
  mk (id x) (title x) c (category x) (priority x) (createdAt x)
     (projectId x) (dueDate x) (dueTime x) (isRecurring x) l (order x).

(** [{ ...task, order: index }] *)
Definition with_order (o : Z) (x : t) : t :=
  mk (id x) (title x) (completed x) (category x) (priority x) (createdAt x)
     (projectId x) (dueDate x) (dueTime x) (isRecurring x)
     (lastCompletedAt x) (Some o).
End Task.
Abbreviation Task := Task.t.

(** [Partial<Task>]: a key that is absent is [None]; an optional property
    can also be present with the value [undefined] ([Some None]), as in
    [linkTaskToProject(taskId, undefined)]. *)
Module TaskUpdates.
Record t := mk {
  id : option string;
  title : option string;
  completed : option bool;
  category : option Category;
  priority : option Priority;
  createdAt : option string;
  projectId : option (option string);
  dueDate : option (option string);
  dueTime : option (option string);
  isRecurring : option (option bool);
  lastCompletedAt : option (option string);
  order : option (option Z)
}.

Definition empty : t :=
  mk None None None None None None None None None None None None.
End TaskUpdates.

Definition override {A : Type} (old : A) (upd : option A) : A :=
  match upd with Some v => v | None => old end.

(** [{ ...task, ...updates }] *)
Definition spreadTask (task : Task) (updates : TaskUpdates.t) : Task :=
  Task.mk
    (override (Task.id task) (TaskUpdates.id updates))
    (override (Task.title task) (TaskUpdates.title updates))
    (override (Task.completed task) (TaskUpdates.completed updates))
    (override (Task.category task) (TaskUpdates.category updates))
    (override (Task.priority task) (TaskUpdates.priority updates))
    (override (Task.createdAt task) (TaskUpdates.createdAt updates))
    (override (Task.projectId task) (TaskUpdates.projectId updates))
    (override (Task.dueDate task) (TaskUpdates.dueDate updates))
    (override (Task.dueTime task) (TaskUpdates.dueTime updates))
    (override (Task.isRecurring task) (TaskUpdates.isRecurring updates))
    (override (Task.lastCompletedAt task) (TaskUpdates.lastCompletedAt updates))
    (override (Task.order task) (TaskUpdates.order updates)).

(** Task counts and the progress percentage are integers (INTEGER columns
    of the [projects] table). *)
Module Project.
Record t := mk {
  id : string;
  name : string;
  description : string;
  progress : Z;
  totalTasks : Z;
  completedTasks : Z;
  color : ProjectColor;
  status : ProjectStatus;
  createdAt : string;
  deadline : option string;
  tags : list string
}.
End Project.
Abbreviation Project := Project.t.

Module ProjectUpdates.
Record t := mk {
  id : option string;
  name : option string;
  description : option string;
  progress : option Z;
  totalTasks : option Z;
  completedTasks : option Z;
  color : option ProjectColor;
  status : option ProjectStatus;
  createdAt : option string;
  deadline : option (option string);
  tags : option (list string)
}.

Definition empty : t :=
  mk None None None None None None None None None None None.
End ProjectUpdates.

(** [{ ...project, ...updates }] *)
Definition spreadProject (project : Project) (updates : ProjectUpdates.t)
  : Project :=
  Project.mk
    (override (Project.id project) (ProjectUpdates.id updates))
    (override (Project.name project) (ProjectUpdates.name updates))
    (override (Project.description project) (ProjectUpdates.description updates))
    (override (Project.progress project) (ProjectUpdates.progress updates))
    (override (Project.totalTasks project) (ProjectUpdates.totalTasks updates))
    (override (Project.completedTasks project)
              (ProjectUpdates.completedTasks updates))
    (override (Project.color project) (ProjectUpdates.color updates))
    (override (Project.status project) (ProjectUpdates.status updates))
    (override (Project.createdAt project) (ProjectUpdates.createdAt updates))
    (override (Project.deadline project) (ProjectUpdates.deadline updates))
    (override (Project.tags project) (ProjectUpdates.tags updates)).

(* ================================================================== *)
(** ** JavaScript helpers *)

(** Truthiness of a possibly absent string: [undefined], [null] and the
    empty string are falsy. *)
Definition truthy_string (s : option string) : bool :=
  match s with
  | Some v => negb (v =? "")%string
  | None => false
  end.

(** Truthiness of a possibly absent boolean. *)
Definition truthy_bool (b : option bool) : bool :=
  match b with Some v => v | None => false end.

(** [s || null] *)
Definition or_null (s : option string) : option string :=
  if truthy_string s then s else None.

(** [n || 0] and [n ?? 0] agree on integers: both give 0 for a missing
    value and for 0 itself. *)
Definition or_zero (n : option Z) : Z :=
  match n with Some v => v | None => 0 end.

(** *** Numbers

    A JavaScript number is an IEEE 754 binary64 value.  The numbers of
    this program are counts, positions and percentages: the model keeps
    them as integers, which a double holds exactly below 2^53, and
    represents the doubles computed in between by the rationals they
    denote.  The sign of zero and the overflow to [Infinity], which needs
    a magnitude of 2^1024, are not represented. *)

(** The exponent [e] of a positive rational: [2^e <= x < 2^(e+1)]. *)
Definition binade (x : Q) : Z :=
  let e := Z.log2 (Qnum x) - Z.log2 (Zpos (Qden x)) in
  if Qle_bool (2 ^ e) x then e else e - 1.

(** The nearest integer, a tie going to the even one. *)
Definition round_ties_even (x : Q) : Z :=
  let n := Qfloor x in
  match (x - inject_Z n ?= 1 # 2)%Q with
  | Lt => n
  | Eq => if Z.even n then n else n + 1
  | Gt => n + 1
  end.

(** The distance between neighbouring doubles around [x]: a significand
    has 53 bits, and below 2^-1022 (subnormal numbers) the distance stays
    at 2^-1074. *)
Definition ulp (x : Q) : Q :=
  (2 ^ Z.max (binade (Qabs x) - 52) (-1074))%Q.

(** "The Number value for [x]": the double nearest to the real [x], a tie
    going to the double with the even significand.  Every arithmetic
    operation on numbers returns the Number value for its exact result. *)
Definition Number_of (x : Q) : Q :=
  if Qeq_bool x 0 then 0%Q
  else (inject_Z (round_ties_even (x / ulp x)) * ulp x)%Q.

(** [x / y] for a divisor other than zero. *)
Definition Number_divide (x y : Q) : Q := Number_of (x / y).

(** [x * y] *)
Definition Number_multiply (x y : Q) : Q := Number_of (x * y).

(** [Math.round] of a double: the nearest integer, a half going up. *)
Definition Math_round (x : Q) : Z := Qfloor (x + (1 # 2)).

(** [Array.prototype.find] *)
Definition find_by {A : Type} (p : A -> bool) (l : list A) : option A :=
  List.find p l.

(** Stable insertion sort by an integer key, used for
    [Array.prototype.sort] with a subtracting comparator and for
    [ORDER BY ... ASC] (where SQLite leaves the order of rows with equal
    keys open; they are kept in rowid order here). *)
Fixpoint insert_by {A : Type} (key : A -> Z) (x : A) (l : list A) : list A :=
  match l with
  | [] => [x]
  | y :: l' => if key y <? key x then y :: insert_by key x l' else x :: y :: l'
  end.

Fixpoint sort_by {A : Type} (key : A -> Z) (l : list A) : list A :=
  match l with
  | [] => []
  | x :: l' => insert_by key x (sort_by key l')
  end.

(** The same by a text key in descending order, for
    [ORDER BY created_at DESC]. *)
Fixpoint insert_desc {A : Type} (key : A -> string) (x : A) (l : list A)
  : list A :=
  match l with
  | [] => [x]
  | y :: l' =>
      if String.ltb (key x) (key y) then y :: insert_desc key x l'
      else x :: y :: l'
  end.

Fixpoint sort_desc {A : Type} (key : A -> string) (l : list A) : list A :=
  match l with
  | [] => []
  | x :: l' => insert_desc key x (sort_desc key l')
  end.

(* ================================================================== *)
(** ** Exceptions and mutable state *)

Inductive result (A : Type) : Type :=
| Ok (a : A)
| Thrown (e : string).
Arguments Ok {A} a.
Arguments Thrown {A} e.

(** A computation over a mutable state [S] that may throw; the state
    reached at the throw is kept. *)
Definition M (S A : Type) : Type := S -> result A * S.

Definition ret {S A : Type} (a : A) : M S A := fun s => (Ok a, s).

Definition bind {S A B : Type} (m : M S A) (k : A -> M S B) : M S B :=
  fun s =>
    match m s with
    | (Ok a, s') => k a s'
    | (Thrown e, s') => (Thrown e, s')
    end.

Definition throw {S A : Type} (e : string) : M S A := fun s => (Thrown e, s).

(** [try { body } catch (error) { handler }] *)
Definition try_catch {S A : Type} (body : M S A) (handler : string -> M S A)
  : M S A :=
  fun s =>
    match body s with
    | (Ok a, s') => (Ok a, s')
    | (Thrown e, s') => handler e s'
    end.

Definition get {S : Type} : M S S := fun s => (Ok s, s).
Definition put {S : Type} (s : S) : M S unit := fun _ => (Ok tt, s).
Definition modify {S : Type} (f : S -> S) : M S unit := fun s => (Ok tt, f s).

Declare Scope js_scope.
Delimit Scope js_scope with js.
Notation "x <- m ;; k" := (bind m (fun x => k))
  (at level 61, m at next level, right associativity) : js_scope.
Notation "m ;; k" := (bind m (fun _ => k))
  (at level 61, right associativity) : js_scope.
Local Open Scope js_scope.

(** [list.forEach((x, index) => f(x, index))], counting from [i]. *)
Fixpoint forEach_from {S A : Type} (f : A -> Z -> M S unit) (i : Z)
    (l : list A) : M S unit :=
  match l with
  | [] => ret tt
  | x :: l' => f x i ;; forEach_from f (i + 1) l'
  end.

Definition forEach {S A : Type} (f : A -> Z -> M S unit) (l : list A)
  : M S unit :=
  forEach_from f 0 l.

(** Run a computation on a component of a larger state. *)
Definition zoom {S T A : Type} (proj : T -> S) (inj : S -> T -> T)
    (m : M S A) : M T A :=
  fun t => let (r, s') := m (proj t) in (r, inj s' t).

(* ================================================================== *)
(** ** services/database.ts *)

(** A row of the [tasks] table, columns in the order of [createTables]:
    id, title, completed, category, priority, created_at, project_id,
    due_date, task_order. *)
Module TaskRow.
Record t := mk {
  id : string;
  title : string;
  completed : Z;
  category : Category;
  priority : Priority;
  created_at : string;
  project_id : option string;
  due_date : option string;
  task_order : Z
}.
End TaskRow.

(** A row of the [projects] table.  The [tags] column holds the JSON text
    of the tag array; the text is kept as the array it encodes. *)
Module ProjectRow.
Record t := mk {
  id : string;
  name : string;
  description : string;
  progress : Z;
  total_tasks : Z;
  completed_tasks : Z;
  color : ProjectColor;
  status : ProjectStatus;
  created_at : string;
  deadline : option string;
  tags : option (list string)
}.
End ProjectRow.

(** The sql.js database object: its tables, rows in rowid order. *)
Record Database := mkDatabase {
  tasks_table : list TaskRow.t;
  projects_table : list ProjectRow.t
}.

Module database.
(** The module-level singleton [let db: Database | null]. *)
Definition Db := option Database.

(** [createTables] on [new SQL.Database()]. *)
Definition createTables : Database := mkDatabase [] [].

Definition getDatabase : M Db Database :=
  fun db =>
    match db with
    | Some d => (Ok d, db)
    | None =>
        (Thrown "Database not initialized. Call initDatabase() first.", db)
    end.

Definition isDatabaseInitialized (db : Db) : bool :=
  match db with Some _ => true | None => false end.

(** [db.run(sql, params)]: the statement mutates the database object or
    throws and leaves it as it was. *)
Definition run (stmt : Database -> result Database) : M Db unit :=
  fun db =>
    match db with
    | Some d =>
        match stmt d with
        | Ok d' => (Ok tt, Some d')
        | Thrown e => (Thrown e, db)
        end
    | None =>
        (Thrown "Database not initialized. Call initDatabase() first.", db)
    end.

(** [saveDatabase] exports the database to localStorage inside its own
    try/catch; it neither changes the tables nor throws. *)
Definition saveDatabase : M Db unit := ret tt.
End database.

(** SQL [NOT] on an integer. *)
Definition sql_not (z : Z) : Z := if z =? 0 then 1 else 0.

(** [Boolean(row[2])] *)
Definition Boolean (z : Z) : bool := negb (z =? 0).

(* ================================================================== *)
(** ** services/taskRepository.ts *)

Module taskRepository.
Import database.

Definition on_tasks (f : list TaskRow.t -> list TaskRow.t) (d : Database)
  : Database :=
  mkDatabase (f (tasks_table d)) (projects_table d).

(** [INSERT INTO tasks (...) VALUES (...)]; [id] is the PRIMARY KEY. *)
Definition INSERT_INTO_tasks (r : TaskRow.t) (d : Database)
  : result Database :=
  if existsb (fun x => (TaskRow.id x =? TaskRow.id r)%string) (tasks_table d)
  then Thrown "UNIQUE constraint failed: tasks.id"
  else Ok (on_tasks (fun rows => rows ++ [r]) d).

(** [UPDATE tasks SET <set> WHERE id = ?] *)
Definition UPDATE_tasks_WHERE_id (set : TaskRow.t -> TaskRow.t)
    (id : string) (d : Database) : result Database :=
  Ok (on_tasks
        (map (fun x => if (TaskRow.id x =? id)%string then set x else x)) d).

(** [DELETE FROM tasks WHERE id = ?] *)
Definition DELETE_FROM_tasks_WHERE_id (id : string) (d : Database)
  : result Database :=
  Ok (on_tasks (filter (fun x => negb (TaskRow.id x =? id)%string)) d).

(** The row-to-object conversion of [getAllTasks] and
    [getTasksByCategory]. *)
Definition rowToTask (row : TaskRow.t) : Task :=
  Task.mk (TaskRow.id row) (TaskRow.title row)
          (Boolean (TaskRow.completed row))
          (TaskRow.category row) (TaskRow.priority row)
          (TaskRow.created_at row) (TaskRow.project_id row)
          (TaskRow.due_date row)
          None None None
          (Some (TaskRow.task_order row)).

(** The bound parameters of [insertTask]. *)
Definition taskToRow (task : Task) : TaskRow.t :=
  TaskRow.mk (Task.id task) (Task.title task)
             (if Task.completed task then 1 else 0)
             (Task.category task) (Task.priority task)
             (Task.createdAt task)
             (or_null (Task.projectId task))
             (or_null (Task.dueDate task))
             (or_zero (Task.order task)).

(** [SELECT * FROM tasks ORDER BY task_order ASC] *)
Definition getAllTasks : M Db (list Task) :=
  db <- getDatabase ;;
  ret (map rowToTask (sort_by TaskRow.task_order (tasks_table db))).

(** [SELECT * FROM tasks WHERE category = ? ORDER BY task_order ASC] *)
Definition getTasksByCategory (category : Category) : M Db (list Task) :=
  db <- getDatabase ;;
  ret (map rowToTask
         (sort_by TaskRow.task_order
            (filter (fun x => Category_eqb (TaskRow.category x) category)
                    (tasks_table db)))).

Definition insertTask (task : Task) : M Db unit :=
  _ <- getDatabase ;;
  run (INSERT_INTO_tasks (taskToRow task)) ;;
  saveDatabase.

Definition updateTask (task : Task) : M Db unit :=
  _ <- getDatabase ;;
  run (UPDATE_tasks_WHERE_id
         (fun x =>
            TaskRow.mk (TaskRow.id x) (Task.title task)
                       (if Task.completed task then 1 else 0)
                       (Task.category task) (Task.priority task)
                       (TaskRow.created_at x)
                       (or_null (Task.projectId task))
                       (or_null (Task.dueDate task))
                       (or_zero (Task.order task)))
         (Task.id task)) ;;
  saveDatabase.

Definition deleteTask (id : string) : M Db unit :=
  _ <- getDatabase ;;
  run (DELETE_FROM_tasks_WHERE_id id) ;;
  saveDatabase.

(** [UPDATE tasks SET completed = NOT completed WHERE id = ?] *)
Definition toggleTask (id : string) : M Db unit :=
  _ <- getDatabase ;;
  run (UPDATE_tasks_WHERE_id
         (fun x =>
            TaskRow.mk (TaskRow.id x) (TaskRow.title x)
                       (sql_not (TaskRow.completed x))
                       (TaskRow.category x) (TaskRow.priority x)
                       (TaskRow.created_at x) (TaskRow.project_id x)
                       (TaskRow.due_date x) (TaskRow.task_order x))
         id) ;;
  saveDatabase.

(** [UPDATE tasks SET task_order = ? WHERE id = ?] for each id with its
    index; the category argument is unused. *)
Definition updateTaskOrder (_category : Category) (orderedIds : list string)
  : M Db unit :=
  _ <- getDatabase ;;
  forEach
    (fun id index =>
       run (UPDATE_tasks_WHERE_id
              (fun x =>
                 TaskRow.mk (TaskRow.id x) (TaskRow.title x)
                            (TaskRow.completed x)
                            (TaskRow.category x) (TaskRow.priority x)
                            (TaskRow.created_at x) (TaskRow.project_id x)
                            (TaskRow.due_date x) index)
              id))
    orderedIds ;;
  saveDatabase.
(** The result of [getTaskCount]. *)
Record TaskCount := mkTaskCount {
  total : Z;
  completed_count : Z
}.

(** The two COUNT queries: one over all rows of [tasks], one over the
    rows [WHERE completed = 1]; a COUNT query always yields one row. *)
Definition getTaskCount : M Db TaskCount :=
  db <- getDatabase ;;
  ret (mkTaskCount
         (Z.of_nat (List.length (tasks_table db)))
         (Z.of_nat
            (List.length
               (filter (fun x => TaskRow.completed x =? 1) (tasks_table db))))).
End taskRepository.

(* ================================================================== *)
(** ** services/projectRepository.ts *)

Module projectRepository.
Import database.

Definition on_projects (f : list ProjectRow.t -> list ProjectRow.t)
    (d : Database) : Database :=
  mkDatabase (tasks_table d) (f (projects_table d)).

Definition INSERT_INTO_projects (r : ProjectRow.t) (d : Database)
  : result Database :=
  if existsb (fun x => (ProjectRow.id x =? ProjectRow.id r)%string)
             (projects_table d)
  then Thrown "UNIQUE constraint failed: projects.id"
  else Ok (on_projects (fun rows => rows ++ [r]) d).

Definition UPDATE_projects_WHERE_id (set : ProjectRow.t -> ProjectRow.t)
    (id : string) (d : Database) : result Database :=
  Ok (on_projects
        (map (fun x => if (ProjectRow.id x =? id)%string then set x else x))
        d).

Definition DELETE_FROM_projects_WHERE_id (id : string) (d : Database)
  : result Database :=
  Ok (on_projects (filter (fun x => negb (ProjectRow.id x =? id)%string)) d).

(** The row-to-object conversion of [getAllProjects]; a NULL [tags]
    column reads as the empty array. *)
Definition rowToProject (row : ProjectRow.t) : Project :=
  Project.mk (ProjectRow.id row) (ProjectRow.name row)
             (ProjectRow.description row) (ProjectRow.progress row)
             (ProjectRow.total_tasks row) (ProjectRow.completed_tasks row)
             (ProjectRow.color row) (ProjectRow.status row)
             (ProjectRow.created_at row) (ProjectRow.deadline row)
             (match ProjectRow.tags row with Some l => l | None => [] end).

(** The bound parameters of [insertProject]. *)
Definition projectToRow (project : Project) : ProjectRow.t :=
  ProjectRow.mk (Project.id project) (Project.name project)
                (Project.description project)
                (Project.progress project)
                (Project.totalTasks project)
                (Project.completedTasks project)
                (Project.color project) (Project.status project)
                (Project.createdAt project)
                (or_null (Project.deadline project))
                (Some (Project.tags project)).

(** [SELECT * FROM projects ORDER BY created_at DESC] *)
Definition getAllProjects : M Db (list Project) :=
  db <- getDatabase ;;
  ret (map rowToProject
         (sort_desc ProjectRow.created_at (projects_table db))).

Definition insertProject (project : Project) : M Db unit :=
  _ <- getDatabase ;;
  run (INSERT_INTO_projects (projectToRow project)) ;;
  saveDatabase.

Definition updateProject (project : Project) : M Db unit :=
  _ <- getDatabase ;;
  run (UPDATE_projects_WHERE_id
         (fun x =>
            ProjectRow.mk (ProjectRow.id x) (Project.name project)
                          (Project.description project)
                          (Project.progress project)
                          (Project.totalTasks project)
                          (Project.completedTasks project)
                          (Project.color project) (Project.status project)
                          (ProjectRow.created_at x)
                          (or_null (Project.deadline project))
                          (Some (Project.tags project)))
         (Project.id project)) ;;
  saveDatabase.

Definition deleteProject (id : string) : M Db unit :=
  _ <- getDatabase ;;
  run (DELETE_FROM_projects_WHERE_id id) ;;
  saveDatabase.
(** [SELECT * FROM projects WHERE id = ?]; the first row that [step]
    yields, or [null]. *)
Definition getProjectById (id : string) : M Db (option Project) :=
  db <- getDatabase ;;
  ret (option_map rowToProject
         (find_by (fun x => (ProjectRow.id x =? id)%string)
                  (projects_table db))).

(** [SELECT * FROM projects WHERE status = ? ORDER BY created_at DESC] *)
Definition getProjectsByStatus (status : ProjectStatus)
  : M Db (list Project) :=
  db <- getDatabase ;;
  ret (map rowToProject
         (sort_desc ProjectRow.created_at
            (filter (fun x => ProjectStatus_eqb (ProjectRow.status x) status)
                    (projects_table db)))).
End projectRepository.

(* ================================================================== *)
(** ** hooks/useTasks.ts *)

Module useTasks.
Import database.

(** The React state of the hook.  [localTasks] is the value held by
    [useLocalStorage('lumina-tasks', [])], which is also what is written
    to localStorage. *)
Record State := mkState {
  localTasks : list Task;
  dbTasks : list Task;
  useDb : bool
}.

Record World := mkWorld {
  db : Db;
  state : State
}.

(** A call into [taskRepo]. *)
Definition taskRepo {A : Type} (m : M Db A) : M World A :=
  zoom db (fun d w => mkWorld d (state w)) m.

Definition setDbTasks (v : list Task) : M World unit :=
  modify (fun w =>
    mkWorld (db w)
            (mkState (localTasks (state w)) v (useDb (state w)))).

Definition setUseDb (b : bool) : M World unit :=
  modify (fun w =>
    mkWorld (db w)
            (mkState (localTasks (state w)) (dbTasks (state w)) b)).

Definition setStoredValue (v : list Task) : M World unit :=
  modify (fun w =>
    mkWorld (db w)
            (mkState v (dbTasks (state w)) (useDb (state w)))).

(** [setValue] of [useLocalStorage], called with an updater function:
    the new value becomes the state and is written to localStorage; an
    error raised on the way is caught and logged. *)
Definition setLocalTasks (updater : list Task -> M World (list Task))
  : M World unit :=
  try_catch
    (w <- get ;;
     valueToStore <- updater (localTasks (state w)) ;;
     setStoredValue valueToStore)
    (fun _ => ret tt).

(** [const tasks = useDb ? dbTasks : localTasks] *)
Definition tasks (w : World) : list Task :=
  if useDb (state w) then dbTasks (state w) else localTasks (state w).

(** [const setTasks = useDb ? (updater) => setDbTasks(updater(dbTasks))
                            : setLocalTasks] *)
Definition setTasks (updater : list Task -> M World (list Task))
  : M World unit :=
  w <- get ;;
  if useDb (state w)
  then v <- updater (dbTasks (state w)) ;; setDbTasks v
  else setLocalTasks updater.

(** The effect "Load from SQLite when database is ready". *)
Definition loadEffect (dbReady : bool) : M World unit :=
  w <- get ;;
  if dbReady && isDatabaseInitialized (db w)
  then
    try_catch
      (tasks <- taskRepo taskRepository.getAllTasks ;;
       if (0 <? List.length tasks)%nat
       then setDbTasks tasks ;; setUseDb true
       else if (0 <? List.length (localTasks (state w)))%nat
       then
         forEach (fun task _ => taskRepo (taskRepository.insertTask task))
                 (localTasks (state w)) ;;
         setDbTasks (localTasks (state w)) ;;
         setUseDb true
       else setUseDb true)
      (fun _ => setUseDb false)
  else ret tt.

(** The filter of the effect "Reset recurring tasks daily".
    [toDateString s] stands for [new Date(s).toDateString()] and [today]
    for [new Date().toDateString()]. *)
Definition needsReset (toDateString : string -> string) (today : string)
    (task : Task) : bool :=
  if negb (truthy_bool (Task.isRecurring task)) || negb (Task.completed task)
  then false
  else if negb (truthy_string (Task.lastCompletedAt task))
  then true
  else
    match Task.lastCompletedAt task with
    | Some l => negb (toDateString l =? today)%string
    | None => true
    end.

(** The effect "Reset recurring tasks daily". *)
Definition resetRecurringEffect (toDateString : string -> string)
    (today : string) : M World unit :=
  w <- get ;;
  let tasksToReset := filter (needsReset toDateString today) (tasks w) in
  if (0 <? List.length tasksToReset)%nat
  then
    setTasks (fun prev =>
      ret (map (fun task =>
                  match find_by (fun t => (Task.id t =? Task.id task)%string)
                                tasksToReset with
                  | Some _ => Task.with_completed false task
                  | None => task
                  end)
               prev))
  else ret tt.

Record AddOptions := mkAddOptions {
  opt_priority : option Priority;
  opt_projectId : option string;
  opt_dueDate : option string;
  opt_dueTime : option string;
  opt_isRecurring : option bool
}.

(** [addTask]; [newId] is the value of [generateId()] and [now] that of
    [new Date().toISOString()]. *)
Definition addTask (newId now : string) (title : string)
    (category : Category) (options : option AddOptions) : M World Task :=
  w <- get ;;
  let newTask :=
    Task.mk newId title false category
      (match options with
       | Some o => match opt_priority o with Some p => p | None => medium end
       | None => medium
       end)
      now
      (match options with Some o => opt_projectId o | None => None end)
      (match options with Some o => opt_dueDate o | None => None end)
      (match options with Some o => opt_dueTime o | None => None end)
      (match options with Some o => opt_isRecurring o | None => None end)
      None
      (Some (Z.of_nat
               (List.length (filter (fun t => Category_eqb (Task.category t)
                                                      category)
                               (tasks w))))) in
  (if useDb (state w)
   then try_catch (taskRepo (taskRepository.insertTask newTask))
                  (fun _ => ret tt)
   else ret tt) ;;
  setTasks (fun prev => ret (prev ++ [newTask])) ;;
  ret newTask.

(** [toggleTask]; [now] is the value of [new Date().toISOString()]. *)
Definition toggleTask (now : string) (id : string) : M World unit :=
  w <- get ;;
  (if useDb (state w)
   then try_catch (taskRepo (taskRepository.toggleTask id))
                  (fun _ => ret tt)
   else ret tt) ;;
  setTasks (fun prev =>
    ret (map (fun task =>
                if negb (Task.id task =? id)%string then task
                else
                  let nowCompleted := negb (Task.completed task) in
                  Task.with_completed_lastCompletedAt
                    nowCompleted
                    (if truthy_bool (Task.isRecurring task) && nowCompleted
                     then Some now
                     else Task.lastCompletedAt task)
                    task)
             prev)).

Definition deleteTask (id : string) : M World unit :=
  w <- get ;;
  (if useDb (state w)
   then try_catch (taskRepo (taskRepository.deleteTask id))
                  (fun _ => ret tt)
   else ret tt) ;;
  setTasks (fun prev =>
    ret (filter (fun task => negb (Task.id task =? id)%string) prev)).

Definition updateTask (id : string) (updates : TaskUpdates.t)
  : M World unit :=
  w <- get ;;
  setTasks (fun prev =>
    let updated :=
      map (fun task =>
             if (Task.id task =? id)%string then spreadTask task updates
             else task)
          prev in
    (if useDb (state w)
     then
       match find_by (fun t => (Task.id t =? id)%string) updated with
       | Some updatedTask =>
           try_catch (taskRepo (taskRepository.updateTask updatedTask))
                     (fun _ => ret tt)
       | None => ret tt
       end
     else ret tt) ;;
    ret updated).

Definition getTasksByCategory (category : Category) (w : World)
  : list Task :=
  sort_by (fun t => or_zero (Task.order t))
          (filter (fun task => Category_eqb (Task.category task) category)
                  (tasks w)).

Definition getTasksByProject (projectId : string) (w : World) : list Task :=
  filter (fun task =>
            match Task.projectId task with
            | Some p => (p =? projectId)%string
            | None => false
            end)
         (tasks w).

Definition linkTaskToProject (taskId : string) (projectId : option string)
  : M World unit :=
  updateTask taskId
    (TaskUpdates.mk None None None None None None (Some projectId)
                    None None None None None).

(** [reorderedTasks.map((task, index) => ({ ...task, order: index }))] *)
Fixpoint withIndexOrder (index : Z) (l : list Task) : list Task :=
  match l with
  | [] => []
  | task :: l' => Task.with_order index task :: withIndexOrder (index + 1) l'
  end.

Definition reorderTasks (category : Category) (reorderedTasks : list Task)
  : M World unit :=
  w <- get ;;
  (if useDb (state w)
   then
     let orderedIds := map Task.id reorderedTasks in
     try_catch
       (taskRepo (taskRepository.updateTaskOrder category orderedIds))
       (fun _ => ret tt)
   else ret tt) ;;
  setTasks (fun prev =>
    let otherTasks :=
      filter (fun t => negb (Category_eqb (Task.category t) category))
             prev in
    let orderedTasks := withIndexOrder 0 reorderedTasks in
    ret (otherTasks ++ orderedTasks)).
End useTasks.

(* ================================================================== *)
(** ** hooks/useProjects.ts *)

Module useProjects.
Import database.

Record State := mkState {
  localProjects : list Project;
  dbProjects : list Project;
  useDb : bool
}.

Record World := mkWorld {
  db : Db;
  state : State
}.

Definition projectRepo {A : Type} (m : M Db A) : M World A :=
  zoom db (fun d w => mkWorld d (state w)) m.

Definition setDbProjects (v : list Project) : M World unit :=
  modify (fun w =>
    mkWorld (db w)
            (mkState (localProjects (state w)) v (useDb (state w)))).

Definition setStoredValue (v : list Project) : M World unit :=
  modify (fun w =>
    mkWorld (db w)
            (mkState v (dbProjects (state w)) (useDb (state w)))).

Definition setLocalProjects
    (updater : list Project -> M World (list Project)) : M World unit :=
  try_catch
    (w <- get ;;
     valueToStore <- updater (localProjects (state w)) ;;
     setStoredValue valueToStore)
    (fun _ => ret tt).

Definition setUseDb (b : bool) : M World unit :=
  modify (fun w =>
    mkWorld (db w)
            (mkState (localProjects (state w)) (dbProjects (state w)) b)).

(** The effect "Load from SQLite when database is ready". *)
Definition loadEffect (dbReady : bool) : M World unit :=
  w <- get ;;
  if dbReady && isDatabaseInitialized (db w)
  then
    try_catch
      (projects <- projectRepo projectRepository.getAllProjects ;;
       if (0 <? List.length projects)%nat
       then setDbProjects projects ;; setUseDb true
       else if (0 <? List.length (localProjects (state w)))%nat
       then
         forEach (fun project _ =>
                    projectRepo (projectRepository.insertProject project))
                 (localProjects (state w)) ;;
         setDbProjects (localProjects (state w)) ;;
         setUseDb true
       else setUseDb true)
      (fun _ => setUseDb false)
  else ret tt.

Definition projects (w : World) : list Project :=
  if useDb (state w) then dbProjects (state w) else localProjects (state w).

Definition setProjects (updater : list Project -> M World (list Project))
  : M World unit :=
  w <- get ;;
  if useDb (state w)
  then v <- updater (dbProjects (state w)) ;; setDbProjects v
  else setLocalProjects updater.

Definition updateProject (id : string) (updates : ProjectUpdates.t)
  : M World unit :=
  w <- get ;;
  setProjects (fun prev =>
    let updated :=
      map (fun project =>
             if (Project.id project =? id)%string
             then spreadProject project updates
             else project)
          prev in
    (if useDb (state w)
     then
       match find_by (fun p => (Project.id p =? id)%string) updated with
       | Some updatedProject =>
           try_catch
             (projectRepo (projectRepository.updateProject updatedProject))
             (fun _ => ret tt)
       | None => ret tt
       end
     else ret tt) ;;
    ret updated).

Definition deleteProject (id : string) : M World unit :=
  w <- get ;;
  (if useDb (state w)
   then try_catch (projectRepo (projectRepository.deleteProject id))
                  (fun _ => ret tt)
   else ret tt) ;;
  setProjects (fun prev =>
    ret (filter (fun project => negb (Project.id project =? id)%string)
                prev)).

(** [totalTasks > 0 ? Math.round((completedTasks / totalTasks) * 100) : 0] *)
Definition computeProgress (completedTasks totalTasks : Z) : Z :=
  if 0 <? totalTasks
  then Math_round
         (Number_multiply
            (Number_divide (inject_Z completedTasks) (inject_Z totalTasks))
            (inject_Z 100))
  else 0.

Definition updateProgress (id : string) (completedTasks totalTasks : Z)
  : M World unit :=
  let progress := computeProgress completedTasks totalTasks in
  let status := if progress =? 100 then completed else active in
  updateProject id
    (ProjectUpdates.mk None None None (Some progress) (Some totalTasks)
                       (Some completedTasks) None (Some status) None None
                       None).

Definition changeStatus (id : string) (status : ProjectStatus)
  : M World unit :=
  updateProject id
    (ProjectUpdates.mk None None None None None None None (Some status)
                       None None None).

Definition activeProjects (w : World) : list Project :=
  filter (fun p => ProjectStatus_eqb (Project.status p) active) (projects w).
Definition onHoldProjects (w : World) : list Project :=
  filter (fun p => ProjectStatus_eqb (Project.status p) on_hold) (projects w).
Definition completedProjects (w : World) : list Project :=
  filter (fun p => ProjectStatus_eqb (Project.status p) completed)
         (projects w).
Record AddOptions := mkAddOptions {
  opt_color : option ProjectColor;
  opt_deadline : option string;
  opt_tags : option (list string)
}.

(** [addProject]; [newId] is the value of [generateId()] and [now] that of
    [new Date().toISOString()]. *)
Definition addProject (newId now : string) (name description : string)
    (options : option AddOptions) : M World Project :=
  w <- get ;;
  let newProject :=
    Project.mk newId name description 0 0 0
      (match options with
       | Some o => match opt_color o with Some c => c | None => slate end
       | None => slate
       end)
      active now
      (match options with Some o => opt_deadline o | None => None end)
      (match options with
       | Some o => match opt_tags o with Some l => l | None => [] end
       | None => []
       end) in
  (if useDb (state w)
   then try_catch (projectRepo (projectRepository.insertProject newProject))
                  (fun _ => ret tt)
   else ret tt) ;;
  setProjects (fun prev => ret (prev ++ [newProject])) ;;
  ret newProject.
End useProjects.


(* ================================================================== *)
(** ** Vocabulary of the properties *)

(** The tasks of a collection that are in category [C], and their
    [order] values. *)
Definition inCategory (C : Category) (l : list Task) : list Task :=
  filter (fun t => Category_eqb (Task.category t) C) l.

Definition orderValues (C : Category) (l : list Task) : list (option Z) :=
  map Task.order (inCategory C l).

(** The set of order values in category [C] is {0, ..., n-1}, where n is
    the number of tasks in [C]. *)
Definition denseOrders (C : Category) (l : list Task) : Prop :=
  forall o : option Z,
    In o (orderValues C l)
    <-> exists k : Z,
          o = Some k /\ 0 <= k < Z.of_nat (List.length (inCategory C l)).

(** The same on the rows of the [tasks] table. *)
Definition rowsInCategory (C : Category) (rows : list TaskRow.t)
  : list TaskRow.t :=
  filter (fun x => Category_eqb (TaskRow.category x) C) rows.

Definition denseRowOrders (C : Category) (rows : list TaskRow.t) : Prop :=
  forall k : Z,
    In k (map TaskRow.task_order (rowsInCategory C rows))
    <-> 0 <= k < Z.of_nat (List.length (rowsInCategory C rows)).

(** What [updateProject] and [updateTask] make of the collection. *)
Definition updatedProjects (id : string) (u : ProjectUpdates.t)
    (l : list Project) : list Project :=
  map (fun project =>
         if (Project.id project =? id)%string then spreadProject project u
         else project) l.

Definition updatedTasks (id : string) (u : TaskUpdates.t) (l : list Task)
  : list Task :=
  map (fun task =>
         if (Task.id task =? id)%string then spreadTask task u else task) l.

(** The rows of the tasks table of a world; no rows when the database is
    not initialised. *)
Definition taskRows (db : database.Db) : list TaskRow.t :=
  match db with Some d => tasks_table d | None => [] end.

Definition projectRows (db : database.Db) : list ProjectRow.t :=
  match db with Some d => projects_table d | None => [] end.

(** For the examples: the calendar day of an ISO 8601 timestamp, read in
    UTC. *)
Definition isoDay (s : string) : string := substring 0 10 s.

(** The world after [setTasks] with a pure updater [f], and the world with
    another database. *)
Definition mapTasks (f : list Task -> list Task) (w : useTasks.World)
  : useTasks.World :=
  useTasks.mkWorld (useTasks.db w)
    (if useTasks.useDb (useTasks.state w)
     then useTasks.mkState (useTasks.localTasks (useTasks.state w))
                           (f (useTasks.dbTasks (useTasks.state w))) true
     else useTasks.mkState (f (useTasks.localTasks (useTasks.state w)))
                           (useTasks.dbTasks (useTasks.state w)) false).

Definition withDb (d : database.Db) (w : useTasks.World) : useTasks.World :=
  useTasks.mkWorld d (useTasks.state w).

(** The database after a repository call made only in relational mode,
    inside try/catch. *)
Definition dbAfter (m : M database.Db unit) (w : useTasks.World)
  : database.Db :=
  if useTasks.useDb (useTasks.state w) then snd (m (useTasks.db w))
  else useTasks.db w.

(** The per-task functions of [toggleTask] and of the reset sweep. *)
Definition toggled (now id : string) (task : Task) : Task :=
  if negb (Task.id task =? id)%string then task
  else
    let nowCompleted := negb (Task.completed task) in
    Task.with_completed_lastCompletedAt
      nowCompleted
      (if truthy_bool (Task.isRecurring task) && nowCompleted
       then Some now
       else Task.lastCompletedAt task)
      task.

Definition resetIfListed (tasksToReset : list Task) (task : Task) : Task :=
  match find_by (fun t => (Task.id t =? Task.id task)%string) tasksToReset with
  | Some _ => Task.with_completed false task
  | None => task
  end.

(** The row function of the repository's [toggleTask]. *)
Definition toggledRow (id : string) (x : TaskRow.t) : TaskRow.t :=
  if (TaskRow.id x =? id)%string
  then TaskRow.mk (TaskRow.id x) (TaskRow.title x)
                  (sql_not (TaskRow.completed x))
                  (TaskRow.category x) (TaskRow.priority x)
                  (TaskRow.created_at x) (TaskRow.project_id x)
                  (TaskRow.due_date x) (TaskRow.task_order x)
  else x.

(** The row function of one [UPDATE tasks SET task_order = ? WHERE id = ?],
    the table after the updates issued by [updateTaskOrder] for the ids
    [ids] counted from [i], and what these updates make of one row. *)
Definition orderedRow (id : string) (index : Z) (x : TaskRow.t) : TaskRow.t :=
  if (TaskRow.id x =? id)%string
  then TaskRow.mk (TaskRow.id x) (TaskRow.title x) (TaskRow.completed x)
                  (TaskRow.category x) (TaskRow.priority x)
                  (TaskRow.created_at x) (TaskRow.project_id x)
                  (TaskRow.due_date x) index
  else x.

Fixpoint orderedRows (i : Z) (ids : list string) (rows : list TaskRow.t)
  : list TaskRow.t :=
  match ids with
  | [] => rows
  | id :: ids' => orderedRows (i + 1) ids' (map (orderedRow id i) rows)
  end.

Fixpoint finalRow (i : Z) (ids : list string) (x : TaskRow.t) : TaskRow.t :=
  match ids with
  | [] => x
  | id :: ids' => finalRow (i + 1) ids' (orderedRow id i x)
  end.

(** The position of [id] in [ids], counted from [i]. *)
Fixpoint indexFrom (i : Z) (id : string) (ids : list string) : option Z :=
  match ids with
  | [] => None
  | y :: ids' => if (id =? y)%string then Some i else indexFrom (i + 1) id ids'
  end.

(* ================================================================== *)
(** ** Example data *)

(** Scenario B: a project with 2 of 4 tasks done, held in the relational
    store. *)
Definition exampleProject : Project :=
  Project.mk "p1" "Site" "Rebuild the site" 50 4 2 slate on_hold
             "2026-01-01T10:00:00.000Z" None ["web"].

Definition exampleProjectRow : ProjectRow.t :=
  ProjectRow.mk "p1" "Site" "Rebuild the site" 50 4 2 slate on_hold
                "2026-01-01T10:00:00.000Z" None (Some ["web"]).

Definition exampleProjectWorld : useProjects.World :=
  useProjects.mkWorld
    (Some (mkDatabase [] [exampleProjectRow]))
    (useProjects.mkState [] [exampleProject] true).

(** Two tasks of the Today list, as the localStorage backend holds them. *)
Definition milk : Task :=
  Task.mk "task_1_milk" "Buy milk" false today medium
          "2026-01-05T09:00:00.000Z" None None None None None (Some 0).

Definition eggs : Task :=
  Task.mk "task_2_eggs" "Buy eggs" true today medium
          "2026-01-05T09:05:00.000Z" None None None None None (Some 1).

Definition localWorld : useTasks.World :=
  useTasks.mkWorld None (useTasks.mkState [milk; eggs] [] false).

(** The same two tasks held in the relational store. *)
Definition relationalWorld : useTasks.World :=
  useTasks.mkWorld
    (Some (mkDatabase [taskRepository.taskToRow milk;
                       taskRepository.taskToRow eggs] []))
    (useTasks.mkState [] [milk; eggs] true).

(** A recurring task that is not completed yet. *)
Definition standup : Task :=
  Task.mk "task_3_standup" "Daily standup" false today high
          "2026-01-05T08:00:00.000Z" None None (Some "09:30") (Some true)
          None (Some 0).

Definition recurringWorld : useTasks.World :=
  useTasks.mkWorld None (useTasks.mkState [standup] [] false).

(** A session in relational mode: a recurring task is added, completed on
    5 January and the reset sweep runs on 6 January. *)
Definition emptyRelationalWorld : useTasks.World :=
  useTasks.mkWorld (Some database.createTables) (useTasks.mkState [] [] true).

Definition afterAdd : useTasks.World :=
  snd (useTasks.addTask "task_3_standup" "2026-01-05T08:00:00.000Z"
         "Daily standup" today
         (Some (useTasks.mkAddOptions (Some high) None None (Some "09:30")
                                      (Some true)))
         emptyRelationalWorld).

Definition afterToggle : useTasks.World :=
  snd (useTasks.toggleTask "2026-01-05T09:40:00.000Z" "task_3_standup"
         afterAdd).

Definition afterSweep : useTasks.World :=
  snd (useTasks.resetRecurringEffect isoDay "2026-01-06" afterToggle).

(** The recurring task once completed, as the task manager holds it. *)
Definition standupDone : Task :=
  Task.mk "task_3_standup" "Daily standup" true today high
          "2026-01-05T08:00:00.000Z" None None (Some "09:30") (Some true)
          (Some "2026-01-05T09:40:00.000Z") (Some 0).

(** Scenario D: two tasks in localStorage and a freshly created, empty
    relational store. *)
Definition beforeMigration : useTasks.World :=
  useTasks.mkWorld (Some database.createTables)
                   (useTasks.mkState [milk; eggs] [] false).

(** A task of the Week list next to the two Today tasks, in relational
    mode. *)
Definition report : Task :=
  Task.mk "task_4_report" "Write report" false week low
          "2026-01-05T09:10:00.000Z" None None None None None (Some 0).

Definition mixedWorld : useTasks.World :=
  useTasks.mkWorld
    (Some (mkDatabase [taskRepository.taskToRow milk;
                       taskRepository.taskToRow eggs;
                       taskRepository.taskToRow report] []))
    (useTasks.mkState [] [milk; eggs; report] true).

(** The demo projects that [useProjects] puts into localStorage for a
    first-time user, next to an empty relational store. *)
Definition defaultProjects : list Project :=
  [ Project.mk "demo-1" "App Redesign"
      "Modernize the user interface with a fresh, minimal look."
      65 12 8 slate active "2025-12-15T10:00:00Z"
      (Some "2026-01-15T23:59:59Z") ["design"; "frontend"];
    Project.mk "demo-2" "Documentation"
      "Write comprehensive documentation for the API."
      30 10 3 sage active "2025-12-20T14:30:00Z"
      (Some "2026-01-31T23:59:59Z") ["docs"] ].

Definition beforeProjectMigration : useProjects.World :=
  useProjects.mkWorld (Some database.createTables)
                      (useProjects.mkState defaultProjects [] false).

(** Scenario A: two tasks are added to an empty Today list and then
    swapped. *)
Definition emptyLocalWorld : useTasks.World :=
  useTasks.mkWorld None (useTasks.mkState [] [] false).

Definition scenarioA_added : useTasks.World :=
  snd (useTasks.addTask "task_2_eggs" "2026-01-05T09:05:00.000Z" "Buy eggs"
         today None
         (snd (useTasks.addTask "task_1_milk" "2026-01-05T09:00:00.000Z"
                 "Buy milk" today None emptyLocalWorld))).

Definition scenarioA_reordered : useTasks.World :=
  snd (useTasks.reorderTasks today
         (rev (useTasks.getTasksByCategory today scenarioA_added))
         scenarioA_added).

(* ================================================================== *)
(** ** Further vocabulary *)

From Stdlib Require Import Sorted.
From Stdlib Require SpecFloat.

(** *** The progress arithmetic on the Standard Library's binary64

    [SpecFloat] specifies the IEEE 754 operations on sign, mantissa and
    exponent; with a precision of 53 bits and a largest exponent of 1024
    they are those of binary64.  The product that [updateProgress] rounds
    is written a second time on them, to compare [Number_of] with. *)
Module binary64.

Definition of_Z (z : Z) : SpecFloat.spec_float :=
  SpecFloat.binary_normalize 53 1024 z 0 false.

Definition div : SpecFloat.spec_float -> SpecFloat.spec_float
                 -> SpecFloat.spec_float :=
  SpecFloat.SFdiv 53 1024.

Definition mul : SpecFloat.spec_float -> SpecFloat.spec_float
                 -> SpecFloat.spec_float :=
  SpecFloat.SFmul 53 1024.

(** The rational that a finite double denotes. *)
Definition to_Q (f : SpecFloat.spec_float) : option Q :=
  match f with
  | SpecFloat.S754_zero _ => Some 0%Q
  | SpecFloat.S754_finite s m e =>
      Some ((if s then -1 else 1) * inject_Z (Zpos m) * 2 ^ e)%Q
  | _ => None
  end.

(** [(c / t) * 100] *)
Definition percentage (c t : Z) : option Q :=
  to_Q (mul (div (of_Z c) (of_Z t)) (of_Z 100)).
End binary64.

(** [(c / t) * 100] on the numbers of the model. *)
Definition percentage (c t : Z) : Q :=
  Number_multiply (Number_divide (inject_Z c) (inject_Z t)) (inject_Z 100).

(** The two versions of the product agree for all [c] of [cs] and [t] of
    [ts]. *)
Definition percentagesAgree (cs ts : list Z) : bool :=
  forallb
    (fun c =>
       forallb
         (fun t =>
            match binary64.percentage c t with
            | Some q => Qeq_bool q (percentage c t)
            | None => false
            end)
         ts)
    cs.

(** The integers from [lo] on, [n] of them. *)
Definition integersFrom (lo : Z) (n : nat) : list Z :=
  map (fun k => lo + Z.of_nat k) (seq 0 n).

(** Every [completed] column holds 0 or 1. *)
Definition booleanRows (rows : list TaskRow.t) : Prop :=
  forall x, In x rows -> TaskRow.completed x = 0 \/ TaskRow.completed x = 1.

(** A row with another [task_order]. *)
Definition withTaskOrder (o : Z) (x : TaskRow.t) : TaskRow.t :=
  TaskRow.mk (TaskRow.id x) (TaskRow.title x) (TaskRow.completed x)
             (TaskRow.category x) (TaskRow.priority x) (TaskRow.created_at x)
             (TaskRow.project_id x) (TaskRow.due_date x) o.

(** A task with another [createdAt]. *)
Definition withCreatedAt (c : string) (x : Task) : Task :=
  Task.mk (Task.id x) (Task.title x) (Task.completed x) (Task.category x)
          (Task.priority x) c (Task.projectId x) (Task.dueDate x)
          (Task.dueTime x) (Task.isRecurring x) (Task.lastCompletedAt x)
          (Task.order x).

(** [subsequence l' l]: [l'] is [l] with some elements left out and the
    others in their order. *)
Inductive subsequence {A : Type} : list A -> list A -> Prop :=
| subsequence_nil : subsequence [] []
| subsequence_keep (x : A) (l' l : list A) :
    subsequence l' l -> subsequence (x :: l') (x :: l)
| subsequence_drop (x : A) (l' l : list A) :
    subsequence l' l -> subsequence l' (x :: l).

(** The result of a computation with a function applied to its value. *)
Definition result_map {A B : Type} (f : A -> B) (r : result A) : result B :=
  match r with Ok a => Ok (f a) | Thrown e => Thrown e end.

(** A store with a third Today row whose order value is 1 as well. *)
Definition storeWithTies : Database :=
  mkDatabase
    [TaskRow.mk "task_5_call" "Call bank" 1 today high
                "2026-01-05T09:20:00.000Z" (Some "p1") None 1;
     taskRepository.taskToRow milk;
     taskRepository.taskToRow eggs;
     taskRepository.taskToRow report]
    [exampleProjectRow].

(** What [getAllTasks] reads from a database; nothing when it throws. *)
Definition readTasks (db : database.Db) : list Task :=
  match fst (taskRepository.getAllTasks db) with
  | Ok l => l
  | Thrown _ => []
  end.

(** The task that [addTask] builds. *)
Definition builtTask (newId now title : string) (category : Category)
    (options : option useTasks.AddOptions) (w : useTasks.World) : Task :=
  Task.mk newId title false category
    (match options with
     | Some o =>
         match useTasks.opt_priority o with Some p => p | None => medium end
     | None => medium
     end)
    now
    (match options with Some o => useTasks.opt_projectId o | None => None end)
    (match options with Some o => useTasks.opt_dueDate o | None => None end)
    (match options with Some o => useTasks.opt_dueTime o | None => None end)
    (match options with Some o => useTasks.opt_isRecurring o | None => None end)
    None
    (Some (Z.of_nat
             (List.length (inCategory category (useTasks.tasks w))))).

(** What [getAllProjects] reads from a database; nothing when it
    throws. *)
Definition readProjects (db : database.Db) : list Project :=
  match fst (projectRepository.getAllProjects db) with
  | Ok l => l
  | Thrown _ => []
  end.

(** [a] does not come before [b] in the binary order of texts. *)
Definition notBefore (a b : string) : Prop := String.ltb a b = false.

(** A store with three projects. *)
Definition storeWithProjects : Database :=
  mkDatabase
    [taskRepository.taskToRow milk]
    [projectRepository.projectToRow (nth 0 defaultProjects exampleProject);
     exampleProjectRow;
     projectRepository.projectToRow (nth 1 defaultProjects exampleProject)].

(** In relational mode the tasks table holds, row for row, the stored
    columns of the in-memory tasks. *)
Definition storeMirrorsMemory (w : useTasks.World) : Prop :=
  useTasks.useDb (useTasks.state w) = true
  /\ exists d : Database,
       useTasks.db w = Some d
       /\ tasks_table d
          = map taskRepository.taskToRow (useTasks.dbTasks (useTasks.state w)).

(** localStorage holding a copy of the milk task under the same id,
    between the two Today tasks, next to an empty relational store. *)
Definition milkAgain : Task :=
  Task.mk "task_1_milk" "Buy oat milk" false today low
          "2026-01-05T09:02:00.000Z" None None None None None (Some 2).

Definition duplicateIdWorld : useTasks.World :=
  useTasks.mkWorld (Some database.createTables)
                   (useTasks.mkState [milk; milkAgain; eggs] [] false).

(** The update that [linkTaskToProject] passes to [updateTask], and a task
    with another [projectId]. *)
Definition linkUpdate (projectId : option string) : TaskUpdates.t :=
  TaskUpdates.mk None None None None None None (Some projectId)
                 None None None None None.

Definition withProjectId (p : option string) (x : Task) : Task :=
  Task.mk (Task.id x) (Task.title x) (Task.completed x) (Task.category x)
          (Task.priority x) (Task.createdAt x) p (Task.dueDate x)
          (Task.dueTime x) (Task.isRecurring x) (Task.lastCompletedAt x)
          (Task.order x).

(** A project with another status. *)
Definition withStatus (s : ProjectStatus) (p : Project) : Project :=
  Project.mk (Project.id p) (Project.name p) (Project.description p)
             (Project.progress p) (Project.totalTasks p)
             (Project.completedTasks p) (Project.color p) s
             (Project.createdAt p) (Project.deadline p) (Project.tags p).

(** In relational mode the projects table holds, row for row, the
    in-memory projects. *)
Definition projectStoreMirrorsMemory (w : useProjects.World) : Prop :=
  useProjects.useDb (useProjects.state w) = true
  /\ exists d : Database,
       useProjects.db w = Some d
       /\ projects_table d
          = map projectRepository.projectToRow
                (useProjects.dbProjects (useProjects.state w)).

(** The project of Scenario B as an active project mirrored in the
    store. *)
Definition mirroredProjectWorld : useProjects.World :=
  useProjects.mkWorld
    (Some (mkDatabase []
             (map projectRepository.projectToRow
                  (exampleProject :: defaultProjects))))
    (useProjects.mkState [] (exampleProject :: defaultProjects) true).

(* ================================================================== *)
(** ** hooks/useProjectsDB.ts *)

(** The project hook that works on SQLite only: its repository calls are
    not wrapped in try/catch. *)
Module useProjectsDB.
Import database.

Record State := mkState {
  projects : list Project;
  isLoading : bool
}.

Record World := mkWorld {
  db : Db;
  state : State
}.

Definition projectRepo {A : Type} (m : M Db A) : M World A :=
  zoom db (fun d w => mkWorld d (state w)) m.

(** [setProjects] of [useState], with a value and with an updater. *)
Definition setProjectsTo (v : list Project) : M World unit :=
  modify (fun w => mkWorld (db w) (mkState v (isLoading (state w)))).

Definition setProjects (updater : list Project -> M World (list Project))
  : M World unit :=
  w <- get ;;
  v <- updater (projects (state w)) ;;
  setProjectsTo v.

Definition setIsLoading (b : bool) : M World unit :=
  modify (fun w => mkWorld (db w) (mkState (projects (state w)) b)).

Definition loadProjects : M World unit :=
  w <- get ;;
  if negb (isDatabaseInitialized (db w)) then ret tt
  else
    try_catch
      (allProjects <- projectRepo projectRepository.getAllProjects ;;
       setProjectsTo allProjects)
      (fun _ => ret tt).

(** The effect "Initial load". *)
Definition initialLoad : M World unit :=
  w <- get ;;
  if isDatabaseInitialized (db w)
  then loadProjects ;; setIsLoading false
  else ret tt.

Definition addProject (newId now : string) (name description : string)
    (options : option useProjects.AddOptions) : M World Project :=
  let newProject :=
    Project.mk newId name description 0 0 0
      (match options with
       | Some o =>
           match useProjects.opt_color o with Some c => c | None => slate end
       | None => slate
       end)
      active now
      (match options with
       | Some o => useProjects.opt_deadline o
       | None => None
       end)
      (match options with
       | Some o =>
           match useProjects.opt_tags o with Some l => l | None => [] end
       | None => []
       end) in
  projectRepo (projectRepository.insertProject newProject) ;;
  setProjects (fun prev => ret (prev ++ [newProject])) ;;
  ret newProject.

Definition updateProject (id : string) (updates : ProjectUpdates.t)
  : M World unit :=
  setProjects (fun prev =>
    let updated :=
      map (fun project =>
             if (Project.id project =? id)%string
             then spreadProject project updates
             else project)
          prev in
    match find_by (fun p => (Project.id p =? id)%string) updated with
    | Some updatedProject =>
        projectRepo (projectRepository.updateProject updatedProject)
    | None => ret tt
    end ;;
    ret updated).

Definition deleteProject (id : string) : M World unit :=
  projectRepo (projectRepository.deleteProject id) ;;
  setProjects (fun prev =>
    ret (filter (fun project => negb (Project.id project =? id)%string)
                prev)).

Definition updateProgress (id : string) (completedTasks totalTasks : Z)
  : M World unit :=
  let progress :=
    if 0 <? totalTasks
    then Math_round
           (Number_multiply
              (Number_divide (inject_Z completedTasks) (inject_Z totalTasks))
              (inject_Z 100))
    else 0 in
  let status := if progress =? 100 then completed else active in
  updateProject id
    (ProjectUpdates.mk None None None (Some progress) (Some totalTasks)
                       (Some completedTasks) None (Some status) None None
                       None).

Definition changeStatus (id : string) (status : ProjectStatus)
  : M World unit :=
  updateProject id
    (ProjectUpdates.mk None None None None None None None (Some status)
                       None None None).
End useProjectsDB.

(* ================================================================== *)
(** ** hooks/useTaskFilters.ts *)

Module useTaskFilters.

(** ['all' | 'overdue' | 'today' | 'week' | 'no-date'] *)
Inductive DateRange :=
| range_all | range_overdue | range_today | range_week | range_no_date.

Record TaskFilterState := mkFilters {
  project : option string;
  priority : option Priority;
  dateRange : DateRange
}.

Definition defaultFilters : TaskFilterState :=
  mkFilters None None range_all.

Definition Priority_eqb (a b : Priority) : bool :=
  match a, b with
  | low, low | medium, medium | high, high => true
  | _, _ => false
  end.

Definition setProjectFilter (projectId : option string)
    (prev : TaskFilterState) : TaskFilterState :=
  mkFilters projectId (priority prev) (dateRange prev).

Definition setPriorityFilter (p : option Priority) (prev : TaskFilterState)
  : TaskFilterState :=
  mkFilters (project prev) p (dateRange prev).

Definition setDateRangeFilter (r : DateRange) (prev : TaskFilterState)
  : TaskFilterState :=
  mkFilters (project prev) (priority prev) r.

Definition clearFilters (_ : TaskFilterState) : TaskFilterState :=
  defaultFilters.

Definition hasActiveFilters (filters : TaskFilterState) : bool :=
  match project filters with Some _ => true | None => false end
  || match priority filters with Some _ => true | None => false end
  || match dateRange filters with range_all => false | _ => true end.

(** The predicate of [applyFilters].  [diffDays s] stands for the number
    of days from today's midnight to the midnight of the due date [s],
    rounded up; it is [None] when the date does not parse (NaN, for which
    every comparison but [!==] is false). *)
Definition passes (diffDays : string -> option Z)
    (filters : TaskFilterState) (task : Task) : bool :=
  if match project filters with
     | Some fp =>
         match Task.projectId task with
         | Some p => negb (p =? fp)%string
         | None => true
         end
     | None => false
     end
  then false
  else if match priority filters with
          | Some fp => negb (Priority_eqb (Task.priority task) fp)
          | None => false
          end
  then false
  else
    match dateRange filters with
    | range_all => true
    | range_no_date => negb (truthy_string (Task.dueDate task))
    | r =>
        if negb (truthy_string (Task.dueDate task)) then false
        else
          match Task.dueDate task with
          | None => false
          | Some due =>
              match r, diffDays due with
              | range_overdue, Some n => negb (0 <=? n)
              | range_overdue, None => true
              | range_today, Some n => n =? 0
              | range_today, None => false
              | range_week, Some n => negb ((n <? 0) || (7 <? n))
              | range_week, None => true
              | _, _ => true
              end
          end
    end.

Definition applyFilters (diffDays : string -> option Z)
    (filters : TaskFilterState) (tasks : list Task) : list Task :=
  filter (passes diffDays filters) tasks.
End useTaskFilters.

(* ================================================================== *)
(** ** pages/TasksPage.tsx *)

Module TasksPage.

(** [todayTasks] of the task manager. *)
Definition todayTasks (w : useTasks.World) : list Task :=
  useTasks.getTasksByCategory today w.

(** [const filteredTodayTasks = applyFilters(todayTasks)], the list handed
    to the Today [TaskList]. *)
Definition filteredTodayTasks (diffDays : string -> option Z)
    (filters : useTaskFilters.TaskFilterState) (w : useTasks.World)
  : list Task :=
  useTaskFilters.applyFilters diffDays filters (todayTasks w).

(** [handleReorderToday]; the argument is the new order that the list
    component reports after a drag. *)
Definition handleReorderToday (tasks : list Task) : M useTasks.World unit :=
  useTasks.reorderTasks today tasks.
End TasksPage.

(** A world of the SQLite-only project hook over the example store. *)
Definition projectsDBWorld : useProjectsDB.World :=
  useProjectsDB.mkWorld (Some storeWithProjects)
                        (useProjectsDB.mkState [] true).

(** A due date table for the examples: days from today to the due
    date. *)
Definition exampleDiffDays (s : string) : option Z :=
  if (s =? "2026-01-04")%string then Some (-1)
  else if (s =? "2026-01-05")%string then Some 0
  else if (s =? "2026-01-09")%string then Some 4
  else if (s =? "2026-02-01")%string then Some 27
  else None.

(** Two more Today tasks, one due in four days for project p1, and a world
    that holds them with the milk task. *)
Definition invoice : Task :=
  Task.mk "task_7_invoice" "Send invoice" false today high
          "2026-01-05T09:30:00.000Z" (Some "p1") (Some "2026-01-09") None
          None None (Some 1).

Definition filterWorld : useTasks.World :=
  useTasks.mkWorld None (useTasks.mkState [milk; invoice; report] [] false).


(* ================================================================== *)
(** * Properties *)

(** ** The monad: a caught repository call never throws and touches only
    the database. *)

Lemma caught_zoom {S T : Type} (proj : T -> S) (inj : S -> T -> T)
    (m : M S unit) (t : T) :
  try_catch (zoom proj inj m) (fun _ => ret tt) t
  = (Ok tt, inj (snd (m (proj t))) t).
Proof.
  unfold try_catch, zoom, ret.
  destruct (m (proj t)) as [[[]|e] s']; reflexivity.
Qed.

(** ** [Math.round] *)

(** [Math_round x] is the integer [n] with [n - 1/2 <= x < n + 1/2]. *)
Lemma Math_round_spec (x : Q) :
  (inject_Z (Math_round x) - (1 # 2) <= x)%Q
  /\ (x < inject_Z (Math_round x) + (1 # 2))%Q.
Proof.
  unfold Math_round.
  pose proof (Qfloor_le (x + (1 # 2))) as Hle.
  pose proof (Qlt_floor (x + (1 # 2))) as Hlt.
  rewrite inject_Z_plus in Hlt.
  split.
  - apply (Qplus_le_l _ _ (1 # 2)).
    setoid_replace (inject_Z (Qfloor (x + (1 # 2))) - (1 # 2) + (1 # 2))%Q
      with (inject_Z (Qfloor (x + (1 # 2)))) by ring.
    exact Hle.
  - apply (Qplus_lt_l _ _ (1 # 2)).
    setoid_replace (inject_Z (Qfloor (x + (1 # 2))) + (1 # 2) + (1 # 2))%Q
      with (inject_Z (Qfloor (x + (1 # 2))) + inject_Z 1)%Q by ring.
    exact Hlt.
Qed.

(** ** Numbers: the rounding of a double operation *)

Section DoubleRounding.
Local Open Scope Q_scope.

Lemma two_neq_0 : ~ 2 == 0.
Proof. discriminate. Qed.

Lemma pow2_pos (e : Z) : 0 < 2 ^ e.
Proof. apply Qpower_0_lt. reflexivity. Qed.

Lemma pow2_succ (e : Z) : 2 ^ (e + 1) == 2 * 2 ^ e.
Proof. rewrite Qpower_plus by exact two_neq_0. simpl (2 ^ 1). ring. Qed.

Lemma pow2_inject (n : Z) : (0 <= n)%Z -> inject_Z (2 ^ n) == 2 ^ n.
Proof. intros H. rewrite Zpower_Qpower by exact H. reflexivity. Qed.

(** [Z.log2] brackets a positive integer between two powers of two. *)
Lemma log2_bounds (a : Z) :
  (0 < a)%Z -> 2 ^ Z.log2 a <= inject_Z a /\ inject_Z a < 2 * 2 ^ Z.log2 a.
Proof.
  intros Ha. destruct (Z.log2_spec a Ha) as [Hlo Hhi].
  pose proof (Z.log2_nonneg a) as Hn.
  rewrite <- pow2_succ, <- !pow2_inject by lia.
  rewrite <- Zle_Qle, <- Zlt_Qlt.
  replace (Z.log2 a + 1)%Z with (Z.succ (Z.log2 a)) by lia.
  split; assumption.
Qed.

(** [binade x] is the exponent of the power of two at or below [x]. *)
Lemma binade_spec (x : Q) :
  0 < x -> 2 ^ binade x <= x /\ x < 2 ^ (binade x + 1).
Proof.
  intros Hx. destruct x as [a b].
  assert (Ha : (0 < a)%Z).
  { unfold Qlt in Hx. simpl in Hx. lia. }
  unfold binade. cbn [Qnum Qden].
  destruct (log2_bounds a Ha) as [Ha1 Ha2].
  destruct (log2_bounds (Zpos b) eq_refl) as [Hb1 Hb2].
  set (la := Z.log2 a) in *. set (lb := Z.log2 (Zpos b)) in *.
  pose proof (pow2_pos la) as Pa. pose proof (pow2_pos lb) as Pb.
  assert (Hx' : a # b == inject_Z a / inject_Z (Zpos b)) by apply Qmake_Qdiv.
  assert (Hb0 : 0 < inject_Z (Zpos b)) by reflexivity.
  assert (He : 2 ^ (la - lb) == 2 ^ la / 2 ^ lb)
    by (apply Qpower_minus; exact two_neq_0).
  destruct (Qle_bool (2 ^ (la - lb)) (a # b)) eqn:E.
  - apply Qle_bool_iff in E. split; [exact E|].
    rewrite pow2_succ, He, Hx'.
    apply Qlt_shift_div_r; [exact Hb0|].
    apply Qlt_le_trans with (2 * 2 ^ la); [exact Ha2|].
    setoid_replace (2 * 2 ^ la) with (2 * (2 ^ la / 2 ^ lb) * 2 ^ lb)
      by (field; intro H; rewrite H in Pb; discriminate).
    apply Qmult_le_l; [|exact Hb1].
    apply Qmult_lt_0_compat; [reflexivity|].
    apply Qlt_shift_div_l; [exact Pb|]. rewrite Qmult_0_l. exact Pa.
  - assert (E' : a # b < 2 ^ (la - lb)).
    { apply Qnot_le_lt. intro H. apply Qle_bool_iff in H. congruence. }
    replace (la - lb - 1 + 1)%Z with (la - lb)%Z by lia.
    split; [|exact E'].
    assert (He1 : 2 * 2 ^ (la - lb - 1) == 2 ^ (la - lb)).
    { rewrite <- pow2_succ. replace (la - lb - 1 + 1)%Z with (la - lb)%Z by lia.
      reflexivity. }
    rewrite Hx'. apply Qle_shift_div_l; [exact Hb0|].
    apply Qle_trans with (2 ^ la); [|exact Ha1].
    apply Qle_trans with (2 ^ (la - lb - 1) * (2 * 2 ^ lb)).
    + apply Qmult_le_l; [apply pow2_pos|]. apply Qlt_le_weak. exact Hb2.
    + setoid_replace (2 ^ (la - lb - 1) * (2 * 2 ^ lb))
        with (2 * 2 ^ (la - lb - 1) * 2 ^ lb) by ring.
      rewrite He1, He. apply Qle_lteq. right. field.
      intro H; rewrite H in Pb; discriminate.
Qed.

(** Rounding to an integer moves a number by at most one half. *)
Lemma round_ties_even_spec (x : Q) :
  inject_Z (round_ties_even x) - (1 # 2) <= x
  /\ x <= inject_Z (round_ties_even x) + (1 # 2).
Proof.
  unfold round_ties_even.
  pose proof (Qfloor_le x) as Hlo. pose proof (Qlt_floor x) as Hhi.
  rewrite inject_Z_plus in Hhi. change (inject_Z 1) with 1 in Hhi.
  set (n := Qfloor x) in *.
  destruct (x - inject_Z n ?= 1 # 2) eqn:E.
  - apply Qeq_alt in E.
    destruct (Z.even n); [|rewrite inject_Z_plus; change (inject_Z 1) with 1];
      split; lra.
  - apply Qlt_alt in E. split; lra.
  - apply Qgt_alt in E. rewrite inject_Z_plus. change (inject_Z 1) with 1.
    split; lra.
Qed.

Lemma Qabs_of_pos (x : Q) : 0 < x -> Qabs x = x.
Proof.
  destruct x as [a b]. unfold Qlt. simpl. intros H.
  rewrite Z.abs_eq by lia. reflexivity.
Qed.

(** The smallest normal double is far below [2^-54]. *)
Lemma tiny_le : 2 ^ (-1022) <= 2 ^ (-54).
Proof. apply Qpower_le_compat_l; [lia | discriminate]. Qed.

(** Around a positive [x] in the normal range the doubles are spaced by
    at most [x / 2^52]. *)
Lemma ulp_spec (x : Q) :
  0 < x -> 2 ^ (-1022) <= x -> 0 < ulp x /\ ulp x * 2 ^ 52 <= x.
Proof.
  intros Hx Hn. unfold ulp. split; [apply pow2_pos|].
  rewrite (Qabs_of_pos x Hx).
  destruct (binade_spec x Hx) as [Hlo Hhi].
  assert (Hb : (-1022 < binade x + 1)%Z).
  { apply (Qpower_lt_compat_l_inv 2); [|reflexivity].
    apply Qle_lt_trans with x; assumption. }
  rewrite Z.max_l by lia.
  rewrite <- Qpower_plus by exact two_neq_0.
  replace (binade x - 52 + 52)%Z with (binade x) by lia. exact Hlo.
Qed.

(** The double nearest to a positive [x] of the normal range is within
    [x / 2^53] of it. *)
Lemma Number_of_error (x : Q) :
  0 < x -> 2 ^ (-1022) <= x ->
  (Number_of x - x) * 2 ^ 53 <= x /\ (x - Number_of x) * 2 ^ 53 <= x.
Proof.
  intros Hx Hn. unfold Number_of.
  destruct (Qeq_bool x 0) eqn:E.
  { apply Qeq_bool_iff in E. rewrite E in Hx. discriminate. }
  destruct (ulp_spec x Hx Hn) as [Hu Hu52].
  set (u := ulp x) in *.
  destruct (round_ties_even_spec (x / u)) as [Hlo Hhi].
  set (m := inject_Z (round_ties_even (x / u))) in *.
  assert (Hxu : x / u * u == x).
  { field. intro H. rewrite H in Hu. discriminate. }
  assert (H1 : (m - (1 # 2)) * u <= x).
  { apply Qle_trans with (x / u * u); [|rewrite Hxu; apply Qle_refl].
    apply Qmult_le_compat_r; [exact Hlo|]. apply Qlt_le_weak. exact Hu. }
  assert (H2 : x <= (m + (1 # 2)) * u).
  { apply Qle_trans with (x / u * u); [rewrite Hxu; apply Qle_refl|].
    apply Qmult_le_compat_r; [exact Hhi|]. apply Qlt_le_weak. exact Hu. }
  change (2 ^ 53) with (2 * 2 ^ 52).
  set (mu := m * u) in *.
  assert (H1' : mu - (1 # 2) * u <= x)
    by (setoid_replace (mu - (1 # 2) * u) with ((m - (1 # 2)) * u)
          by (unfold mu; ring); exact H1).
  assert (H2' : x <= mu + (1 # 2) * u)
    by (setoid_replace (mu + (1 # 2) * u) with ((m + (1 # 2)) * u)
          by (unfold mu; ring); exact H2).
  change (2 ^ 52) with 4503599627370496 in *.
  split; lra.
Qed.

Lemma Number_of_0 (x : Q) : x == 0 -> Number_of x = 0.
Proof.
  intros H. unfold Number_of.
  replace (Qeq_bool x 0) with true; [reflexivity|].
  symmetry. apply Qeq_bool_iff. exact H.
Qed.

End DoubleRounding.

(** ** Project manager *)

Section ProjectManager.
Import useProjects.

Lemma updateProject_run (id : string) (u : ProjectUpdates.t) (w : World) :
  fst (updateProject id u w) = Ok tt
  /\ projects (snd (updateProject id u w)) = updatedProjects id u (projects w)
  /\ useDb (state (snd (updateProject id u w))) = useDb (state w).
Proof.
  destruct w as [d [l t b]].
  unfold updateProject, setProjects, setLocalProjects, projects, bind, get.
  simpl. destruct b; simpl.
  - fold (updatedProjects id u t).
    destruct (find_by _ (updatedProjects id u t)) as [p|].
    + unfold projectRepo. rewrite caught_zoom. simpl. auto.
    + simpl. auto.
  - unfold try_catch, bind, get, ret. simpl. auto.
Qed.

Lemma deleteProject_run (id : string) (w : World) :
  fst (deleteProject id w) = Ok tt
  /\ projects (snd (deleteProject id w))
     = filter (fun project => negb (Project.id project =? id)%string)
              (projects w).
Proof.
  destruct w as [d [l t b]].
  unfold deleteProject, setProjects, setLocalProjects, projects, bind, get.
  simpl. destruct b; simpl.
  - unfold projectRepo. rewrite caught_zoom. simpl. auto.
  - unfold try_catch, bind, get, ret. simpl. auto.
Qed.

End ProjectManager.

Section ProgressRounding.
Local Open Scope Q_scope.

(** For counts below 2^44 the stored percentage is an integer nearest to
    the exact one: the two roundings of the double computation together
    move the product by less than the distance from a half-integer to the
    nearest other value of [100 * c / t]. *)
Lemma computeProgress_nearest (c t : Z) :
  (0 <= c < 2 ^ 44)%Z -> (0 < t < 2 ^ 53)%Z ->
  (2 * Z.abs (useProjects.computeProgress c t * t - 100 * c) <= t)%Z.
Proof.
  intros [Hc0 Hc] [Ht0 Ht]. unfold useProjects.computeProgress.
  replace (0 <? t)%Z with true by (symmetry; apply Z.ltb_lt; exact Ht0).
  unfold Number_multiply, Number_divide.
  destruct (Z.eq_dec c 0) as [->|Hc1].
  { rewrite (Number_of_0 (inject_Z 0 / inject_Z t)) by reflexivity.
    rewrite (Number_of_0 (0 * inject_Z 100)) by reflexivity.
    change (Math_round 0) with 0%Z. lia. }
  set (x := inject_Z c / inject_Z t).
  set (y1 := Number_of x).
  set (y2 := Number_of (y1 * inject_Z 100)).
  destruct (Math_round_spec y2) as [Plo Phi].
  set (P := Math_round y2) in *.
  assert (HT : 0 < inject_Z t) by (rewrite Zlt_Qlt in Ht0; exact Ht0).
  assert (HT53 : inject_Z t < 2 ^ 53).
  { rewrite Zlt_Qlt in Ht. exact Ht. }
  assert (HC1 : 1 <= inject_Z c).
  { change 1 with (inject_Z 1). rewrite <- Zle_Qle. lia. }
  assert (HC : inject_Z c < 2 ^ 44).
  { rewrite Zlt_Qlt in Hc. exact Hc. }
  assert (Hxt : x * inject_Z t == inject_Z c).
  { unfold x. field. intro H. rewrite H in HT. discriminate. }
  (* the quotient is in the normal range *)
  assert (Hx54 : 2 ^ (-54) <= x).
  { unfold x. apply Qle_shift_div_l; [exact HT|].
    change (2 ^ (-54)) with (1 # 18014398509481984).
    change (2 ^ 53) with 9007199254740992 in HT53. lra. }
  assert (Hx0 : 0 < x).
  { apply Qlt_le_trans with (2 ^ (-54)); [reflexivity | exact Hx54]. }
  destruct (Number_of_error x Hx0 (Qle_trans _ _ _ tiny_le Hx54))
    as [E1 E2].
  fold y1 in E1, E2.
  change (2 ^ 53) with 9007199254740992 in *.
  change (2 ^ 44) with 17592186044416 in *.
  change (2 ^ (-54)) with (1 # 18014398509481984) in *.
  change (inject_Z 100) with 100 in *.
  (* and so is the product *)
  assert (Hz54 : 2 ^ (-54) <= y1 * 100).
  { change (2 ^ (-54)) with (1 # 18014398509481984). lra. }
  assert (Hz0 : 0 < y1 * 100).
  { apply Qlt_le_trans with (2 ^ (-54)); [reflexivity | exact Hz54]. }
  destruct (Number_of_error (y1 * 100) Hz0 (Qle_trans _ _ _ tiny_le Hz54))
    as [E3 E4].
  fold y2 in E3, E4.
  change (2 ^ 53) with 9007199254740992 in *.
  (* everything scaled by t *)
  set (T := inject_Z t) in *. set (C := inject_Z c) in *.
  assert (M : forall a b : Q, a <= b -> a * T <= b * T).
  { intros a b H. apply Qmult_le_compat_r; [exact H | apply Qlt_le_weak, HT]. }
  apply M in E1, E2, E3, E4, Plo.
  assert (Phi' : y2 * T <= (inject_Z P + (1 # 2)) * T)
    by (apply M, Qlt_le_weak, Phi).
  set (X1 := y1 * T) in *. set (X2 := y2 * T) in *.
  assert (HPT : inject_Z P * T == inject_Z (P * t)).
  { unfold T. rewrite inject_Z_mult. reflexivity. }
  set (PT := inject_Z (P * t)) in *.
  assert (E1' : (X1 - C) * 9007199254740992 <= C).
  { setoid_replace ((X1 - C) * 9007199254740992)
      with ((y1 - x) * 9007199254740992 * T)
      by (unfold X1; rewrite <- Hxt; ring).
    rewrite <- Hxt. exact E1. }
  assert (E2' : (C - X1) * 9007199254740992 <= C).
  { setoid_replace ((C - X1) * 9007199254740992)
      with ((x - y1) * 9007199254740992 * T)
      by (unfold X1; rewrite <- Hxt; ring).
    rewrite <- Hxt. exact E2. }
  assert (E3' : (X2 - X1 * 100) * 9007199254740992 <= X1 * 100).
  { setoid_replace ((X2 - X1 * 100) * 9007199254740992)
      with ((y2 - y1 * 100) * 9007199254740992 * T)
      by (unfold X1, X2; ring).
    setoid_replace (X1 * 100) with (y1 * 100 * T) by (unfold X1; ring).
    exact E3. }
  assert (E4' : (X1 * 100 - X2) * 9007199254740992 <= X1 * 100).
  { setoid_replace ((X1 * 100 - X2) * 9007199254740992)
      with ((y1 * 100 - y2) * 9007199254740992 * T)
      by (unfold X1, X2; ring).
    setoid_replace (X1 * 100) with (y1 * 100 * T) by (unfold X1; ring).
    exact E4. }
  assert (Plo' : PT - (1 # 2) * T <= X2).
  { setoid_replace (PT - (1 # 2) * T) with ((inject_Z P - (1 # 2)) * T)
      by (rewrite <- HPT; ring). exact Plo. }
  assert (Phi'' : X2 <= PT + (1 # 2) * T).
  { setoid_replace (PT + (1 # 2) * T) with ((inject_Z P + (1 # 2)) * T)
      by (rewrite <- HPT; ring). exact Phi'. }
  assert (Hup : (2 * (P * t - 100 * c) <= t)%Z).
  { apply Z.le_ngt. intro Hgt.
    assert (HQ : 200 * C + T + 1 <= 2 * PT).
    { unfold C, T, PT. change 1 with (inject_Z 1).
      change 2 with (inject_Z 2). change 200 with (inject_Z 200).
      rewrite <- !inject_Z_mult, <- !inject_Z_plus, <- Zle_Qle. lia. }
    lra. }
  assert (Hdn : (2 * (100 * c - P * t) <= t)%Z).
  { apply Z.le_ngt. intro Hgt.
    assert (HQ : 2 * PT + T + 1 <= 200 * C).
    { unfold C, T, PT. change 1 with (inject_Z 1).
      change 2 with (inject_Z 2). change 200 with (inject_Z 200).
      rewrite <- !inject_Z_mult, <- !inject_Z_plus, <- Zle_Qle. lia. }
    lra. }
  lia.
Qed.

End ProgressRounding.

Section ProjectProgress.
Import useProjects.

Variables (id : string) (completedTasks totalTasks : Z) (w : World).

Let w' : World := snd (updateProgress id completedTasks totalTasks w).

Lemma updateProgress_run :
  fst (updateProgress id completedTasks totalTasks w) = Ok tt
  /\ projects w'
     = updatedProjects id
         (ProjectUpdates.mk None None None
            (Some (computeProgress completedTasks totalTasks))
            (Some totalTasks) (Some completedTasks) None
            (Some (if computeProgress completedTasks totalTasks =? 100
                   then completed else active))
            None None None)
         (projects w).
Proof.
  unfold w', updateProgress.
  destruct (updateProject_run id
              (ProjectUpdates.mk None None None
                 (Some (computeProgress completedTasks totalTasks))
                 (Some totalTasks) (Some completedTasks) None
                 (Some (if computeProgress completedTasks totalTasks =? 100
                        then completed else active))
                 None None None) w) as (H1 & H2 & _).
  split; assumption.
Qed.

(** The project found at position [i] with the given id is, after
    [updateProgress], the same project with the four derived fields
    replaced. *)
Lemma updateProgress_nth (i : nat) (p : Project) :
  nth_error (projects w) i = Some p ->
  Project.id p = id ->
  nth_error (projects w') i
  = Some (Project.mk (Project.id p) (Project.name p) (Project.description p)
            (computeProgress completedTasks totalTasks)
            totalTasks completedTasks (Project.color p)
            (if computeProgress completedTasks totalTasks =? 100
             then completed else active)
            (Project.createdAt p) (Project.deadline p) (Project.tags p)).
Proof.
  intros Hnth Hid.
  destruct updateProgress_run as [_ ->].
  unfold updatedProjects. rewrite nth_error_map, Hnth. simpl.
  replace (Project.id p =? id)%string with true
    by (symmetry; apply String.eqb_eq; exact Hid).
  reflexivity.
Qed.


(** C5. For every call [updateProgress(id, c, t)] on a project present in
    the collection, the resulting status is [completed] if and only if the
    computed progress is 100 and [active] otherwise; it is never
    [on-hold], whatever the status was before. *)
Theorem updateProgress_status (i : nat) (p : Project) :
  nth_error (projects w) i = Some p ->
  Project.id p = id ->
  exists p' : Project,
    nth_error (projects w') i = Some p'
    /\ Project.progress p' = computeProgress completedTasks totalTasks
    /\ (Project.status p' = completed <-> Project.progress p' = 100)
    /\ (Project.progress p' <> 100 -> Project.status p' = active)
    /\ Project.status p' <> on_hold.
Proof.
  intros Hnth Hid.
  eexists. split; [apply (updateProgress_nth i p Hnth Hid)|].
  simpl. split; [reflexivity|].
  destruct (computeProgress completedTasks totalTasks =? 100) eqn:E.
  - apply Z.eqb_eq in E. repeat split; try congruence.
  - apply Z.eqb_neq in E. repeat split; try congruence.
Qed.

End ProjectProgress.


Lemma updateProgress_status_witness :
  nth_error (useProjects.projects exampleProjectWorld) 0 = Some exampleProject
  /\ Project.status exampleProject = on_hold
  /\ exists p' : Project,
       nth_error
         (useProjects.projects
            (snd (useProjects.updateProgress "p1" 1 4 exampleProjectWorld))) 0
       = Some p'
       /\ Project.progress p' = useProjects.computeProgress 1 4
       /\ (Project.status p' = completed <-> Project.progress p' = 100)
       /\ (Project.progress p' <> 100 -> Project.status p' = active)
       /\ Project.status p' <> on_hold.
Proof.
  split; [reflexivity|]. split; [reflexivity|].
  apply (updateProgress_status "p1" 1 4 exampleProjectWorld 0 exampleProject);
    reflexivity.
Defined.

(** ** Task manager: what each operation does to the world *)

Section TaskManagerRuns.
Import useTasks.

Lemma tasks_mapTasks (f : list Task -> list Task) (w : World) :
  tasks (mapTasks f w) = f (tasks w).
Proof.
  unfold tasks, mapTasks. simpl. destruct (useDb (state w)); reflexivity.
Qed.

Lemma db_mapTasks (f : list Task -> list Task) (w : World) :
  db (mapTasks f w) = db w.
Proof. reflexivity. Qed.

Lemma tasks_withDb (d : database.Db) (w : World) : tasks (withDb d w) = tasks w.
Proof. reflexivity. Qed.

Lemma setTasks_pure (f : list Task -> list Task) (w : World) :
  setTasks (fun prev => ret (f prev)) w = (Ok tt, mapTasks f w).
Proof.
  destruct w as [d [l t b]].
  unfold setTasks, setLocalTasks, mapTasks, try_catch, bind, get, ret,
    setDbTasks, setStoredValue, modify.
  simpl. destruct b; reflexivity.
Qed.

(** A repository call guarded by [if (useDb) { try { ... } catch { } }]. *)
Lemma guarded_repo (m : M database.Db unit) (w : World) :
  (if useDb (state w)
   then try_catch (taskRepo m) (fun _ => ret tt)
   else ret tt) w
  = (Ok tt, withDb (dbAfter m w) w).
Proof.
  unfold dbAfter, withDb. destruct (useDb (state w)).
  - unfold taskRepo. rewrite caught_zoom. reflexivity.
  - destruct w. reflexivity.
Qed.

Lemma toggleTask_run (now id : string) (w : World) :
  toggleTask now id w
  = (Ok tt,
     mapTasks (map (toggled now id))
              (withDb (dbAfter (taskRepository.toggleTask id) w) w)).
Proof.
  unfold toggleTask, bind at 1, get.
  unfold bind at 1. rewrite guarded_repo.
  apply (setTasks_pure (map (toggled now id))).
Qed.

Lemma deleteTask_run (id : string) (w : World) :
  deleteTask id w
  = (Ok tt,
     mapTasks (filter (fun task => negb (Task.id task =? id)%string))
              (withDb (dbAfter (taskRepository.deleteTask id) w) w)).
Proof.
  unfold deleteTask, bind at 1, get.
  unfold bind at 1. rewrite guarded_repo.
  apply (setTasks_pure (filter (fun task => negb (Task.id task =? id)%string))).
Qed.

Lemma reorderTasks_run (category : Category) (reorderedTasks : list Task)
    (w : World) :
  reorderTasks category reorderedTasks w
  = (Ok tt,
     mapTasks
       (fun prev =>
          filter (fun t => negb (Category_eqb (Task.category t) category)) prev
          ++ withIndexOrder 0 reorderedTasks)
       (withDb
          (dbAfter (taskRepository.updateTaskOrder category
                      (map Task.id reorderedTasks)) w)
          w)).
Proof.
  unfold reorderTasks, bind at 1, get.
  unfold bind at 1. rewrite guarded_repo.
  apply (setTasks_pure
           (fun prev =>
              filter (fun t => negb (Category_eqb (Task.category t) category))
                     prev
              ++ withIndexOrder 0 reorderedTasks)).
Qed.

Lemma updateTask_run (id : string) (u : TaskUpdates.t) (w : World) :
  fst (updateTask id u w) = Ok tt
  /\ tasks (snd (updateTask id u w)) = updatedTasks id u (tasks w)
  /\ useDb (state (snd (updateTask id u w))) = useDb (state w)
  /\ (useDb (state w) = false ->
      snd (updateTask id u w) = mapTasks (updatedTasks id u) w)
  /\ (find_by (fun t => (Task.id t =? id)%string) (updatedTasks id u (tasks w))
      = None ->
      snd (updateTask id u w) = mapTasks (updatedTasks id u) w).
Proof.
  destruct w as [d [l t b]].
  unfold updateTask, setTasks, setLocalTasks, tasks, mapTasks, bind, get.
  simpl. destruct b; simpl.
  - fold (updatedTasks id u t).
    destruct (find_by _ (updatedTasks id u t)) as [p|].
    + unfold taskRepo. rewrite caught_zoom. simpl.
      repeat split; try reflexivity; discriminate.
    + simpl. repeat split; reflexivity.
  - unfold try_catch, bind, get, ret. simpl. repeat split; reflexivity.
Qed.

Lemma resetRecurringEffect_run (toDateString : string -> string)
    (today : string) (w : World) :
  resetRecurringEffect toDateString today w
  = (Ok tt,
     if (0 <? List.length
                (filter (needsReset toDateString today) (tasks w)))%nat
     then mapTasks
            (map (resetIfListed
                    (filter (needsReset toDateString today) (tasks w))))
            w
     else w).
Proof.
  unfold resetRecurringEffect, bind at 1, get.
  destruct (0 <? List.length _)%nat; [|reflexivity].
  apply (setTasks_pure
           (map (resetIfListed
                   (filter (needsReset toDateString today) (tasks w))))).
Qed.

End TaskManagerRuns.

(** ** Operations on an unknown id *)

Lemma updatedTasks_unknown (id : string) (u : TaskUpdates.t) (l : list Task) :
  ~ In id (map Task.id l) -> updatedTasks id u l = l.
Proof.
  induction l as [|t l IH]; simpl; intros H; [reflexivity|].
  destruct (Task.id t =? id)%string eqn:E.
  - apply String.eqb_eq in E. tauto.
  - rewrite IH by tauto. reflexivity.
Qed.

Lemma filter_unknown_task (id : string) (l : list Task) :
  ~ In id (map Task.id l) ->
  filter (fun task => negb (Task.id task =? id)%string) l = l.
Proof.
  induction l as [|t l IH]; simpl; intros H; [reflexivity|].
  destruct (Task.id t =? id)%string eqn:E.
  - apply String.eqb_eq in E. tauto.
  - simpl. rewrite IH by tauto. reflexivity.
Qed.

Lemma find_unknown_task (id : string) (l : list Task) :
  ~ In id (map Task.id l) ->
  find_by (fun t => (Task.id t =? id)%string) l = None.
Proof.
  induction l as [|t l IH]; simpl; intros H; [reflexivity|].
  destruct (Task.id t =? id)%string eqn:E.
  - apply String.eqb_eq in E. tauto.
  - apply IH. tauto.
Qed.

Lemma updatedProjects_unknown (id : string) (u : ProjectUpdates.t)
    (l : list Project) :
  ~ In id (map Project.id l) -> updatedProjects id u l = l.
Proof.
  induction l as [|t l IH]; simpl; intros H; [reflexivity|].
  destruct (Project.id t =? id)%string eqn:E.
  - apply String.eqb_eq in E. tauto.
  - rewrite IH by tauto. reflexivity.
Qed.

Lemma filter_unknown_project (id : string) (l : list Project) :
  ~ In id (map Project.id l) ->
  filter (fun project => negb (Project.id project =? id)%string) l = l.
Proof.
  induction l as [|t l IH]; simpl; intros H; [reflexivity|].
  destruct (Project.id t =? id)%string eqn:E.
  - apply String.eqb_eq in E. tauto.
  - simpl. rewrite IH by tauto. reflexivity.
Qed.

Lemma find_unknown_project (id : string) (l : list Project) :
  ~ In id (map Project.id l) ->
  find_by (fun p => (Project.id p =? id)%string) l = None.
Proof.
  induction l as [|t l IH]; simpl; intros H; [reflexivity|].
  destruct (Project.id t =? id)%string eqn:E.
  - apply String.eqb_eq in E. tauto.
  - apply IH. tauto.
Qed.

Lemma state_mapTasks_fixed (f : list Task -> list Task) (w : useTasks.World) :
  f (useTasks.tasks w) = useTasks.tasks w ->
  useTasks.state (mapTasks f w) = useTasks.state w.
Proof.
  destruct w as [d [l t b]]. unfold useTasks.tasks, mapTasks. simpl.
  destruct b; intros ->; reflexivity.
Qed.

Lemma updateProject_unknown (id : string) (u : ProjectUpdates.t)
    (w : useProjects.World) :
  ~ In id (map Project.id (useProjects.projects w)) ->
  useProjects.updateProject id u w = (Ok tt, w).
Proof.
  destruct w as [d [l t b]].
  unfold useProjects.updateProject, useProjects.setProjects,
    useProjects.setLocalProjects, useProjects.projects, bind, get.
  simpl. destruct b; simpl; intros H.
  - fold (updatedProjects id u t). rewrite (updatedProjects_unknown id u t H).
    rewrite (find_unknown_project id t H). reflexivity.
  - unfold try_catch, bind, get, ret. simpl.
    fold (updatedProjects id u l). rewrite (updatedProjects_unknown id u l H).
    reflexivity.
Qed.

Lemma deleteProject_unknown (id : string) (w : useProjects.World) :
  ~ In id (map Project.id (useProjects.projects w)) ->
  fst (useProjects.deleteProject id w) = Ok tt
  /\ useProjects.state (snd (useProjects.deleteProject id w))
     = useProjects.state w.
Proof.
  destruct w as [d [l t b]].
  unfold useProjects.deleteProject, useProjects.setProjects,
    useProjects.setLocalProjects, useProjects.projects, bind, get.
  simpl. destruct b; simpl; intros H.
  - unfold useProjects.projectRepo. rewrite caught_zoom. simpl.
    rewrite (filter_unknown_project id t H). auto.
  - unfold try_catch, bind, get, ret. simpl.
    rewrite (filter_unknown_project id l H). auto.
Qed.

(** C9. For an id that is not in the collection, [update(id, fields)] and
    [remove(id)] return normally and leave the whole in-memory state of
    the manager as it was; this holds for the task manager and for the
    project manager. *)
Theorem update_remove_unknown_id
    (id : string) (ut : TaskUpdates.t) (up : ProjectUpdates.t)
    (wt : useTasks.World) (wp : useProjects.World) :
  (~ In id (map Task.id (useTasks.tasks wt)) ->
     fst (useTasks.updateTask id ut wt) = Ok tt
     /\ useTasks.state (snd (useTasks.updateTask id ut wt))
        = useTasks.state wt
     /\ fst (useTasks.deleteTask id wt) = Ok tt
     /\ useTasks.state (snd (useTasks.deleteTask id wt)) = useTasks.state wt)
  /\ (~ In id (map Project.id (useProjects.projects wp)) ->
        fst (useProjects.updateProject id up wp) = Ok tt
        /\ useProjects.state (snd (useProjects.updateProject id up wp))
           = useProjects.state wp
        /\ fst (useProjects.deleteProject id wp) = Ok tt
        /\ useProjects.state (snd (useProjects.deleteProject id wp))
           = useProjects.state wp).
Proof.
  split; intros H.
  - destruct (updateTask_run id ut wt) as (Hok & _ & _ & _ & Hnone).
    split; [exact Hok|]. split.
    + rewrite Hnone.
      * apply state_mapTasks_fixed, updatedTasks_unknown, H.
      * rewrite (updatedTasks_unknown id ut _ H). apply find_unknown_task, H.
    + rewrite deleteTask_run. split; [reflexivity|].
      cbv beta iota delta [snd].
      transitivity
        (useTasks.state
           (withDb (dbAfter (taskRepository.deleteTask id) wt) wt));
        [|reflexivity].
      apply state_mapTasks_fixed.
      rewrite tasks_withDb. apply filter_unknown_task, H.
  - rewrite (updateProject_unknown id up wp H). simpl.
    split; [reflexivity|]. split; [reflexivity|].
    apply deleteProject_unknown, H.
Qed.

Lemma update_remove_unknown_id_witness :
  (~ In "task_9_none" (map Task.id (useTasks.tasks localWorld)))
  /\ (~ In "task_9_none" (map Project.id (useProjects.projects exampleProjectWorld)))
  /\ useTasks.state
       (snd (useTasks.updateTask "task_9_none" TaskUpdates.empty localWorld))
     = useTasks.state localWorld
  /\ useTasks.state (snd (useTasks.deleteTask "task_9_none" localWorld))
     = useTasks.state localWorld
  /\ useProjects.state
       (snd (useProjects.deleteProject "task_9_none" exampleProjectWorld))
     = useProjects.state exampleProjectWorld.
Proof.
  assert (Ht : ~ In "task_9_none" (map Task.id (useTasks.tasks localWorld))).
  { simpl. intros [H|[H|[]]]; discriminate H. }
  assert (Hp : ~ In "task_9_none"
                 (map Project.id (useProjects.projects exampleProjectWorld))).
  { simpl. intros [H|[]]; discriminate H. }
  destruct (update_remove_unknown_id "task_9_none" TaskUpdates.empty
              ProjectUpdates.empty localWorld exampleProjectWorld)
    as [T P].
  destruct (T Ht) as (_ & T2 & _ & T4).
  destruct (P Hp) as (_ & _ & _ & P4).
  repeat split; assumption.
Defined.

(** ** Toggling a task *)

Section Toggle.
Import useTasks.

(** C8. For every task id present in the collection, [toggle(id)] flips
    the task's [completed] flag; a recurring task that becomes completed
    gets [lastCompletedAt] set to the current timestamp, and a task that
    becomes incomplete keeps its [lastCompletedAt]. *)
Theorem toggleTask_flips (now id : string) (w : World) (i : nat) (t : Task) :
  nth_error (tasks w) i = Some t ->
  Task.id t = id ->
  fst (toggleTask now id w) = Ok tt
  /\ exists t' : Task,
       nth_error (tasks (snd (toggleTask now id w))) i = Some t'
       /\ Task.id t' = id
       /\ Task.completed t' = negb (Task.completed t)
       /\ (Task.isRecurring t = Some true -> Task.completed t = false ->
           Task.lastCompletedAt t' = Some now)
       /\ (Task.completed t = true ->
           Task.lastCompletedAt t' = Task.lastCompletedAt t).
Proof.
  intros Hnth Hid. rewrite toggleTask_run. split; [reflexivity|].
  exists (toggled now id t).
  cbv beta iota delta [snd].
  rewrite tasks_mapTasks, tasks_withDb, nth_error_map, Hnth.
  split; [reflexivity|].
  unfold toggled.
  replace (Task.id t =? id)%string with true
    by (symmetry; apply String.eqb_eq; exact Hid).
  simpl. split; [exact Hid|]. split; [reflexivity|]. split.
  - intros -> ->. reflexivity.
  - intros ->. simpl. rewrite andb_false_r. reflexivity.
Qed.

Lemma toggled_twice (now1 now2 id : string) (t : Task) :
  Task.id t <> id \/ truthy_bool (Task.isRecurring t) = false ->
  toggled now2 id (toggled now1 id t) = t.
Proof.
  intros H. unfold toggled.
  destruct (Task.id t =? id)%string eqn:E; simpl.
  - destruct H as [H|H]; [apply String.eqb_eq in E; contradiction|].
    rewrite E. simpl. rewrite H. simpl. rewrite negb_involutive.
    destruct t; reflexivity.
  - rewrite E. reflexivity.
Qed.

Lemma repo_toggleTask_run (id : string) (d : database.Db) :
  snd (taskRepository.toggleTask id d)
  = option_map (taskRepository.on_tasks (map (toggledRow id))) d.
Proof. destruct d as [d|]; reflexivity. Qed.

Lemma Boolean_sql_not_sql_not (z : Z) : Boolean (sql_not (sql_not z)) = Boolean z.
Proof. unfold Boolean, sql_not. destruct (z =? 0) eqn:E; reflexivity. Qed.

Lemma toggledRow_twice_view (id : string) (x : TaskRow.t) :
  taskRepository.rowToTask (toggledRow id (toggledRow id x))
  = taskRepository.rowToTask x.
Proof.
  unfold toggledRow.
  destruct (TaskRow.id x =? id)%string eqn:E; simpl; rewrite E;
    [|reflexivity].
  unfold taskRepository.rowToTask. simpl.
  rewrite Boolean_sql_not_sql_not. reflexivity.
Qed.

Lemma toggledRow_task_order (id : string) (x : TaskRow.t) :
  TaskRow.task_order (toggledRow id x) = TaskRow.task_order x.
Proof. unfold toggledRow. destruct (_ =? _)%string; reflexivity. Qed.

End Toggle.

(** Sorting commutes with a map that keeps the key. *)
Lemma insert_by_map {A : Type} (key : A -> Z) (f : A -> A) (x : A)
    (l : list A) :
  (forall y, key (f y) = key y) ->
  insert_by key (f x) (map f l) = map f (insert_by key x l).
Proof.
  intros Hk. induction l as [|y l IH]; simpl; [reflexivity|].
  rewrite !Hk. destruct (key y <? key x); simpl; [|reflexivity].
  rewrite IH. reflexivity.
Qed.

Lemma sort_by_map {A : Type} (key : A -> Z) (f : A -> A) (l : list A) :
  (forall y, key (f y) = key y) ->
  sort_by key (map f l) = map f (sort_by key l).
Proof.
  intros Hk. induction l as [|x l IH]; simpl; [reflexivity|].
  rewrite IH. apply insert_by_map, Hk.
Qed.

(** Two toggles leave what [getAllTasks] reads from the table as it was. *)
Lemma getAllTasks_toggled_twice (id : string) (d : database.Db) :
  fst (taskRepository.getAllTasks
         (option_map (taskRepository.on_tasks (map (toggledRow id)))
            (option_map (taskRepository.on_tasks (map (toggledRow id))) d)))
  = fst (taskRepository.getAllTasks d).
Proof.
  destruct d as [d|]; [|reflexivity].
  unfold taskRepository.getAllTasks, bind, ret. simpl.
  rewrite map_map.
  rewrite (sort_by_map TaskRow.task_order
             (fun x => toggledRow id (toggledRow id x))).
  - rewrite map_map.
    f_equal. apply map_ext. intros x. apply toggledRow_twice_view.
  - intros y. rewrite !toggledRow_task_order. reflexivity.
Qed.

(** C10. Toggling twice restores every task that is not recurring, and
    every task with another id, to exactly its original value; the tasks
    read back from the relational store are the same as before as well. *)
Theorem toggleTask_twice (now1 now2 id : string) (w : useTasks.World)
    (i : nat) (t : Task) :
  nth_error (useTasks.tasks w) i = Some t ->
  Task.id t <> id \/ truthy_bool (Task.isRecurring t) = false ->
  nth_error
    (useTasks.tasks
       (snd (useTasks.toggleTask now2 id
               (snd (useTasks.toggleTask now1 id w))))) i
  = Some t
  /\ fst (taskRepository.getAllTasks
            (useTasks.db
               (snd (useTasks.toggleTask now2 id
                       (snd (useTasks.toggleTask now1 id w))))))
     = fst (taskRepository.getAllTasks (useTasks.db w)).
Proof.
  intros Hnth Hrec. rewrite (toggleTask_run now1 id w).
  cbv beta iota delta [snd]. rewrite toggleTask_run.
  cbv beta iota delta [snd]. split.
  - rewrite tasks_mapTasks, tasks_withDb, tasks_mapTasks, tasks_withDb.
    rewrite map_map, nth_error_map, Hnth. simpl.
    rewrite (toggled_twice now1 now2 id t Hrec). reflexivity.
  - destruct w as [d [l dt b]]. unfold dbAfter, withDb, mapTasks. simpl.
    destruct b; simpl; [|reflexivity].
    rewrite !repo_toggleTask_run. apply getAllTasks_toggled_twice.
Qed.

Lemma toggleTask_flips_witness :
  nth_error (useTasks.tasks recurringWorld) 0 = Some standup
  /\ exists t' : Task,
       nth_error
         (useTasks.tasks
            (snd (useTasks.toggleTask "2026-01-05T09:40:00.000Z"
                    "task_3_standup" recurringWorld))) 0
       = Some t'
       /\ Task.completed t' = true
       /\ Task.lastCompletedAt t' = Some "2026-01-05T09:40:00.000Z".
Proof.
  split; [reflexivity|].
  destruct (toggleTask_flips "2026-01-05T09:40:00.000Z" "task_3_standup"
              recurringWorld 0 standup eq_refl eq_refl)
    as (_ & t' & Hn & _ & Hc & Hl & _).
  exists t'. split; [exact Hn|]. split; [exact Hc|].
  apply Hl; reflexivity.
Defined.

Lemma toggleTask_twice_witness :
  nth_error (useTasks.tasks relationalWorld) 1 = Some eggs
  /\ truthy_bool (Task.isRecurring eggs) = false
  /\ nth_error
       (useTasks.tasks
          (snd (useTasks.toggleTask "2026-01-05T11:00:00.000Z" "task_2_eggs"
                  (snd (useTasks.toggleTask "2026-01-05T10:00:00.000Z"
                          "task_2_eggs" relationalWorld))))) 1
     = Some eggs.
Proof.
  split; [reflexivity|]. split; [reflexivity|].
  apply (toggleTask_twice "2026-01-05T10:00:00.000Z"
           "2026-01-05T11:00:00.000Z" "task_2_eggs" relationalWorld 1 eggs
           eq_refl).
  right. reflexivity.
Defined.

(** ** The daily reset of recurring tasks *)

Section RecurringReset.
Import useTasks.

Variables (toDateString : string -> string) (today : string).

Lemma needsReset_with_completed_false (t : Task) :
  needsReset toDateString today (Task.with_completed false t) = false.
Proof. unfold needsReset. simpl. rewrite orb_true_r. reflexivity. Qed.

Lemma needsReset_completed (t : Task) :
  needsReset toDateString today t = true ->
  Task.completed t = true /\ truthy_bool (Task.isRecurring t) = true.
Proof.
  unfold needsReset.
  destruct (truthy_bool (Task.isRecurring t)), (Task.completed t); simpl;
    intros H; try discriminate H; auto.
Qed.

(** No task of the swept list asks for a reset any more. *)
Lemma needsReset_after_reset (l : list Task) (t : Task) :
  In t l ->
  needsReset toDateString today
    (resetIfListed (filter (needsReset toDateString today) l) t) = false.
Proof.
  intros Hin. unfold resetIfListed, find_by.
  destruct (find _ _) eqn:F.
  - apply needsReset_with_completed_false.
  - destruct (needsReset toDateString today t) eqn:N; [|reflexivity].
    assert (Ht : In t (filter (needsReset toDateString today) l))
      by (apply filter_In; split; assumption).
    pose proof (find_none _ _ F t Ht) as Hf. simpl in Hf.
    rewrite String.eqb_refl in Hf. discriminate Hf.
Qed.

Lemma filter_map_none {A : Type} (p : A -> bool) (f : A -> A) (l : list A) :
  (forall x, In x l -> p (f x) = false) -> filter p (map f l) = [].
Proof.
  induction l as [|x l IH]; simpl; intros H; [reflexivity|].
  rewrite (H x) by auto. apply IH. intros y Hy. apply H. auto.
Qed.

Lemma sweep_leaves_nothing_to_reset (l : list Task) :
  filter (needsReset toDateString today)
         (map (resetIfListed (filter (needsReset toDateString today) l)) l)
  = [].
Proof. apply filter_map_none. intros x Hx. apply needsReset_after_reset, Hx. Qed.

(** The sweep resets, in memory, every task it selects. *)
Lemma sweep_resets_in_memory (w : World) (i : nat) (t : Task) :
  nth_error (tasks w) i = Some t ->
  needsReset toDateString today t = true ->
  nth_error (tasks (snd (resetRecurringEffect toDateString today w))) i
  = Some (Task.with_completed false t).
Proof.
  intros Hnth Hneed. rewrite resetRecurringEffect_run.
  cbv beta iota delta [snd].
  assert (Hin : In t (filter (needsReset toDateString today) (tasks w))).
  { apply filter_In. split; [|exact Hneed]. eapply nth_error_In, Hnth. }
  assert (Hlen : (0 <? List.length
                         (filter (needsReset toDateString today) (tasks w)))%nat
                 = true).
  { apply Nat.ltb_lt.
    destruct (filter (needsReset toDateString today) (tasks w));
      [contradiction | simpl; lia]. }
  rewrite Hlen, tasks_mapTasks, nth_error_map, Hnth. simpl.
  unfold resetIfListed, find_by.
  destruct (find _ _) eqn:E; [reflexivity|].
  pose proof (find_none _ _ E t Hin) as Hf. simpl in Hf.
  rewrite String.eqb_refl in Hf. discriminate Hf.
Qed.

(** The sweep never writes to the relational store. *)
Lemma sweep_keeps_database (w : World) :
  db (snd (resetRecurringEffect toDateString today w)) = db w.
Proof.
  rewrite resetRecurringEffect_run. cbv beta iota delta [snd].
  destruct (0 <? _)%nat; reflexivity.
Qed.

(** C6. Running the reset sweep twice on the same day: the second run
    returns normally and changes nothing. *)
Theorem resetRecurringEffect_idempotent (w : World) :
  resetRecurringEffect toDateString today
    (snd (resetRecurringEffect toDateString today w))
  = (Ok tt, snd (resetRecurringEffect toDateString today w)).
Proof.
  rewrite (resetRecurringEffect_run toDateString today w).
  cbv beta iota delta [snd].
  destruct (0 <? List.length
                   (filter (needsReset toDateString today) (tasks w)))%nat
    eqn:E.
  - rewrite resetRecurringEffect_run, tasks_mapTasks.
    rewrite sweep_leaves_nothing_to_reset. reflexivity.
  - rewrite resetRecurringEffect_run, E. reflexivity.
Qed.

End RecurringReset.

(** C2. In relational mode the reset sweep is not written to the store:
    a recurring task completed on 5 January is reset in memory by the
    sweep of 6 January, while the row read back by [getAllTasks] is still
    completed. *)
Theorem sweep_not_persisted :
  useTasks.tasks afterToggle = [standupDone]
  /\ useTasks.needsReset isoDay "2026-01-06" standupDone = true
  /\ map Task.completed (useTasks.tasks afterSweep) = [false]
  /\ useTasks.db afterSweep = useTasks.db afterToggle
  /\ match fst (taskRepository.getAllTasks (useTasks.db afterSweep)) with
     | Ok stored => map Task.completed stored = [true]
     | Thrown _ => False
     end.
Proof. vm_compute. repeat split; reflexivity. Qed.

(** ** Reading back what was inserted *)

Lemma insert_by_In {A : Type} (key : A -> Z) (x y : A) (l : list A) :
  In y (insert_by key x l) <-> y = x \/ In y l.
Proof.
  induction l as [|z l IH]; simpl.
  - intuition congruence.
  - destruct (key z <? key x); simpl; [|intuition congruence].
    rewrite IH. intuition congruence.
Qed.

Lemma sort_by_In {A : Type} (key : A -> Z) (y : A) (l : list A) :
  In y (sort_by key l) <-> In y l.
Proof.
  induction l as [|x l IH]; simpl; [tauto|].
  rewrite insert_by_In, IH. intuition congruence.
Qed.

Lemma insert_by_length {A : Type} (key : A -> Z) (x : A) (l : list A) :
  List.length (insert_by key x l) = S (List.length l).
Proof.
  induction l as [|z l IH]; simpl; [reflexivity|].
  destruct (key z <? key x); simpl; [|reflexivity]. rewrite IH. reflexivity.
Qed.

Lemma sort_by_length {A : Type} (key : A -> Z) (l : list A) :
  List.length (sort_by key l) = List.length l.
Proof.
  induction l as [|x l IH]; simpl; [reflexivity|].
  rewrite insert_by_length, IH. reflexivity.
Qed.

Lemma existsb_row_id (id : string) (rows : list TaskRow.t) :
  ~ In id (map TaskRow.id rows) ->
  existsb (fun x => (TaskRow.id x =? id)%string) rows = false.
Proof.
  induction rows as [|r rows IH]; simpl; intros H; [reflexivity|].
  destruct (TaskRow.id r =? id)%string eqn:E.
  - apply String.eqb_eq in E. tauto.
  - apply IH. tauto.
Qed.

(** Inserting a task whose id is not in the table appends its row. *)
Lemma repo_insertTask_run (task : Task) (d : Database) :
  ~ In (Task.id task) (map TaskRow.id (tasks_table d)) ->
  taskRepository.insertTask task (Some d)
  = (Ok tt,
     Some (mkDatabase (tasks_table d ++ [taskRepository.taskToRow task])
                      (projects_table d))).
Proof.
  intros H.
  unfold taskRepository.insertTask, database.getDatabase, database.run,
    database.saveDatabase, bind, ret, taskRepository.INSERT_INTO_tasks.
  simpl. rewrite (existsb_row_id _ _ H). reflexivity.
Qed.

(** What is read back holds the nine stored columns of the inserted
    task. *)
Lemma insertTask_then_getAllTasks (task : Task) (d : Database) :
  ~ In (Task.id task) (map TaskRow.id (tasks_table d)) ->
  exists stored : list Task,
    fst (taskRepository.getAllTasks
           (snd (taskRepository.insertTask task (Some d)))) = Ok stored
    /\ In (taskRepository.rowToTask (taskRepository.taskToRow task)) stored.
Proof.
  intros H. rewrite (repo_insertTask_run task d H).
  eexists. split; [reflexivity|].
  apply in_map, sort_by_In. simpl. apply in_or_app. right. left. reflexivity.
Qed.

Lemma rowToTask_taskToRow (task : Task) :
  Task.dueTime task = None ->
  Task.isRecurring task = None ->
  Task.lastCompletedAt task = None ->
  or_null (Task.projectId task) = Task.projectId task ->
  or_null (Task.dueDate task) = Task.dueDate task ->
  Task.order task <> None ->
  taskRepository.rowToTask (taskRepository.taskToRow task) = task.
Proof.
  destruct task as [i ti c ca p cr pr dd dt ir lc o]. simpl.
  intros -> -> -> Hp Hd Ho.
  unfold taskRepository.rowToTask, taskRepository.taskToRow. simpl.
  rewrite Hp, Hd. destruct o as [o|]; [|congruence].
  destruct c; reflexivity.
Qed.

(** C1. The round trip through the relational store loses [dueTime],
    [isRecurring] and [lastCompletedAt]: inserting the completed recurring
    task into an empty store succeeds, and both [getAllTasks] and
    [getTasksByCategory] read back a task without these three fields; so
    does the task manager when it loads the store in a new session. *)
Theorem insertTask_read_back_drops_fields :
  let stored :=
    snd (taskRepository.insertTask standupDone (Some database.createTables)) in
  let readBack :=
    Task.mk "task_3_standup" "Daily standup" true today high
            "2026-01-05T08:00:00.000Z" None None None None None (Some 0) in
  fst (taskRepository.insertTask standupDone (Some database.createTables))
  = Ok tt
  /\ fst (taskRepository.getAllTasks stored) = Ok [readBack]
  /\ fst (taskRepository.getTasksByCategory today stored) = Ok [readBack]
  /\ useTasks.tasks
       (snd (useTasks.loadEffect true
               (useTasks.mkWorld stored (useTasks.mkState [] [] false))))
     = [readBack]
  /\ readBack <> standupDone
  /\ Task.dueTime standupDone = Some "09:30"
  /\ Task.isRecurring standupDone = Some true
  /\ Task.lastCompletedAt standupDone = Some "2026-01-05T09:40:00.000Z".
Proof.
  cbv zeta.
  repeat split; try reflexivity.
  intros H. discriminate H.
Qed.

(** ** Migration from localStorage into the relational store *)

Section Migration.
Import useTasks.

Lemma taskToRow_id (task : Task) :
  TaskRow.id (taskRepository.taskToRow task) = Task.id task.
Proof. reflexivity. Qed.

(** Inserting tasks with fresh, pairwise distinct ids appends their rows
    in order. *)
Lemma forEach_insertTask (l : list Task) :
  forall (i : Z) (d : Database) (st : State),
    NoDup (map Task.id l) ->
    (forall t, In t l -> ~ In (Task.id t) (map TaskRow.id (tasks_table d))) ->
    forEach_from (fun task _ => taskRepo (taskRepository.insertTask task)) i l
                 (mkWorld (Some d) st)
    = (Ok tt,
       mkWorld
         (Some (mkDatabase (tasks_table d ++ map taskRepository.taskToRow l)
                           (projects_table d)))
         st).
Proof.
  induction l as [|t l IH]; intros i d st Hnd Hfresh.
  - simpl. rewrite app_nil_r. destruct d. reflexivity.
  - simpl. unfold bind at 1. unfold taskRepo at 1, zoom. simpl db.
    rewrite (repo_insertTask_run t d) by (apply Hfresh; left; reflexivity).
    cbv beta iota. simpl state.
    inversion Hnd as [|x xs Hnotin Hnd']; subst.
    rewrite IH.
    + simpl. rewrite <- app_assoc. reflexivity.
    + exact Hnd'.
    + intros t' Ht'. simpl. rewrite map_app, in_app_iff. simpl.
      intros [H|[H|[]]].
      * apply (Hfresh t'); [right; exact Ht' | exact H].
      * apply Hnotin. rewrite H. apply in_map, Ht'.
Qed.

Lemma repo_getAllTasks_run (d : Database) :
  taskRepository.getAllTasks (Some d)
  = (Ok (map taskRepository.rowToTask
           (sort_by TaskRow.task_order (tasks_table d))),
     Some d).
Proof. reflexivity. Qed.

(** With rows in the table the effect only loads them. *)
Lemma loadEffect_skips (w : World) (d : Database) :
  db w = Some d ->
  tasks_table d <> [] ->
  loadEffect true w
  = (Ok tt,
     mkWorld (Some d)
       (mkState (localTasks (state w))
                (map taskRepository.rowToTask
                   (sort_by TaskRow.task_order (tasks_table d)))
                true)).
Proof.
  destruct w as [d0 [l t b]]. simpl. intros -> Hrows.
  unfold loadEffect, bind at 1, get. simpl.
  unfold try_catch, bind at 1. unfold taskRepo at 1, zoom. simpl db.
  rewrite repo_getAllTasks_run. cbv beta iota.
  rewrite length_map, sort_by_length.
  destruct (tasks_table d) as [|r rows] eqn:E; [congruence|]. reflexivity.
Qed.

(** With an empty table and tasks in localStorage the effect inserts all
    of them. *)
Lemma loadEffect_migrates (w : World) (d : Database) :
  db w = Some d ->
  tasks_table d = [] ->
  localTasks (state w) <> [] ->
  NoDup (map Task.id (localTasks (state w))) ->
  loadEffect true w
  = (Ok tt,
     mkWorld
       (Some (mkDatabase (map taskRepository.taskToRow (localTasks (state w)))
                         (projects_table d)))
       (mkState (localTasks (state w)) (localTasks (state w)) true)).
Proof.
  destruct w as [d0 [l t b]]. simpl. intros -> Hrows Hl Hnd.
  unfold loadEffect, bind at 1, get. simpl.
  unfold try_catch, bind at 1. unfold taskRepo at 1, zoom. simpl db.
  rewrite repo_getAllTasks_run. cbv beta iota.
  rewrite length_map, sort_by_length, Hrows.
  destruct l as [|x l]; [congruence|].
  cbn [Datatypes.length Nat.ltb Nat.leb state].
  unfold bind at 1, forEach.
  rewrite forEach_insertTask.
  - rewrite Hrows. reflexivity.
  - exact Hnd.
  - intros t' _. rewrite Hrows. simpl. tauto.
Qed.

End Migration.

Lemma task_migration (w : useTasks.World) (d : Database) :
  useTasks.db w = Some d ->
  let w1 := snd (useTasks.loadEffect true w) in
  let w2 := snd (useTasks.loadEffect true w1) in
  (tasks_table d <> [] ->
     useTasks.db w1 = Some d /\ useTasks.db w2 = Some d)
  /\ (tasks_table d = [] ->
      useTasks.localTasks (useTasks.state w) <> [] ->
      NoDup (map Task.id (useTasks.localTasks (useTasks.state w))) ->
        taskRows (useTasks.db w1)
        = map taskRepository.taskToRow
              (useTasks.localTasks (useTasks.state w))
        /\ useTasks.db w2 = useTasks.db w1
        /\ useTasks.useDb (useTasks.state w1) = true
        /\ useTasks.tasks w1 = useTasks.localTasks (useTasks.state w)).
Proof.
  intros Hdb. cbv zeta. split.
  - intros Hrows. rewrite (loadEffect_skips w d Hdb Hrows).
    cbv beta iota delta [snd]. split; [reflexivity|].
    rewrite (loadEffect_skips (useTasks.mkWorld (Some d) _) d eq_refl Hrows).
    reflexivity.
  - intros Hrows Hl Hnd. rewrite (loadEffect_migrates w d Hdb Hrows Hl Hnd).
    cbv beta iota delta [snd]. split; [reflexivity|].
    split; [|split; reflexivity].
    erewrite loadEffect_skips; [reflexivity | reflexivity |].
    simpl. destruct (useTasks.localTasks (useTasks.state w));
      [congruence | discriminate].
Qed.

Section ProjectMigration.
Import useProjects.

Lemma insert_desc_length {A : Type} (key : A -> string) (x : A) (l : list A) :
  List.length (insert_desc key x l) = S (List.length l).
Proof.
  induction l as [|z l IH]; simpl; [reflexivity|].
  destruct (String.ltb (key x) (key z)); simpl; [|reflexivity].
  rewrite IH. reflexivity.
Qed.

Lemma sort_desc_length {A : Type} (key : A -> string) (l : list A) :
  List.length (sort_desc key l) = List.length l.
Proof.
  induction l as [|x l IH]; simpl; [reflexivity|].
  rewrite insert_desc_length, IH. reflexivity.
Qed.

Lemma existsb_project_row_id (id : string) (rows : list ProjectRow.t) :
  ~ In id (map ProjectRow.id rows) ->
  existsb (fun x => (ProjectRow.id x =? id)%string) rows = false.
Proof.
  induction rows as [|r rows IH]; simpl; intros H; [reflexivity|].
  destruct (ProjectRow.id r =? id)%string eqn:E.
  - apply String.eqb_eq in E. tauto.
  - apply IH. tauto.
Qed.

Lemma repo_insertProject_run (project : Project) (d : Database) :
  ~ In (Project.id project) (map ProjectRow.id (projects_table d)) ->
  projectRepository.insertProject project (Some d)
  = (Ok tt,
     Some (mkDatabase (tasks_table d)
             (projects_table d ++ [projectRepository.projectToRow project]))).
Proof.
  intros H.
  unfold projectRepository.insertProject, database.getDatabase, database.run,
    database.saveDatabase, bind, ret, projectRepository.INSERT_INTO_projects.
  simpl. rewrite (existsb_project_row_id _ _ H). reflexivity.
Qed.

Lemma forEach_insertProject (l : list Project) :
  forall (i : Z) (d : Database) (st : State),
    NoDup (map Project.id l) ->
    (forall p, In p l ->
               ~ In (Project.id p) (map ProjectRow.id (projects_table d))) ->
    forEach_from
      (fun project _ => projectRepo (projectRepository.insertProject project))
      i l (mkWorld (Some d) st)
    = (Ok tt,
       mkWorld
         (Some (mkDatabase (tasks_table d)
                  (projects_table d
                   ++ map projectRepository.projectToRow l)))
         st).
Proof.
  induction l as [|p l IH]; intros i d st Hnd Hfresh.
  - simpl. rewrite app_nil_r. destruct d. reflexivity.
  - simpl. unfold bind at 1. unfold projectRepo at 1, zoom. simpl db.
    rewrite (repo_insertProject_run p d) by (apply Hfresh; left; reflexivity).
    cbv beta iota. simpl state.
    inversion Hnd as [|x xs Hnotin Hnd']; subst.
    rewrite IH.
    + simpl. rewrite <- app_assoc. reflexivity.
    + exact Hnd'.
    + intros p' Hp'. simpl. rewrite map_app, in_app_iff. simpl.
      intros [H|[H|[]]].
      * apply (Hfresh p'); [right; exact Hp' | exact H].
      * apply Hnotin. rewrite H. apply in_map, Hp'.
Qed.

Lemma project_loadEffect_skips (w : World) (d : Database) :
  db w = Some d ->
  projects_table d <> [] ->
  loadEffect true w
  = (Ok tt,
     mkWorld (Some d)
       (mkState (localProjects (state w))
                (map projectRepository.rowToProject
                   (sort_desc ProjectRow.created_at (projects_table d)))
                true)).
Proof.
  destruct w as [d0 [l t b]]. simpl. intros -> Hrows.
  unfold loadEffect, bind at 1, get. simpl.
  unfold try_catch, bind at 1. unfold projectRepo at 1, zoom. simpl db.
  change (projectRepository.getAllProjects (Some d))
    with (Ok (map projectRepository.rowToProject
                (sort_desc ProjectRow.created_at (projects_table d))),
          Some d).
  cbv beta iota.
  rewrite length_map, sort_desc_length.
  destruct (projects_table d) as [|r rows] eqn:E; [congruence|]. reflexivity.
Qed.

Lemma project_loadEffect_migrates (w : World) (d : Database) :
  db w = Some d ->
  projects_table d = [] ->
  localProjects (state w) <> [] ->
  NoDup (map Project.id (localProjects (state w))) ->
  loadEffect true w
  = (Ok tt,
     mkWorld
       (Some (mkDatabase (tasks_table d)
                (map projectRepository.projectToRow
                     (localProjects (state w)))))
       (mkState (localProjects (state w)) (localProjects (state w)) true)).
Proof.
  destruct w as [d0 [l t b]]. simpl. intros -> Hrows Hl Hnd.
  unfold loadEffect, bind at 1, get. simpl.
  unfold try_catch, bind at 1. unfold projectRepo at 1, zoom. simpl db.
  change (projectRepository.getAllProjects (Some d))
    with (Ok (map projectRepository.rowToProject
                (sort_desc ProjectRow.created_at (projects_table d))),
          Some d).
  cbv beta iota.
  rewrite length_map, sort_desc_length, Hrows.
  destruct l as [|x l]; [congruence|].
  cbn [Datatypes.length Nat.ltb Nat.leb state].
  unfold bind at 1, forEach.
  rewrite forEach_insertProject.
  - rewrite Hrows. reflexivity.
  - exact Hnd.
  - intros p' _. rewrite Hrows. simpl. tauto.
Qed.

End ProjectMigration.

Lemma project_migration (w : useProjects.World) (d : Database) :
  useProjects.db w = Some d ->
  let w1 := snd (useProjects.loadEffect true w) in
  let w2 := snd (useProjects.loadEffect true w1) in
  (projects_table d <> [] ->
     useProjects.db w1 = Some d /\ useProjects.db w2 = Some d)
  /\ (projects_table d = [] ->
      useProjects.localProjects (useProjects.state w) <> [] ->
      NoDup (map Project.id (useProjects.localProjects (useProjects.state w))) ->
        projectRows (useProjects.db w1)
        = map projectRepository.projectToRow
              (useProjects.localProjects (useProjects.state w))
        /\ useProjects.db w2 = useProjects.db w1
        /\ useProjects.useDb (useProjects.state w1) = true
        /\ useProjects.projects w1
           = useProjects.localProjects (useProjects.state w)).
Proof.
  intros Hdb. cbv zeta. split.
  - intros Hrows. rewrite (project_loadEffect_skips w d Hdb Hrows).
    cbv beta iota delta [snd]. split; [reflexivity|].
    rewrite (project_loadEffect_skips (useProjects.mkWorld (Some d) _) d
               eq_refl Hrows).
    reflexivity.
  - intros Hrows Hl Hnd.
    rewrite (project_loadEffect_migrates w d Hdb Hrows Hl Hnd).
    cbv beta iota delta [snd]. split; [reflexivity|].
    split; [|split; reflexivity].
    erewrite project_loadEffect_skips; [reflexivity | reflexivity |].
    simpl. destruct (useProjects.localProjects (useProjects.state w));
      [congruence | discriminate].
Qed.

(** C7, as amended.  With the relational store ready: if the table of the
    entity type already has a row, the load effect inserts nothing, also
    when it runs twice; if the table is empty and localStorage holds
    entities with pairwise distinct ids, every one of them is inserted, as
    one row each in the order of localStorage and with the columns
    written out below, the manager switches to relational mode and a
    second run adds no row.  This holds for the task manager and for the
    project manager. *)
Theorem migration_once
    (wt : useTasks.World) (wp : useProjects.World) (dt dp : Database) :
  (useTasks.db wt = Some dt ->
   let w1 := snd (useTasks.loadEffect true wt) in
   let w2 := snd (useTasks.loadEffect true w1) in
   (tasks_table dt <> [] ->
      useTasks.db w1 = Some dt /\ useTasks.db w2 = Some dt)
   /\ (tasks_table dt = [] ->
       useTasks.localTasks (useTasks.state wt) <> [] ->
       NoDup (map Task.id (useTasks.localTasks (useTasks.state wt))) ->
         taskRows (useTasks.db w1)
         = map (fun t =>
                  TaskRow.mk (Task.id t) (Task.title t)
                             (if Task.completed t then 1 else 0)
                             (Task.category t) (Task.priority t)
                             (Task.createdAt t)
                             (or_null (Task.projectId t))
                             (or_null (Task.dueDate t))
                             (or_zero (Task.order t)))
               (useTasks.localTasks (useTasks.state wt))
         /\ projectRows (useTasks.db w1) = projects_table dt
         /\ useTasks.db w2 = useTasks.db w1
         /\ useTasks.useDb (useTasks.state w1) = true
         /\ useTasks.tasks w1 = useTasks.localTasks (useTasks.state wt)))
  /\ (useProjects.db wp = Some dp ->
      let w1 := snd (useProjects.loadEffect true wp) in
      let w2 := snd (useProjects.loadEffect true w1) in
      (projects_table dp <> [] ->
         useProjects.db w1 = Some dp /\ useProjects.db w2 = Some dp)
      /\ (projects_table dp = [] ->
          useProjects.localProjects (useProjects.state wp) <> [] ->
          NoDup (map Project.id
                     (useProjects.localProjects (useProjects.state wp))) ->
            projectRows (useProjects.db w1)
            = map (fun p =>
                     ProjectRow.mk (Project.id p) (Project.name p)
                                   (Project.description p)
                                   (Project.progress p)
                                   (Project.totalTasks p)
                                   (Project.completedTasks p)
                                   (Project.color p) (Project.status p)
                                   (Project.createdAt p)
                                   (or_null (Project.deadline p))
                                   (Some (Project.tags p)))
                  (useProjects.localProjects (useProjects.state wp))
            /\ taskRows (useProjects.db w1) = tasks_table dp
            /\ useProjects.db w2 = useProjects.db w1
            /\ useProjects.useDb (useProjects.state w1) = true
            /\ useProjects.projects w1
               = useProjects.localProjects (useProjects.state wp))).
Proof.
  split.
  - intros Hdb. destruct (task_migration wt dt Hdb) as [Hskip Hmig].
    split; [exact Hskip|]. intros Hrows Hl Hnd.
    destruct (Hmig Hrows Hl Hnd) as (H1 & H2 & H3 & H4).
    split; [exact H1|]. split; [|repeat split; assumption].
    rewrite (loadEffect_migrates wt dt Hdb Hrows Hl Hnd). reflexivity.
  - intros Hdb. destruct (project_migration wp dp Hdb) as [Hskip Hmig].
    split; [exact Hskip|]. intros Hrows Hl Hnd.
    destruct (Hmig Hrows Hl Hnd) as (H1 & H2 & H3 & H4).
    split; [exact H1|]. split; [|repeat split; assumption].
    rewrite (project_loadEffect_migrates wp dp Hdb Hrows Hl Hnd). reflexivity.
Qed.

(** C7, as stated, fails when localStorage repeats an id.  A reorder of
    Today with a list that holds a Week task, made before the database is
    ready, leaves the Week task twice in localStorage; the load effect
    then inserts its first copy, the second insert violates the primary
    key, and the Today task behind it never reaches the empty store. *)
Lemma migration_stops_at_repeated_id :
  let loading :=
    useTasks.mkWorld None (useTasks.mkState [milk; eggs; report] [] false) in
  let stored :=
    useTasks.localTasks
      (useTasks.state
         (snd (useTasks.reorderTasks today [report; milk] loading))) in
  let ready :=
    useTasks.mkWorld (Some database.createTables)
                     (useTasks.mkState stored [] false) in
  let w1 := snd (useTasks.loadEffect true ready) in
  taskRows (useTasks.db ready) = []
  /\ map Task.id stored = ["task_4_report"; "task_4_report"; "task_1_milk"]
  /\ map TaskRow.id (taskRows (useTasks.db w1)) = ["task_4_report"]
  /\ ~ (forall t, In t stored ->
                  In (Task.id t) (map TaskRow.id (taskRows (useTasks.db w1)))).
Proof.
  cbv zeta. split; [reflexivity|]. split; [reflexivity|].
  split; [reflexivity|]. intros H.
  assert (Hin : In "task_1_milk" ["task_4_report"]).
  { apply (H (Task.mk "task_1_milk" "Buy milk" false today medium
                      "2026-01-05T09:00:00.000Z" None None None None None
                      (Some 1))).
    right. right. left. reflexivity. }
  destruct Hin as [Hin|[]]. discriminate Hin.
Qed.

Lemma migration_once_witness :
  useTasks.db beforeMigration = Some database.createTables
  /\ useProjects.db beforeProjectMigration = Some database.createTables
  /\ taskRows (useTasks.db (snd (useTasks.loadEffect true beforeMigration)))
     = [taskRepository.taskToRow milk; taskRepository.taskToRow eggs]
  /\ useTasks.db
       (snd (useTasks.loadEffect true
               (snd (useTasks.loadEffect true beforeMigration))))
     = useTasks.db (snd (useTasks.loadEffect true beforeMigration))
  /\ projectRows
       (useProjects.db
          (snd (useProjects.loadEffect true beforeProjectMigration)))
     = map projectRepository.projectToRow defaultProjects
  /\ useProjects.db
       (snd (useProjects.loadEffect true
               (snd (useProjects.loadEffect true beforeProjectMigration))))
     = useProjects.db
         (snd (useProjects.loadEffect true beforeProjectMigration)).
Proof.
  split; [reflexivity|]. split; [reflexivity|].
  destruct (migration_once beforeMigration beforeProjectMigration
              database.createTables database.createTables)
    as [T P].
  destruct (T eq_refl) as [_ T2]. destruct (P eq_refl) as [_ P2].
  destruct T2 as (T21 & _ & T22 & _).
  - reflexivity.
  - discriminate.
  - simpl. repeat constructor; simpl; intuition discriminate.
  - destruct P2 as (P21 & _ & P22 & _).
    + reflexivity.
    + discriminate.
    + simpl. repeat constructor; simpl; intuition discriminate.
    + split; [exact T21|]. split; [exact T22|].
      split; [exact P21 | exact P22].
Defined.

(** ** Reordering a category *)

Section ReorderMemory.
Import useTasks.

Lemma withIndexOrder_length (l : list Task) :
  forall i, List.length (withIndexOrder i l) = List.length l.
Proof. induction l as [|t l IH]; intros i; simpl; [|rewrite IH]; reflexivity. Qed.

Lemma withIndexOrder_inCategory (C : Category) (l : list Task) :
  (forall t, In t l -> Task.category t = C) ->
  forall i, inCategory C (withIndexOrder i l) = withIndexOrder i l.
Proof.
  induction l as [|t l IH]; intros H i; [reflexivity|].
  cbn [withIndexOrder]. unfold inCategory. cbn [filter].
  change (Task.category (Task.with_order i t)) with (Task.category t).
  rewrite (H t) by (left; reflexivity).
  replace (Category_eqb C C) with true by (destruct C; reflexivity).
  f_equal. apply IH. intros t' Ht'. apply H. right. exact Ht'.
Qed.

Lemma withIndexOrder_orders (l : list Task) :
  forall (i : Z) (o : option Z),
    In o (map Task.order (withIndexOrder i l))
    <-> exists k, o = Some k /\ i <= k < i + Z.of_nat (List.length l).
Proof.
  induction l as [|t l IH]; intros i o.
  - simpl. split; [tauto|]. intros (k & _ & Hk). lia.
  - cbn [withIndexOrder map In List.length]. rewrite IH. split.
    + intros [H|(k & Hk & Hr)].
      * exists i. split; [symmetry; exact H | lia].
      * exists k. split; [exact Hk | lia].
    + intros (k & Hk & Hr). destruct (Z.eq_dec k i) as [->|Hne].
      * left. symmetry. exact Hk.
      * right. exists k. split; [exact Hk | lia].
Qed.

Lemma inCategory_others (C : Category) (l : list Task) :
  inCategory C
    (filter (fun t => negb (Category_eqb (Task.category t) C)) l) = [].
Proof.
  induction l as [|t l IH]; simpl; [reflexivity|].
  destruct (Category_eqb (Task.category t) C) eqn:E; simpl; [exact IH|].
  rewrite E. exact IH.
Qed.

(** In memory the category holds exactly the reordered list, numbered
    from 0. *)
Lemma reorderTasks_inCategory (C : Category) (l : list Task) (w : World) :
  (forall t, In t l -> Task.category t = C) ->
  inCategory C (tasks (snd (reorderTasks C l w))) = withIndexOrder 0 l.
Proof.
  intros H. rewrite reorderTasks_run. cbv beta iota delta [snd].
  rewrite tasks_mapTasks, tasks_withDb.
  unfold inCategory at 1. rewrite filter_app.
  fold (inCategory C (filter (fun t => negb (Category_eqb (Task.category t) C))
                             (tasks w))).
  fold (inCategory C (withIndexOrder 0 l)).
  rewrite inCategory_others, (withIndexOrder_inCategory C l H). reflexivity.
Qed.

End ReorderMemory.

Section ReorderStore.

Lemma forEach_orderedRow (ids : list string) :
  forall (i : Z) (d : Database),
    forEach_from
      (fun id index =>
         database.run
           (taskRepository.UPDATE_tasks_WHERE_id
              (fun x =>
                 TaskRow.mk (TaskRow.id x) (TaskRow.title x)
                            (TaskRow.completed x)
                            (TaskRow.category x) (TaskRow.priority x)
                            (TaskRow.created_at x) (TaskRow.project_id x)
                            (TaskRow.due_date x) index)
              id))
      i ids (Some d)
    = (Ok tt,
       Some (mkDatabase (orderedRows i ids (tasks_table d))
                        (projects_table d))).
Proof.
  induction ids as [|id ids IH]; intros i d.
  - destruct d. reflexivity.
  - cbn [forEach_from]. unfold bind at 1.
    unfold database.run at 1, taskRepository.UPDATE_tasks_WHERE_id at 1.
    cbv beta iota. rewrite IH. reflexivity.
Qed.

Lemma repo_updateTaskOrder_run (C : Category) (ids : list string)
    (d : Database) :
  taskRepository.updateTaskOrder C ids (Some d)
  = (Ok tt,
     Some (mkDatabase (orderedRows 0 ids (tasks_table d))
                      (projects_table d))).
Proof.
  unfold taskRepository.updateTaskOrder, bind at 1, database.getDatabase.
  unfold bind at 1, forEach. rewrite forEach_orderedRow. reflexivity.
Qed.

Lemma orderedRows_map (ids : list string) :
  forall (i : Z) (rows : list TaskRow.t),
    orderedRows i ids rows = map (finalRow i ids) rows.
Proof.
  induction ids as [|id ids IH]; intros i rows; simpl.
  - symmetry. apply map_id.
  - rewrite IH, map_map. reflexivity.
Qed.

Lemma orderedRow_id (id : string) (i : Z) (x : TaskRow.t) :
  TaskRow.id (orderedRow id i x) = TaskRow.id x.
Proof. unfold orderedRow. destruct (_ =? _)%string; reflexivity. Qed.

Lemma orderedRow_category (id : string) (i : Z) (x : TaskRow.t) :
  TaskRow.category (orderedRow id i x) = TaskRow.category x.
Proof. unfold orderedRow. destruct (_ =? _)%string; reflexivity. Qed.

Lemma finalRow_category (ids : list string) :
  forall (i : Z) (x : TaskRow.t),
    TaskRow.category (finalRow i ids x) = TaskRow.category x.
Proof.
  induction ids as [|id ids IH]; intros i x; simpl; [reflexivity|].
  rewrite IH. apply orderedRow_category.
Qed.

Lemma indexFrom_None (id : string) (ids : list string) :
  forall i, ~ In id ids -> indexFrom i id ids = None.
Proof.
  induction ids as [|y ids IH]; intros i H; simpl; [reflexivity|].
  destruct (id =? y)%string eqn:E.
  - apply String.eqb_eq in E. subst y. exfalso. apply H. left. reflexivity.
  - apply IH. intros Hin. apply H. right. exact Hin.
Qed.

Lemma indexFrom_bounds (id : string) (ids : list string) :
  forall i k,
    indexFrom i id ids = Some k -> i <= k < i + Z.of_nat (List.length ids).
Proof.
  induction ids as [|y ids IH]; intros i k; simpl; [discriminate|].
  destruct (id =? y)%string.
  - intros [= <-]. lia.
  - intros H. apply IH in H. lia.
Qed.

Lemma indexFrom_In (id : string) (ids : list string) :
  forall i, In id ids -> exists k, indexFrom i id ids = Some k.
Proof.
  induction ids as [|y ids IH]; intros i; simpl; [tauto|].
  destruct (id =? y)%string eqn:E.
  - intros _. exists i. reflexivity.
  - intros [H|H]; [|apply IH, H].
    subst y. rewrite String.eqb_refl in E. discriminate E.
Qed.

Lemma indexFrom_onto (ids : list string) :
  NoDup ids ->
  forall i k,
    i <= k < i + Z.of_nat (List.length ids) ->
    exists id, In id ids /\ indexFrom i id ids = Some k.
Proof.
  induction 1 as [|y ids Hnotin Hnd IH]; intros i k Hk.
  - simpl in Hk. lia.
  - destruct (Z.eq_dec k i) as [->|Hne].
    + exists y. split; [left; reflexivity|]. simpl.
      rewrite String.eqb_refl. reflexivity.
    + destruct (IH (i + 1) k) as (id & Hin & Hidx).
      { cbn [List.length] in Hk. lia. }
      exists id. split; [right; exact Hin|]. simpl.
      destruct (id =? y)%string eqn:E; [|exact Hidx].
      apply String.eqb_eq in E. subst y. contradiction.
Qed.

(** With pairwise distinct ids a row ends with the position of its id in
    the list, and keeps its order when its id is not listed. *)
Lemma finalRow_task_order (ids : list string) :
  NoDup ids ->
  forall (i : Z) (x : TaskRow.t),
    TaskRow.task_order (finalRow i ids x)
    = match indexFrom i (TaskRow.id x) ids with
      | Some k => k
      | None => TaskRow.task_order x
      end.
Proof.
  induction 1 as [|y ids Hnotin Hnd IH]; intros i x; simpl; [reflexivity|].
  rewrite IH, orderedRow_id. unfold orderedRow.
  destruct (TaskRow.id x =? y)%string eqn:E; [|reflexivity].
  apply String.eqb_eq in E. rewrite E, (indexFrom_None y ids _ Hnotin).
  reflexivity.
Qed.

Lemma rowsInCategory_finalRow (C : Category) (i : Z) (ids : list string)
    (rows : list TaskRow.t) :
  rowsInCategory C (map (finalRow i ids) rows)
  = map (finalRow i ids) (rowsInCategory C rows).
Proof.
  induction rows as [|x rows IH]; simpl; [reflexivity|].
  rewrite finalRow_category.
  destruct (Category_eqb (TaskRow.category x) C); simpl; rewrite IH;
    reflexivity.
Qed.

(** When the listed ids are pairwise distinct and are exactly the ids of
    the rows of the category, the rows of the category end up numbered
    0, ..., n-1. *)
Lemma orderedRows_dense (C : Category) (ids : list string)
    (rows : list TaskRow.t) :
  NoDup ids ->
  Permutation (map TaskRow.id (rowsInCategory C rows)) ids ->
  denseRowOrders C (orderedRows 0 ids rows).
Proof.
  intros Hnd Hperm k. unfold denseRowOrders.
  rewrite orderedRows_map, rowsInCategory_finalRow, map_map, length_map.
  assert (Hlen : List.length (rowsInCategory C rows) = List.length ids).
  { rewrite <- (Permutation_length Hperm), length_map. reflexivity. }
  rewrite Hlen. split.
  - intros Hin. apply in_map_iff in Hin. destruct Hin as (x & Hk & Hx).
    rewrite (finalRow_task_order ids Hnd) in Hk.
    assert (Hid : In (TaskRow.id x) ids).
    { apply (Permutation_in _ Hperm), in_map, Hx. }
    destruct (indexFrom_In _ _ 0 Hid) as (k' & Hk').
    rewrite Hk' in Hk. subst k'.
    apply indexFrom_bounds in Hk'. lia.
  - intros Hk.
    destruct (indexFrom_onto ids Hnd 0 k) as (id & Hin & Hidx); [lia|].
    apply (Permutation_in _ (Permutation_sym Hperm)) in Hin.
    apply in_map_iff in Hin. destruct Hin as (x & Hx & Hxin).
    apply in_map_iff. exists x. split; [|exact Hxin].
    rewrite (finalRow_task_order ids Hnd), Hx, Hidx. reflexivity.
Qed.

End ReorderStore.

(** C3 (amended). For every category [C] and every list whose tasks all
    have category [C], after [reorder(C, list)] the tasks of [C] in the
    in-memory collection are the tasks of the list and their order values
    are exactly {0, ..., n-1}; in relational mode the rows of [C] in the
    tasks table also carry exactly {0, ..., n-1} when the ids of the list
    are pairwise distinct and are exactly the ids of the rows of [C]. *)
Theorem reorderTasks_dense (C : Category) (reorderedTasks : list Task)
    (w : useTasks.World) :
  (forall t, In t reorderedTasks -> Task.category t = C) ->
  let w' := snd (useTasks.reorderTasks C reorderedTasks w) in
  fst (useTasks.reorderTasks C reorderedTasks w) = Ok tt
  /\ List.length (inCategory C (useTasks.tasks w'))
     = List.length reorderedTasks
  /\ denseOrders C (useTasks.tasks w')
  /\ (useTasks.useDb (useTasks.state w) = true ->
      NoDup (map Task.id reorderedTasks) ->
      Permutation
        (map TaskRow.id (rowsInCategory C (taskRows (useTasks.db w))))
        (map Task.id reorderedTasks) ->
      denseRowOrders C (taskRows (useTasks.db w'))).
Proof.
  intros Hcat. cbv zeta.
  split; [rewrite reorderTasks_run; reflexivity|].
  split; [rewrite (reorderTasks_inCategory C reorderedTasks w Hcat);
          apply withIndexOrder_length|].
  split.
  - intros o. unfold orderValues.
    rewrite (reorderTasks_inCategory C reorderedTasks w Hcat).
    rewrite withIndexOrder_length. apply withIndexOrder_orders.
  - intros Hdb Hnd Hperm. rewrite reorderTasks_run.
    cbv beta iota delta [snd]. rewrite db_mapTasks.
    unfold withDb, dbAfter. simpl useTasks.db. rewrite Hdb.
    destruct (useTasks.db w) as [d|] eqn:Ed.
    + rewrite repo_updateTaskOrder_run. simpl taskRows.
      simpl in Hperm. apply orderedRows_dense; assumption.
    + simpl. simpl in Hperm.
      apply Permutation_nil in Hperm.
      intros k. simpl. split; [tauto | lia].
Qed.

(** C3, as stated, fails: reordering Today with a list that holds a Week
    task leaves Today without the order value 0, in memory and in the
    relational store. *)
Lemma reorderTasks_not_dense :
  let w' := snd (useTasks.reorderTasks today [report; milk] mixedWorld) in
  ~ denseOrders today (useTasks.tasks w')
  /\ ~ denseRowOrders today (taskRows (useTasks.db w')).
Proof.
  cbv zeta. split; intros H.
  - assert (Hin : In (Some 0)
                     (orderValues today
                        (useTasks.tasks
                           (snd (useTasks.reorderTasks today [report; milk]
                                   mixedWorld))))).
    { apply H. exists 0. split; [reflexivity|]. vm_compute.
      split; [discriminate | reflexivity]. }
    vm_compute in Hin. destruct Hin as [Hin|[]]. discriminate Hin.
  - assert (Hin : In 0
                     (map TaskRow.task_order
                        (rowsInCategory today
                           (taskRows
                              (useTasks.db
                                 (snd (useTasks.reorderTasks today
                                         [report; milk] mixedWorld))))))).
    { apply H. vm_compute. split; [discriminate | reflexivity]. }
    vm_compute in Hin. destruct Hin as [Hin|[Hin|[]]]; discriminate Hin.
Qed.

(** A partial list, as a filtered view of the Today list passes it: the
    row that is not listed keeps its order value, so the two Today rows of
    the store both carry 0, and memory no longer holds the unlisted
    task. *)
Example reorderTasks_partial_list :
  let w' := snd (useTasks.reorderTasks today [eggs] relationalWorld) in
  map (fun x => (TaskRow.id x, TaskRow.task_order x))
      (rowsInCategory today (taskRows (useTasks.db w')))
  = [("task_1_milk", 0); ("task_2_eggs", 0)]
  /\ map Task.id (useTasks.tasks w') = ["task_2_eggs"].
Proof. split; reflexivity. Qed.

Lemma reorderTasks_dense_witness :
  (forall t, In t [eggs; milk] -> Task.category t = today)
  /\ denseOrders today
       (useTasks.tasks
          (snd (useTasks.reorderTasks today [eggs; milk] relationalWorld)))
  /\ denseRowOrders today
       (taskRows
          (useTasks.db
             (snd (useTasks.reorderTasks today [eggs; milk]
                     relationalWorld)))).
Proof.
  assert (Hcat : forall t, In t [eggs; milk] -> Task.category t = today).
  { intros t [<-|[<-|[]]]; reflexivity. }
  split; [exact Hcat|].
  destruct (reorderTasks_dense today [eggs; milk] relationalWorld Hcat)
    as (_ & _ & Hmem & Hdb).
  split; [exact Hmem|].
  apply Hdb.
  - reflexivity.
  - simpl. repeat constructor; simpl; intuition discriminate.
  - simpl. apply perm_swap.
Defined.

(** ** The scenarios of the specification *)

(** Scenario A: the added tasks get the orders 0 and 1; after the swap
    eggs has order 0 and milk order 1. *)
Example scenario_A :
  map (fun t => (Task.title t, Task.order t))
      (useTasks.tasks scenarioA_added)
  = [("Buy milk", Some 0); ("Buy eggs", Some 1)]
  /\ map (fun t => (Task.title t, Task.order t))
         (useTasks.getTasksByCategory today scenarioA_reordered)
     = [("Buy eggs", Some 0); ("Buy milk", Some 1)].
Proof. split; reflexivity. Qed.

(** Scenario C: a completed task that is not recurring is left alone by
    the sweep. *)
Example scenario_C :
  useTasks.resetRecurringEffect isoDay "2026-01-06" localWorld
  = (Ok tt, localWorld).
Proof. reflexivity. Qed.

(** Rounding of the progress percentage on small inputs. *)
Example computeProgress_examples :
  useProjects.computeProgress 2 4 = 50
  /\ useProjects.computeProgress 1 3 = 33
  /\ useProjects.computeProgress 2 3 = 67
  /\ useProjects.computeProgress 1 8 = 13
  /\ useProjects.computeProgress 0 0 = 0.
Proof. repeat split; reflexivity. Qed.

(* ================================================================== *)
(** * Further properties of the repositories and the managers *)

(** ** Sorting *)

Lemma insert_by_perm {A : Type} (key : A -> Z) (x : A) (l : list A) :
  Permutation (insert_by key x l) (x :: l).
Proof.
  induction l as [|y l IH]; simpl; [apply Permutation_refl|].
  destruct (key y <? key x); [|apply Permutation_refl].
  apply perm_trans with (y :: x :: l); [|apply perm_swap].
  apply perm_skip, IH.
Qed.

Lemma sort_by_perm {A : Type} (key : A -> Z) (l : list A) :
  Permutation (sort_by key l) l.
Proof.
  induction l as [|x l IH]; simpl; [apply perm_nil|].
  apply perm_trans with (x :: sort_by key l);
    [apply insert_by_perm | apply perm_skip, IH].
Qed.

Lemma insert_by_sorted {A : Type} (key : A -> Z) (x : A) (l : list A) :
  StronglySorted Z.le (map key l) ->
  StronglySorted Z.le (map key (insert_by key x l)).
Proof.
  induction l as [|y l IH]; simpl; intros H.
  - repeat constructor.
  - inversion H as [|a b Hs Hall]; subst.
    destruct (key y <? key x) eqn:E; simpl.
    + constructor; [apply IH, Hs|].
      apply Forall_forall. intros k Hk. apply in_map_iff in Hk.
      destruct Hk as (z & <- & Hz). apply insert_by_In in Hz.
      destruct Hz as [->|Hz].
      * apply Z.ltb_lt in E. lia.
      * rewrite Forall_forall in Hall. apply Hall, in_map, Hz.
    + apply Z.ltb_ge in E. constructor; [exact H|].
      constructor; [exact E|].
      rewrite Forall_forall in *. intros k Hk. specialize (Hall k Hk). lia.
Qed.

Lemma sort_by_sorted {A : Type} (key : A -> Z) (l : list A) :
  StronglySorted Z.le (map key (sort_by key l)).
Proof.
  induction l as [|x l IH]; simpl; [constructor|].
  apply insert_by_sorted, IH.
Qed.

Lemma insert_by_least {A : Type} (key : A -> Z) (x : A) (l : list A) :
  Forall (fun z => key x <= key z) l -> insert_by key x l = x :: l.
Proof.
  destruct l as [|y l]; simpl; intros H; [reflexivity|].
  inversion H as [|a b Hy _]; subst.
  destruct (key y <? key x) eqn:E; [|reflexivity].
  apply Z.ltb_lt in E. lia.
Qed.

Lemma insert_by_filter {A : Type} (key : A -> Z) (p : A -> bool) (x : A)
    (l : list A) :
  StronglySorted Z.le (map key l) ->
  filter p (insert_by key x l)
  = if p x then insert_by key x (filter p l) else filter p l.
Proof.
  induction l as [|y l IH]; simpl; intros Hs.
  - destruct (p x); reflexivity.
  - inversion Hs as [|a b Hs' Hall]; subst.
    destruct (key y <? key x) eqn:E; simpl.
    + rewrite (IH Hs').
      destruct (p y), (p x); simpl; try rewrite E; reflexivity.
    + apply Z.ltb_ge in E.
      destruct (p x) eqn:Px; [|reflexivity].
      symmetry. apply insert_by_least.
      apply Forall_forall. intros z Hz.
      change (In z (filter p (y :: l))) in Hz.
      apply filter_In in Hz. destruct Hz as [[<-|Hz] _]; [exact E|].
      rewrite Forall_forall in Hall.
      specialize (Hall (key z) (in_map key l z Hz)). lia.
Qed.

(** The stable sort commutes with filtering. *)
Lemma sort_by_filter {A : Type} (key : A -> Z) (p : A -> bool) (l : list A) :
  sort_by key (filter p l) = filter p (sort_by key l).
Proof.
  induction l as [|x l IH]; simpl; [reflexivity|].
  rewrite insert_by_filter by apply sort_by_sorted.
  destruct (p x); simpl; rewrite IH; reflexivity.
Qed.

Lemma filter_map_commute {A B : Type} (f : A -> B) (p : B -> bool)
    (l : list A) :
  filter p (map f l) = map f (filter (fun x => p (f x)) l).
Proof.
  induction l as [|x l IH]; simpl; [reflexivity|].
  destruct (p (f x)); simpl; rewrite IH; reflexivity.
Qed.

(** ** taskRepository *)

(** X1. [getAllTasks] returns every row of the table exactly once, in
    ascending order of [task_order], and leaves the database as it is. *)
Theorem getAllTasks_sorted_permutation (d : Database) :
  exists l : list Task,
    taskRepository.getAllTasks (Some d) = (Ok l, Some d)
    /\ Permutation l (map taskRepository.rowToTask (tasks_table d))
    /\ StronglySorted Z.le (map (fun t => or_zero (Task.order t)) l).
Proof.
  eexists. split; [reflexivity|]. split.
  - apply Permutation_map, sort_by_perm.
  - rewrite map_map. simpl.
    apply (sort_by_sorted TaskRow.task_order).
Qed.

(** X2. [getTasksByCategory(c)] returns what [getAllTasks] returns,
    restricted to the tasks of category [c], in the same order; both throw
    when the database is not initialised. *)
Theorem getTasksByCategory_filters_getAllTasks (c : Category)
    (db : database.Db) :
  fst (taskRepository.getTasksByCategory c db)
  = result_map (filter (fun t => Category_eqb (Task.category t) c))
               (fst (taskRepository.getAllTasks db)).
Proof.
  destruct db as [d|]; [|reflexivity].
  unfold taskRepository.getTasksByCategory, taskRepository.getAllTasks,
    bind, ret. simpl.
  rewrite sort_by_filter, filter_map_commute. reflexivity.
Qed.

Lemma readTasks_Some (d : Database) :
  readTasks (Some d)
  = map taskRepository.rowToTask (sort_by TaskRow.task_order (tasks_table d)).
Proof. reflexivity. Qed.

Lemma readTasks_In (d : Database) (t : Task) :
  In t (readTasks (Some d))
  <-> exists x, In x (tasks_table d) /\ t = taskRepository.rowToTask x.
Proof.
  rewrite readTasks_Some, in_map_iff. split.
  - intros (x & <- & Hx). exists x. split; [apply sort_by_In in Hx; exact Hx|].
    reflexivity.
  - intros (x & Hx & ->). exists x. split; [reflexivity|].
    apply sort_by_In, Hx.
Qed.

Lemma existsb_row_id_present (id : string) (rows : list TaskRow.t) :
  In id (map TaskRow.id rows) ->
  existsb (fun x => (TaskRow.id x =? id)%string) rows = true.
Proof.
  intros H. apply in_map_iff in H. destruct H as (x & Hid & Hx).
  apply existsb_exists. exists x. split; [exact Hx|].
  apply String.eqb_eq, Hid.
Qed.

Lemma addTask_run (newId now title : string) (category : Category)
    (options : option useTasks.AddOptions) (w : useTasks.World) :
  useTasks.addTask newId now title category options w
  = (Ok (builtTask newId now title category options w),
     mapTasks
       (fun prev => prev ++ [builtTask newId now title category options w])
       (withDb
          (dbAfter
             (taskRepository.insertTask
                (builtTask newId now title category options w)) w)
          w)).
Proof.
  unfold useTasks.addTask, bind at 1, get.
  fold (inCategory category (useTasks.tasks w)).
  fold (builtTask newId now title category options w).
  unfold bind at 1. rewrite guarded_repo.
  unfold bind at 1.
  rewrite (setTasks_pure
             (fun prev =>
                prev ++ [builtTask newId now title category options w])).
  reflexivity.
Qed.

(** X3. Inserting a task whose id is already in the table throws and
    leaves the table as it was; [addTask] of the task manager swallows the
    error: it returns the new task and appends it to the in-memory
    collection while the store keeps its rows. *)
Theorem insertTask_existing_id (newId now title : string)
    (category : Category) (options : option useTasks.AddOptions)
    (w : useTasks.World) (d : Database) :
  useTasks.useDb (useTasks.state w) = true ->
  useTasks.db w = Some d ->
  In newId (map TaskRow.id (tasks_table d)) ->
  (forall task, Task.id task = newId ->
     exists e, taskRepository.insertTask task (Some d) = (Thrown e, Some d))
  /\ exists t : Task,
       fst (useTasks.addTask newId now title category options w) = Ok t
       /\ Task.id t = newId
       /\ useTasks.tasks
            (snd (useTasks.addTask newId now title category options w))
          = useTasks.tasks w ++ [t]
       /\ useTasks.db
            (snd (useTasks.addTask newId now title category options w))
          = Some d.
Proof.
  intros Hdb Hd Hin.
  assert (Hthrow : forall task, Task.id task = newId ->
            taskRepository.insertTask task (Some d)
            = (Thrown "UNIQUE constraint failed: tasks.id", Some d)).
  { intros task Hid.
    unfold taskRepository.insertTask, database.getDatabase, database.run,
      database.saveDatabase, bind, ret, taskRepository.INSERT_INTO_tasks.
    simpl. rewrite Hid, (existsb_row_id_present _ _ Hin). reflexivity. }
  split.
  - intros task Hid. eexists. apply Hthrow, Hid.
  - rewrite addTask_run. eexists. split; [reflexivity|].
    split; [reflexivity|]. cbv beta iota delta [snd]. split.
    + rewrite tasks_mapTasks. reflexivity.
    + rewrite db_mapTasks. unfold withDb, dbAfter. simpl useTasks.db.
      rewrite Hdb, Hd, Hthrow by reflexivity. reflexivity.
Qed.

Lemma insertTask_existing_id_witness :
  In "task_1_milk"
     (map TaskRow.id
        (tasks_table
           (mkDatabase [taskRepository.taskToRow milk;
                        taskRepository.taskToRow eggs] [])))
  /\ map Task.id
       (useTasks.tasks
          (snd (useTasks.addTask "task_1_milk" "2026-01-07T08:00:00.000Z"
                  "Buy bread" today None relationalWorld)))
     = ["task_1_milk"; "task_2_eggs"; "task_1_milk"]
  /\ taskRows
       (useTasks.db
          (snd (useTasks.addTask "task_1_milk" "2026-01-07T08:00:00.000Z"
                  "Buy bread" today None relationalWorld)))
     = [taskRepository.taskToRow milk; taskRepository.taskToRow eggs].
Proof.
  assert (Hin : In "task_1_milk"
                   (map TaskRow.id
                      (tasks_table
                         (mkDatabase [taskRepository.taskToRow milk;
                                      taskRepository.taskToRow eggs] [])))).
  { left. reflexivity. }
  split; [exact Hin|].
  destruct (insertTask_existing_id "task_1_milk" "2026-01-07T08:00:00.000Z"
              "Buy bread" today None relationalWorld _ eq_refl eq_refl Hin)
    as (_ & t & _ & Hid & Htasks & Hdb).
  rewrite Htasks, Hdb. split; [|reflexivity].
  rewrite map_app. simpl. rewrite Hid. reflexivity.
Defined.

Lemma map_unchanged {A : Type} (f : A -> A) (l : list A) :
  (forall x, In x l -> f x = x) -> map f l = l.
Proof.
  induction l as [|x l IH]; simpl; intros H; [reflexivity|].
  rewrite (H x) by auto. rewrite IH; [reflexivity|]. intros y Hy. apply H. auto.
Qed.

(** X4. [updateTask(task)] never throws on an initialised database and
    leaves the projects alone.  When no row has the task's id the database
    is left as it was.  Otherwise the tasks read back afterwards are, up
    to their order, the tasks read back before with each task of that id
    replaced by the task's title, completed flag, category, priority,
    project, due date and order under the [createdAt] that was stored: a
    task with another id is read back exactly when it was before, and no
    task is lost or added. *)
Theorem repo_updateTask_read_back (task : Task) (d : Database) :
  let db' := snd (taskRepository.updateTask task (Some d)) in
  let updated (t0 : Task) : Task :=
    if (Task.id t0 =? Task.id task)%string
    then Task.mk (Task.id t0) (Task.title task) (Task.completed task)
                 (Task.category task) (Task.priority task)
                 (Task.createdAt t0)
                 (or_null (Task.projectId task))
                 (or_null (Task.dueDate task))
                 None None None (Some (or_zero (Task.order task)))
    else t0 in
  fst (taskRepository.updateTask task (Some d)) = Ok tt
  /\ projectRows db' = projects_table d
  /\ (~ In (Task.id task) (map TaskRow.id (tasks_table d)) ->
      db' = Some d)
  /\ Permutation (readTasks db') (map updated (readTasks (Some d)))
  /\ List.length (readTasks db') = List.length (readTasks (Some d))
  /\ (forall t' : Task,
        Task.id t' <> Task.id task ->
        (In t' (readTasks db') <-> In t' (readTasks (Some d))))
  /\ (forall t' : Task,
        In t' (readTasks db') ->
        Task.id t' = Task.id task ->
        t' = withCreatedAt (Task.createdAt t')
               (taskRepository.rowToTask (taskRepository.taskToRow task))
        /\ exists t0, In t0 (readTasks (Some d))
                      /\ Task.id t0 = Task.id task
                      /\ Task.createdAt t0 = Task.createdAt t').
Proof.
  cbv zeta.
  set (updated := fun t0 : Task =>
         if (Task.id t0 =? Task.id task)%string
         then Task.mk (Task.id t0) (Task.title task) (Task.completed task)
                      (Task.category task) (Task.priority task)
                      (Task.createdAt t0)
                      (or_null (Task.projectId task))
                      (or_null (Task.dueDate task))
                      None None None (Some (or_zero (Task.order task)))
         else t0).
  set (upd := fun x : TaskRow.t =>
         if (TaskRow.id x =? Task.id task)%string
         then TaskRow.mk (TaskRow.id x) (Task.title task)
                (if Task.completed task then 1 else 0)
                (Task.category task) (Task.priority task)
                (TaskRow.created_at x)
                (or_null (Task.projectId task))
                (or_null (Task.dueDate task))
                (or_zero (Task.order task))
         else x).
  change (snd (taskRepository.updateTask task (Some d)))
    with (Some (taskRepository.on_tasks (map upd) d)).
  assert (Hrow : forall x,
             taskRepository.rowToTask (upd x)
             = updated (taskRepository.rowToTask x)).
  { intros x. unfold upd, updated. cbn [taskRepository.rowToTask Task.id].
    destruct (TaskRow.id x =? Task.id task)%string; [|reflexivity].
    unfold taskRepository.rowToTask. simpl.
    destruct (Task.completed task); reflexivity. }
  assert (Hperm : Permutation
                    (readTasks (Some (taskRepository.on_tasks (map upd) d)))
                    (map updated (readTasks (Some d)))).
  { rewrite !readTasks_Some. cbn [taskRepository.on_tasks tasks_table].
    apply perm_trans
      with (map taskRepository.rowToTask (map upd (tasks_table d))).
    - apply Permutation_map, sort_by_perm.
    - rewrite map_map.
      rewrite (map_ext _ _ Hrow), <- map_map.
      apply Permutation_map, Permutation_map, Permutation_sym, sort_by_perm. }
  assert (Hother : forall t' : Task,
             Task.id t' <> Task.id task ->
             (In t' (map updated (readTasks (Some d)))
              <-> In t' (readTasks (Some d)))).
  { intros t' Hne. rewrite in_map_iff. split.
    - intros (t0 & Ht0 & Hin). unfold updated in Ht0.
      destruct (Task.id t0 =? Task.id task)%string eqn:E.
      + apply String.eqb_eq in E. subst t'. simpl in Hne. contradiction.
      + subst t'. exact Hin.
    - intros Hin. exists t'. split; [|exact Hin]. unfold updated.
      replace (Task.id t' =? Task.id task)%string with false; [reflexivity|].
      symmetry. apply String.eqb_neq, Hne. }
  split; [reflexivity|]. split; [destruct d; reflexivity|]. split.
  { intros Hnot. unfold taskRepository.on_tasks.
    rewrite map_unchanged; [destruct d; reflexivity|].
    intros x Hx. unfold upd.
    destruct (TaskRow.id x =? Task.id task)%string eqn:E; [|reflexivity].
    apply String.eqb_eq in E. exfalso. apply Hnot. rewrite <- E.
    apply in_map, Hx. }
  split; [exact Hperm|]. split.
  { rewrite (Permutation_length Hperm). apply length_map. }
  split.
  { intros t' Hne. rewrite <- (Hother t' Hne). split; intros Hin.
    - apply (Permutation_in _ Hperm), Hin.
    - apply (Permutation_in _ (Permutation_sym Hperm)), Hin. }
  intros t' Hin Hid.
  apply (Permutation_in _ Hperm) in Hin. apply in_map_iff in Hin.
  destruct Hin as (t0 & Ht0 & Hin). unfold updated in Ht0.
  destruct (Task.id t0 =? Task.id task)%string eqn:E.
  - apply String.eqb_eq in E. subst t'. split.
    + unfold withCreatedAt, taskRepository.rowToTask,
        taskRepository.taskToRow. simpl. rewrite E.
      destruct (Task.completed task); reflexivity.
    + exists t0. split; [exact Hin|]. split; [exact E | reflexivity].
  - subst t'. apply String.eqb_neq in E. contradiction.
Qed.

(** An update of the second of two stored tasks that also moves it to the
    front: both tasks are read back, the first one as it was. *)
Example repo_updateTask_example :
  map (fun t => (Task.id t, Task.title t, Task.order t))
      (readTasks
         (snd (taskRepository.updateTask
                 (Task.mk "task_2_eggs" "Buy a dozen eggs" false today high
                          "2026-02-02T00:00:00.000Z" None None None None
                          None (Some (-1)))
                 (useTasks.db relationalWorld))))
  = [("task_2_eggs", "Buy a dozen eggs", Some (-1));
     ("task_1_milk", "Buy milk", Some 0)].
Proof. reflexivity. Qed.

(** X5. After [deleteTask(id)] the tasks read back are those read before
    without the ones with that id, in the same order; none with that id
    is left. *)
Theorem repo_deleteTask_read_back (id : string) (d : Database) :
  fst (taskRepository.deleteTask id (Some d)) = Ok tt
  /\ readTasks (snd (taskRepository.deleteTask id (Some d)))
     = filter (fun t => negb (Task.id t =? id)%string) (readTasks (Some d))
  /\ ~ In id
       (map Task.id (readTasks (snd (taskRepository.deleteTask id (Some d))))).
Proof.
  split; [reflexivity|].
  assert (Heq : readTasks (snd (taskRepository.deleteTask id (Some d)))
                = filter (fun t => negb (Task.id t =? id)%string)
                         (readTasks (Some d))).
  { change (snd (taskRepository.deleteTask id (Some d)))
      with (Some (taskRepository.on_tasks
                    (filter (fun x => negb (TaskRow.id x =? id)%string)) d)).
    rewrite !readTasks_Some. simpl.
    rewrite sort_by_filter, filter_map_commute. reflexivity. }
  split; [exact Heq|].
  rewrite Heq. intros Hin. apply in_map_iff in Hin.
  destruct Hin as (t & Hid & Ht). apply filter_In in Ht.
  destruct Ht as [_ Hne]. rewrite Hid, String.eqb_refl in Hne.
  discriminate Hne.
Qed.

Lemma withTaskOrder_same (x : TaskRow.t) :
  withTaskOrder (TaskRow.task_order x) x = x.
Proof. destruct x. reflexivity. Qed.

Lemma finalRow_unlisted (ids : list string) :
  forall (i : Z) (x : TaskRow.t),
    ~ In (TaskRow.id x) ids -> finalRow i ids x = x.
Proof.
  induction ids as [|y ids IH]; intros i x H; simpl; [reflexivity|].
  unfold orderedRow.
  destruct (TaskRow.id x =? y)%string eqn:E.
  - apply String.eqb_eq in E. exfalso. apply H. left. symmetry. exact E.
  - apply IH. intros Hin. apply H. right. exact Hin.
Qed.

(** What the updates of [updateTaskOrder] make of one row: only the order
    changes, and a listed row gets a position at which its id stands. *)
Lemma finalRow_spec (ids : list string) :
  forall (i : Z) (x : TaskRow.t),
    exists o : Z,
      finalRow i ids x = withTaskOrder o x
      /\ (~ In (TaskRow.id x) ids -> o = TaskRow.task_order x)
      /\ (In (TaskRow.id x) ids ->
          i <= o < i + Z.of_nat (List.length ids)
          /\ nth_error ids (Z.to_nat (o - i)) = Some (TaskRow.id x)).
Proof.
  induction ids as [|y ids IH]; intros i x.
  - exists (TaskRow.task_order x). simpl.
    split; [symmetry; apply withTaskOrder_same|]. split; [reflexivity|tauto].
  - destruct (IH (i + 1) (orderedRow y i x)) as (o & Hrow & Hout & Hin).
    rewrite orderedRow_id in Hout, Hin.
    exists o. split.
    + simpl. rewrite Hrow. unfold orderedRow.
      destruct (TaskRow.id x =? y)%string; reflexivity.
    + split.
      * intros Hnot. rewrite Hout by (intros H; apply Hnot; right; exact H).
        unfold orderedRow.
        destruct (TaskRow.id x =? y)%string eqn:E; [|reflexivity].
        apply String.eqb_eq in E. exfalso. apply Hnot. left. symmetry.
        exact E.
      * intros Hlisted. cbn [List.length].
        destruct (in_dec string_dec (TaskRow.id x) ids) as [Hi|Hn].
        -- destruct (Hin Hi) as (Hb & Hnth). split; [lia|].
           replace (Z.to_nat (o - i)) with (S (Z.to_nat (o - (i + 1))))
             by lia.
           exact Hnth.
        -- destruct Hlisted as [Hy|Hi]; [|contradiction].
           rewrite (Hout Hn). unfold orderedRow.
           rewrite <- Hy, String.eqb_refl. simpl. split; [lia|].
           replace (i - i) with 0 by lia. reflexivity.
Qed.

(** X6. [updateTaskOrder(category, ids)] never throws on an initialised
    database and changes nothing but [task_order]: every row stays at its
    place with all other columns, a row whose id is not listed keeps its
    order, and a listed row gets a position of its id in the list. *)
Theorem updateTaskOrder_changes_only_order (c : Category)
    (ids : list string) (d : Database) :
  fst (taskRepository.updateTaskOrder c ids (Some d)) = Ok tt
  /\ projectRows (snd (taskRepository.updateTaskOrder c ids (Some d)))
     = projects_table d
  /\ forall (n : nat) (x : TaskRow.t),
       nth_error (tasks_table d) n = Some x ->
       exists o : Z,
         nth_error
           (taskRows (snd (taskRepository.updateTaskOrder c ids (Some d)))) n
         = Some (withTaskOrder o x)
         /\ (~ In (TaskRow.id x) ids -> o = TaskRow.task_order x)
         /\ (In (TaskRow.id x) ids ->
             0 <= o < Z.of_nat (List.length ids)
             /\ nth_error ids (Z.to_nat o) = Some (TaskRow.id x)).
Proof.
  rewrite repo_updateTaskOrder_run. split; [reflexivity|].
  split; [reflexivity|]. intros n x Hnth.
  destruct (finalRow_spec ids 0 x) as (o & Hrow & Hout & Hin).
  exists o. split.
  - simpl. rewrite orderedRows_map, nth_error_map, Hnth. simpl.
    rewrite Hrow. reflexivity.
  - split; [exact Hout|]. intros Hl. destruct (Hin Hl) as (Hb & Hn).
    rewrite Z.sub_0_r in Hn. split; [lia | exact Hn].
Qed.

Lemma updateTaskOrder_changes_only_order_witness :
  nth_error (tasks_table storeWithTies) 1 = Some (taskRepository.taskToRow milk)
  /\ exists o : Z,
       nth_error
         (taskRows
            (snd (taskRepository.updateTaskOrder today
                    ["task_2_eggs"; "task_1_milk"] (Some storeWithTies)))) 1
       = Some (withTaskOrder o (taskRepository.taskToRow milk))
       /\ o = 1.
Proof.
  split; [reflexivity|].
  destruct (updateTaskOrder_changes_only_order today
              ["task_2_eggs"; "task_1_milk"] storeWithTies)
    as (_ & _ & H).
  destruct (H 1%nat (taskRepository.taskToRow milk) eq_refl)
    as (o & Hnth & _ & _).
  exists o. split; [exact Hnth|].
  vm_compute in Hnth. injection Hnth as Ho. symmetry. exact Ho.
Defined.

(** ** The completed column and the task counts *)

Lemma booleanRows_app (r1 r2 : list TaskRow.t) :
  booleanRows r1 -> booleanRows r2 -> booleanRows (r1 ++ r2).
Proof.
  intros H1 H2 x Hx. apply in_app_or in Hx. destruct Hx; auto.
Qed.

Lemma booleanRows_map (f : TaskRow.t -> TaskRow.t) (rows : list TaskRow.t) :
  (forall x, TaskRow.completed x = 0 \/ TaskRow.completed x = 1 ->
             TaskRow.completed (f x) = 0 \/ TaskRow.completed (f x) = 1) ->
  booleanRows rows -> booleanRows (map f rows).
Proof.
  intros Hf H y Hy. apply in_map_iff in Hy. destruct Hy as (x & <- & Hx).
  apply Hf, H, Hx.
Qed.

(** X7. The repository keeps the [completed] column boolean: a freshly
    created store holds only 0 or 1 there, and [insertTask], [updateTask],
    [toggleTask], [deleteTask] and [updateTaskOrder] preserve this. *)
Theorem repository_keeps_completed_boolean (d : Database) (task : Task)
    (id : string) (c : Category) (ids : list string) :
  booleanRows (tasks_table database.createTables)
  /\ (booleanRows (tasks_table d) ->
      booleanRows (taskRows (snd (taskRepository.insertTask task (Some d))))
      /\ booleanRows
           (taskRows (snd (taskRepository.updateTask task (Some d))))
      /\ booleanRows (taskRows (snd (taskRepository.toggleTask id (Some d))))
      /\ booleanRows (taskRows (snd (taskRepository.deleteTask id (Some d))))
      /\ booleanRows
           (taskRows (snd (taskRepository.updateTaskOrder c ids (Some d))))).
Proof.
  split; [intros x []|]. intros H. repeat split.
  - unfold taskRepository.insertTask, database.getDatabase, database.run,
      database.saveDatabase, bind, ret, taskRepository.INSERT_INTO_tasks.
    simpl. destruct (existsb _ _); simpl; [exact H|].
    apply booleanRows_app; [exact H|].
    intros x [<-|[]]. simpl. destruct (Task.completed task); auto.
  - change (taskRows (snd (taskRepository.updateTask task (Some d))))
      with (map (fun x =>
                   if (TaskRow.id x =? Task.id task)%string
                   then TaskRow.mk (TaskRow.id x) (Task.title task)
                          (if Task.completed task then 1 else 0)
                          (Task.category task) (Task.priority task)
                          (TaskRow.created_at x)
                          (or_null (Task.projectId task))
                          (or_null (Task.dueDate task))
                          (or_zero (Task.order task))
                   else x) (tasks_table d)).
    apply booleanRows_map; [|exact H]. intros x Hx.
    destruct (TaskRow.id x =? Task.id task)%string; [|exact Hx].
    simpl. destruct (Task.completed task); auto.
  - rewrite repo_toggleTask_run. simpl.
    apply booleanRows_map; [|exact H]. intros x Hx. unfold toggledRow.
    destruct (TaskRow.id x =? id)%string; [|exact Hx]. simpl.
    unfold sql_not. destruct (TaskRow.completed x =? 0); auto.
  - change (taskRows (snd (taskRepository.deleteTask id (Some d))))
      with (filter (fun x => negb (TaskRow.id x =? id)%string)
                   (tasks_table d)).
    intros x Hx. apply filter_In in Hx. apply H, Hx.
  - rewrite repo_updateTaskOrder_run. simpl. rewrite orderedRows_map.
    apply booleanRows_map; [|exact H]. intros x Hx.
    destruct (finalRow_spec ids 0 x) as (o & -> & _). exact Hx.
Qed.

Lemma repository_keeps_completed_boolean_witness :
  booleanRows (tasks_table storeWithTies)
  /\ booleanRows
       (taskRows
          (snd (taskRepository.toggleTask "task_5_call" (Some storeWithTies)))).
Proof.
  assert (H : booleanRows (tasks_table storeWithTies)).
  { intros x [<-|[<-|[<-|[<-|[]]]]]; simpl; auto. }
  split; [exact H|].
  destruct (repository_keeps_completed_boolean storeWithTies milk
              "task_5_call" today []) as [_ Hp].
  destruct (Hp H) as (_ & _ & Ht & _). exact Ht.
Defined.

Lemma filter_length_perm {A : Type} (p : A -> bool) (l l' : list A) :
  Permutation l l' ->
  List.length (filter p l) = List.length (filter p l').
Proof.
  induction 1 as [|x l l' _ IH|x y l|l l' l'' _ IH1 _ IH2]; simpl.
  - reflexivity.
  - destruct (p x); simpl; rewrite IH; reflexivity.
  - destruct (p x), (p y); reflexivity.
  - rewrite IH1. exact IH2.
Qed.

(** X8. On a store whose [completed] column is boolean, [getTaskCount]
    agrees with what [getAllTasks] reads: [total] is the number of tasks
    and [completed] the number of completed ones, so
    0 <= completed <= total. *)
Theorem getTaskCount_agrees_with_getAllTasks (d : Database) :
  booleanRows (tasks_table d) ->
  exists n : taskRepository.TaskCount,
    taskRepository.getTaskCount (Some d) = (Ok n, Some d)
    /\ taskRepository.total n = Z.of_nat (List.length (readTasks (Some d)))
    /\ taskRepository.completed_count n
       = Z.of_nat (List.length (filter Task.completed (readTasks (Some d))))
    /\ 0 <= taskRepository.completed_count n <= taskRepository.total n.
Proof.
  intros H. eexists. split; [reflexivity|]. simpl.
  rewrite readTasks_Some, length_map, sort_by_length.
  assert (Hc : List.length
                 (filter Task.completed
                    (map taskRepository.rowToTask
                       (sort_by TaskRow.task_order (tasks_table d))))
               = List.length
                   (filter (fun x => TaskRow.completed x =? 1)
                           (tasks_table d))).
  { rewrite filter_map_commute, length_map.
    rewrite (filter_length_perm _ _ _ (sort_by_perm _ _)).
    f_equal. apply filter_ext_in. intros x Hx. simpl. unfold Boolean.
    destruct (H x Hx) as [-> | ->]; reflexivity. }
  split; [reflexivity|]. split; [rewrite Hc; reflexivity|].
  split; [lia|].
  apply inj_le, filter_length_le.
Qed.

Lemma getTaskCount_agrees_with_getAllTasks_witness :
  booleanRows (tasks_table storeWithTies)
  /\ exists n : taskRepository.TaskCount,
       taskRepository.getTaskCount (Some storeWithTies)
       = (Ok n, Some storeWithTies)
       /\ taskRepository.total n = 4
       /\ taskRepository.completed_count n = 2.
Proof.
  assert (H : booleanRows (tasks_table storeWithTies)).
  { intros x [<-|[<-|[<-|[<-|[]]]]]; simpl; auto. }
  split; [exact H|].
  destruct (getTaskCount_agrees_with_getAllTasks storeWithTies H)
    as (n & Hrun & Ht & Hc & _).
  exists n. split; [exact Hrun|]. split; [exact Ht | exact Hc].
Defined.

(** ** Sorting by a text key *)

Lemma ascii_compare_refl (a : Ascii.ascii) : Ascii.compare a a = Eq.
Proof. unfold Ascii.compare. apply N.compare_refl. Qed.

Lemma string_compare_refl (s : string) : String.compare s s = Eq.
Proof.
  induction s as [|a s IH]; simpl; [reflexivity|].
  rewrite ascii_compare_refl. exact IH.
Qed.

Lemma string_compare_lt_trans (a : string) :
  forall b c : string,
    String.compare a b = Lt -> String.compare b c = Lt ->
    String.compare a c = Lt.
Proof.
  induction a as [|x a IH]; intros [|y b] [|z c]; simpl;
    try discriminate; try reflexivity.
  destruct (Ascii.compare x y) eqn:Exy; try discriminate;
    destruct (Ascii.compare y z) eqn:Eyz; try discriminate; intros H1 H2.
  - apply Ascii.compare_eq_iff in Exy, Eyz. subst.
    rewrite ascii_compare_refl. exact (IH b c H1 H2).
  - apply Ascii.compare_eq_iff in Exy. subst. rewrite Eyz. reflexivity.
  - apply Ascii.compare_eq_iff in Eyz. subst. rewrite Exy. reflexivity.
  - unfold Ascii.compare in *. rewrite N.compare_lt_iff in *.
    assert (Hlt : (Ascii.N_of_ascii x < Ascii.N_of_ascii z)%N) by lia.
    apply N.compare_lt_iff in Hlt. rewrite Hlt. reflexivity.
Qed.

Lemma notBefore_trans (a b c : string) :
  notBefore a b -> notBefore b c -> notBefore a c.
Proof.
  unfold notBefore, String.ltb. intros Hab Hbc.
  destruct (String.compare a c) eqn:Eac; try reflexivity. exfalso.
  destruct (String.compare a b) eqn:Eab; try discriminate Hab.
  - apply String.compare_eq_iff in Eab. subst. rewrite Eac in Hbc.
    discriminate Hbc.
  - destruct (String.compare b c) eqn:Ebc; try discriminate Hbc.
    + apply String.compare_eq_iff in Ebc. subst. rewrite Eac in Eab.
      discriminate Eab.
    + rewrite String.compare_antisym in Eab, Ebc.
      destruct (String.compare b a) eqn:Eba; try discriminate Eab.
      destruct (String.compare c b) eqn:Ecb; try discriminate Ebc.
      pose proof (string_compare_lt_trans _ _ _ Ecb Eba) as Hca.
      rewrite String.compare_antisym, Hca in Eac. discriminate Eac.
Qed.

Lemma insert_desc_In {A : Type} (key : A -> string) (x y : A) (l : list A) :
  In y (insert_desc key x l) <-> y = x \/ In y l.
Proof.
  induction l as [|z l IH]; simpl.
  - intuition congruence.
  - destruct (String.ltb (key x) (key z)); simpl; [|intuition congruence].
    rewrite IH. intuition congruence.
Qed.

Lemma sort_desc_In {A : Type} (key : A -> string) (y : A) (l : list A) :
  In y (sort_desc key l) <-> In y l.
Proof.
  induction l as [|x l IH]; simpl; [tauto|].
  rewrite insert_desc_In, IH. intuition congruence.
Qed.

Lemma insert_desc_sorted {A : Type} (key : A -> string) (x : A) (l : list A) :
  StronglySorted notBefore (map key l) ->
  StronglySorted notBefore (map key (insert_desc key x l)).
Proof.
  induction l as [|y l IH]; simpl; intros H.
  - repeat constructor.
  - inversion H as [|a b Hs Hall]; subst.
    destruct (String.ltb (key x) (key y)) eqn:E; simpl.
    + constructor; [apply IH, Hs|].
      apply Forall_forall. intros k Hk. apply in_map_iff in Hk.
      destruct Hk as (z & <- & Hz). apply insert_desc_In in Hz.
      destruct Hz as [->|Hz].
      * unfold notBefore, String.ltb in *.
        rewrite String.compare_antisym.
        destruct (String.compare (key x) (key y)); try discriminate E.
        reflexivity.
      * rewrite Forall_forall in Hall. apply Hall, in_map, Hz.
    + constructor; [exact H|]. constructor; [exact E|].
      rewrite Forall_forall in *. intros k Hk.
      apply (notBefore_trans _ (key y)); [exact E | apply Hall, Hk].
Qed.

Lemma sort_desc_sorted {A : Type} (key : A -> string) (l : list A) :
  StronglySorted notBefore (map key (sort_desc key l)).
Proof.
  induction l as [|x l IH]; simpl; [constructor|].
  apply insert_desc_sorted, IH.
Qed.

Lemma insert_desc_greatest {A : Type} (key : A -> string) (x : A)
    (l : list A) :
  Forall (fun z => notBefore (key x) (key z)) l -> insert_desc key x l = x :: l.
Proof.
  destruct l as [|y l]; simpl; intros H; [reflexivity|].
  inversion H as [|a b Hy _]; subst. unfold notBefore in Hy. rewrite Hy.
  reflexivity.
Qed.

Lemma insert_desc_filter {A : Type} (key : A -> string) (p : A -> bool)
    (x : A) (l : list A) :
  StronglySorted notBefore (map key l) ->
  filter p (insert_desc key x l)
  = if p x then insert_desc key x (filter p l) else filter p l.
Proof.
  induction l as [|y l IH]; simpl; intros Hs.
  - destruct (p x); reflexivity.
  - inversion Hs as [|a b Hs' Hall]; subst.
    destruct (String.ltb (key x) (key y)) eqn:E; simpl.
    + rewrite (IH Hs').
      destruct (p y), (p x); simpl; try rewrite E; reflexivity.
    + destruct (p x) eqn:Px; [|reflexivity].
      symmetry. apply insert_desc_greatest.
      apply Forall_forall. intros z Hz.
      change (In z (filter p (y :: l))) in Hz.
      apply filter_In in Hz. destruct Hz as [[<-|Hz] _]; [exact E|].
      rewrite Forall_forall in Hall.
      apply (notBefore_trans _ (key y)); [exact E|].
      apply Hall, in_map, Hz.
Qed.

Lemma sort_desc_filter {A : Type} (key : A -> string) (p : A -> bool)
    (l : list A) :
  sort_desc key (filter p l) = filter p (sort_desc key l).
Proof.
  induction l as [|x l IH]; simpl; [reflexivity|].
  rewrite insert_desc_filter by apply sort_desc_sorted.
  destruct (p x); simpl; rewrite IH; reflexivity.
Qed.

(** ** projectRepository *)

Lemma rowToProject_projectToRow (p : Project) :
  or_null (Project.deadline p) = Project.deadline p ->
  projectRepository.rowToProject (projectRepository.projectToRow p) = p.
Proof.
  intros H. destruct p. unfold projectRepository.rowToProject,
    projectRepository.projectToRow. simpl in *. rewrite H. reflexivity.
Qed.

Lemma find_project_row_absent (id : string) (rows : list ProjectRow.t) :
  ~ In id (map ProjectRow.id rows) ->
  find_by (fun x => (ProjectRow.id x =? id)%string) rows = None.
Proof.
  induction rows as [|r rows IH]; simpl; intros H; [reflexivity|].
  destruct (ProjectRow.id r =? id)%string eqn:E.
  - apply String.eqb_eq in E. tauto.
  - apply IH. tauto.
Qed.

Lemma find_app_absent {A : Type} (p : A -> bool) (l1 l2 : list A) :
  find p l1 = None -> find p (l1 ++ l2) = find p l2.
Proof.
  induction l1 as [|x l1 IH]; simpl; [reflexivity|].
  destruct (p x); [discriminate|exact IH].
Qed.

(** X9. A project inserted under a fresh id is read back unchanged, in all
    fields, by [getProjectById] and is among the projects that
    [getAllProjects] returns, provided its deadline is absent or not the
    empty text (which is stored as NULL). *)
Theorem insertProject_then_getProjectById (p : Project) (d : Database) :
  ~ In (Project.id p) (map ProjectRow.id (projects_table d)) ->
  or_null (Project.deadline p) = Project.deadline p ->
  fst (projectRepository.insertProject p (Some d)) = Ok tt
  /\ fst (projectRepository.getProjectById (Project.id p)
            (snd (projectRepository.insertProject p (Some d))))
     = Ok (Some p)
  /\ In p (readProjects (snd (projectRepository.insertProject p (Some d)))).
Proof.
  intros Hfresh Hdl. rewrite (repo_insertProject_run p d Hfresh).
  split; [reflexivity|]. split.
  - unfold projectRepository.getProjectById, bind, ret,
      database.getDatabase, find_by. simpl.
    rewrite find_app_absent by (apply find_project_row_absent, Hfresh).
    simpl. rewrite String.eqb_refl. simpl.
    rewrite (rowToProject_projectToRow p Hdl). reflexivity.
  - unfold readProjects, projectRepository.getAllProjects, bind, ret,
      database.getDatabase. simpl.
    rewrite <- (rowToProject_projectToRow p Hdl) at 1.
    apply in_map, sort_desc_In, in_or_app. right. left. reflexivity.
Qed.

Lemma insertProject_then_getProjectById_witness :
  ~ In "p7" (map ProjectRow.id (projects_table storeWithProjects))
  /\ fst (projectRepository.getProjectById "p7"
            (snd (projectRepository.insertProject
                    (Project.mk "p7" "Garden" "Plan the beds" 0 0 0 sage
                                active "2026-02-01T10:00:00.000Z"
                                (Some "2026-03-01") ["home"; "spring"])
                    (Some storeWithProjects))))
     = Ok (Some (Project.mk "p7" "Garden" "Plan the beds" 0 0 0 sage
                            active "2026-02-01T10:00:00.000Z"
                            (Some "2026-03-01") ["home"; "spring"])).
Proof.
  assert (H : ~ In "p7" (map ProjectRow.id (projects_table storeWithProjects))).
  { simpl. intros [H|[H|[H|[]]]]; discriminate H. }
  split; [exact H|].
  apply (insertProject_then_getProjectById
           (Project.mk "p7" "Garden" "Plan the beds" 0 0 0 sage
                       active "2026-02-01T10:00:00.000Z"
                       (Some "2026-03-01") ["home"; "spring"])
           storeWithProjects H eq_refl).
Defined.

Lemma find_filter_other {A : Type} (p q : A -> bool) (l : list A) :
  (forall x, p x = true -> q x = true) ->
  find p (filter q l) = find p l.
Proof.
  intros H. induction l as [|x l IH]; simpl; [reflexivity|].
  destruct (q x) eqn:Q; simpl.
  - destruct (p x); [reflexivity|exact IH].
  - destruct (p x) eqn:P; [|exact IH].
    rewrite (H x P) in Q. discriminate Q.
Qed.

Lemma find_filter_same {A : Type} (p : A -> bool) (l : list A) :
  find p (filter (fun x => negb (p x)) l) = None.
Proof.
  induction l as [|x l IH]; simpl; [reflexivity|].
  destruct (p x) eqn:P; simpl; [exact IH|]. rewrite P. exact IH.
Qed.

(** X10. After [deleteProject(id)], [getProjectById(id)] returns null,
    and every other id is looked up as before. *)
Theorem deleteProject_then_getProjectById (id id' : string) (d : Database) :
  fst (projectRepository.deleteProject id (Some d)) = Ok tt
  /\ fst (projectRepository.getProjectById id
            (snd (projectRepository.deleteProject id (Some d))))
     = Ok None
  /\ (id' <> id ->
      fst (projectRepository.getProjectById id'
             (snd (projectRepository.deleteProject id (Some d))))
      = fst (projectRepository.getProjectById id' (Some d))).
Proof.
  split; [reflexivity|].
  change (snd (projectRepository.deleteProject id (Some d)))
    with (Some (projectRepository.on_projects
                  (filter (fun x => negb (ProjectRow.id x =? id)%string)) d)).
  unfold projectRepository.getProjectById, bind, ret, database.getDatabase,
    find_by. simpl. split.
  - rewrite (find_filter_same (fun x => (ProjectRow.id x =? id)%string)).
    reflexivity.
  - intros Hne. rewrite find_filter_other; [reflexivity|].
    intros x Hx. apply String.eqb_eq in Hx.
    apply negb_true_iff, String.eqb_neq. congruence.
Qed.

Lemma deleteProject_then_getProjectById_witness :
  "demo-1" <> "p1"
  /\ fst (projectRepository.getProjectById "p1"
            (snd (projectRepository.deleteProject "p1"
                    (Some storeWithProjects))))
     = Ok None
  /\ fst (projectRepository.getProjectById "demo-1"
            (snd (projectRepository.deleteProject "p1"
                    (Some storeWithProjects))))
     = Ok (Some (nth 0 defaultProjects exampleProject)).
Proof.
  assert (Hne : "demo-1" <> "p1") by discriminate.
  split; [exact Hne|].
  destruct (deleteProject_then_getProjectById "p1" "demo-1" storeWithProjects)
    as (_ & Hnone & Hother).
  split; [exact Hnone|]. rewrite (Hother Hne). reflexivity.
Defined.

(** X11. [getAllProjects] returns every row once, newest [created_at]
    first, and [getProjectsByStatus(s)] returns exactly the projects of
    [getAllProjects] whose status is [s], in the same order. *)
Theorem getProjectsByStatus_filters_getAllProjects (s : ProjectStatus)
    (db : database.Db) :
  fst (projectRepository.getProjectsByStatus s db)
  = result_map (filter (fun p => ProjectStatus_eqb (Project.status p) s))
               (fst (projectRepository.getAllProjects db))
  /\ StronglySorted notBefore (map Project.createdAt (readProjects db))
  /\ Permutation (readProjects db)
                 (map projectRepository.rowToProject (projectRows db)).
Proof.
  destruct db as [d|].
  - split.
    + unfold projectRepository.getProjectsByStatus,
        projectRepository.getAllProjects, bind, ret. simpl.
      rewrite sort_desc_filter, filter_map_commute. reflexivity.
    + split.
      * unfold readProjects, projectRepository.getAllProjects, bind, ret.
        simpl. rewrite map_map. simpl.
        apply (sort_desc_sorted ProjectRow.created_at).
      * unfold readProjects, projectRepository.getAllProjects, bind, ret.
        simpl. apply Permutation_map.
        induction (projects_table d) as [|x l IH]; simpl; [apply perm_nil|].
        apply perm_trans with (x :: sort_desc ProjectRow.created_at l);
          [|apply perm_skip, IH].
        clear IH. induction (sort_desc ProjectRow.created_at l) as [|y l' IH];
          simpl; [apply Permutation_refl|].
        destruct (String.ltb _ _); [|apply Permutation_refl].
        apply perm_trans with (y :: x :: l'); [|apply perm_swap].
        apply perm_skip, IH.
  - split; [reflexivity|]. split; [constructor | apply perm_nil].
Qed.

(** X12. Deleting a project does not cascade: whatever the mode of the
    project manager, [deleteProject] leaves the tasks table untouched, so
    every task is read back as before, also the tasks that reference the
    deleted project. *)
Theorem deleteProject_does_not_cascade (id : string) (w : useProjects.World) :
  fst (useProjects.deleteProject id w) = Ok tt
  /\ taskRows (useProjects.db (snd (useProjects.deleteProject id w)))
     = taskRows (useProjects.db w)
  /\ readTasks (useProjects.db (snd (useProjects.deleteProject id w)))
     = readTasks (useProjects.db w)
  /\ ~ In id
       (map Project.id
          (useProjects.projects (snd (useProjects.deleteProject id w)))).
Proof.
  destruct (deleteProject_run id w) as [Hok Hprojects].
  split; [exact Hok|].
  assert (Hdb : useProjects.db (snd (useProjects.deleteProject id w))
                = useProjects.db w
                \/ exists d,
                     useProjects.db w = Some d
                     /\ useProjects.db (snd (useProjects.deleteProject id w))
                        = Some (mkDatabase (tasks_table d)
                                  (filter
                                     (fun x =>
                                        negb (ProjectRow.id x =? id)%string)
                                     (projects_table d)))).
  { destruct w as [d [l t b]].
    unfold useProjects.deleteProject, useProjects.setProjects,
      useProjects.setLocalProjects, bind, get.
    simpl. destruct b; simpl.
    - unfold useProjects.projectRepo. rewrite caught_zoom. simpl.
      destruct d as [d|]; [right; exists d; split; reflexivity|left].
      reflexivity.
    - left. reflexivity. }
  split; [|split].
  - destruct Hdb as [->|(d & -> & ->)]; reflexivity.
  - destruct Hdb as [->|(d & -> & ->)]; reflexivity.
  - rewrite Hprojects. intros Hin. apply in_map_iff in Hin.
    destruct Hin as (p & Hid & Hp). apply filter_In in Hp.
    destruct Hp as [_ Hne]. rewrite Hid, String.eqb_refl in Hne.
    discriminate Hne.
Qed.

(** ** useTasks *)

Lemma inCategory_app (C : Category) (l1 l2 : list Task) :
  inCategory C (l1 ++ l2) = inCategory C l1 ++ inCategory C l2.
Proof. apply filter_app. Qed.

Lemma Category_eqb_eq (a b : Category) : Category_eqb a b = true <-> a = b.
Proof. destruct a, b; simpl; split; intros H; congruence. Qed.

(** X13. [addTask] returns a task that is not completed, sits in the given
    category and has as order the number of tasks the category held; the
    task is appended to the collection.  A category whose order values
    were exactly 0..n-1 has exactly 0..n afterwards, and the other
    categories are untouched. *)
Theorem addTask_appends_with_next_order (newId now title : string)
    (category : Category) (options : option useTasks.AddOptions)
    (w : useTasks.World) :
  exists t : Task,
    fst (useTasks.addTask newId now title category options w) = Ok t
    /\ useTasks.tasks
         (snd (useTasks.addTask newId now title category options w))
       = useTasks.tasks w ++ [t]
    /\ Task.id t = newId
    /\ Task.category t = category
    /\ Task.completed t = false
    /\ Task.order t
       = Some (Z.of_nat
                 (List.length (inCategory category (useTasks.tasks w))))
    /\ (denseOrders category (useTasks.tasks w) ->
        denseOrders category (useTasks.tasks w ++ [t]))
    /\ (forall C, C <> category ->
          inCategory C (useTasks.tasks w ++ [t])
          = inCategory C (useTasks.tasks w)).
Proof.
  rewrite addTask_run. eexists. split; [reflexivity|].
  cbv beta iota delta [snd]. rewrite tasks_mapTasks, tasks_withDb.
  split; [reflexivity|]. repeat (split; [reflexivity|]). split.
  - intros Hdense o. unfold orderValues.
    rewrite inCategory_app, map_app, length_app, in_app_iff.
    unfold inCategory at 2 4. simpl.
    replace (Category_eqb category category) with true
      by (destruct category; reflexivity).
    simpl. fold (inCategory category (useTasks.tasks w)).
    fold (orderValues category (useTasks.tasks w)).
    rewrite (Hdense o). split.
    + intros [(k & Hk & Hr)|[H|[]]].
      * exists k. split; [exact Hk | lia].
      * eexists. split; [symmetry; exact H | lia].
    + intros (k & Hk & Hr).
      destruct (Z.eq_dec k
                  (Z.of_nat
                     (List.length (inCategory category (useTasks.tasks w)))))
        as [->|Hne].
      * right. left. symmetry. exact Hk.
      * left. exists k. split; [exact Hk | lia].
  - intros C HC. rewrite inCategory_app. unfold inCategory at 2. simpl.
    destruct (Category_eqb category C) eqn:E.
    + apply Category_eqb_eq in E. congruence.
    + apply app_nil_r.
Qed.

Lemma addTask_appends_with_next_order_witness :
  denseOrders today (useTasks.tasks localWorld)
  /\ exists t : Task,
       fst (useTasks.addTask "task_6_bread" "2026-01-07T08:00:00.000Z"
              "Buy bread" today None localWorld) = Ok t
       /\ Task.order t = Some 2
       /\ denseOrders today (useTasks.tasks localWorld ++ [t]).
Proof.
  assert (Hd : denseOrders today (useTasks.tasks localWorld)).
  { intros o. simpl. split.
    - intros [<-|[<-|[]]]; eexists; (split; [reflexivity | lia]).
    - intros (k & -> & Hk).
      assert (Hk' : k = 0 \/ k = 1) by lia.
      destruct Hk' as [-> | ->]; auto. }
  split; [exact Hd|].
  destruct (addTask_appends_with_next_order "task_6_bread"
              "2026-01-07T08:00:00.000Z" "Buy bread" today None localWorld)
    as (t & Hok & _ & _ & _ & _ & Hord & Hdense & _).
  exists t. split; [exact Hok|]. split; [exact Hord|]. exact (Hdense Hd).
Defined.

(** ** The relational store in step with memory *)

Lemma relationalWorld_mirrors : storeMirrorsMemory relationalWorld.
Proof. split; [reflexivity|]. eexists. split; reflexivity. Qed.

Lemma taskToRow_ids (l : list Task) :
  map TaskRow.id (map taskRepository.taskToRow l) = map Task.id l.
Proof. rewrite map_map. reflexivity. Qed.

Lemma tasks_of_mirror (w : useTasks.World) :
  storeMirrorsMemory w ->
  useTasks.tasks w = useTasks.dbTasks (useTasks.state w).
Proof. intros [H _]. unfold useTasks.tasks. rewrite H. reflexivity. Qed.

(** X14. In relational mode, when the tasks table holds the rows of the
    in-memory tasks, adding a task under an id that is not in the
    collection keeps it so: the new row is appended to the table. *)
Theorem addTask_keeps_store_in_step (newId now title : string)
    (category : Category) (options : option useTasks.AddOptions)
    (w : useTasks.World) :
  storeMirrorsMemory w ->
  ~ In newId (map Task.id (useTasks.tasks w)) ->
  storeMirrorsMemory
    (snd (useTasks.addTask newId now title category options w)).
Proof.
  intros Hm Hfresh. pose proof (tasks_of_mirror w Hm) as Ht.
  destruct Hm as (Hdb & d & Hd & Hrows).
  rewrite addTask_run. cbv beta iota delta [snd].
  destruct w as [d0 [l t b]]. simpl in *. subst b d0.
  unfold mapTasks, withDb, dbAfter. simpl.
  split; [reflexivity|].
  rewrite repo_insertTask_run.
  - eexists. split; [reflexivity|]. simpl.
    rewrite Hrows, map_app. reflexivity.
  - simpl. rewrite Hrows, taskToRow_ids. rewrite <- Ht. exact Hfresh.
Qed.

Lemma addTask_keeps_store_in_step_witness :
  storeMirrorsMemory relationalWorld
  /\ ~ In "task_6_bread" (map Task.id (useTasks.tasks relationalWorld))
  /\ storeMirrorsMemory
       (snd (useTasks.addTask "task_6_bread" "2026-01-07T08:00:00.000Z"
               "Buy bread" today None relationalWorld)).
Proof.
  assert (Hf : ~ In "task_6_bread"
                 (map Task.id (useTasks.tasks relationalWorld))).
  { simpl. intros [H|[H|[]]]; discriminate H. }
  split; [exact relationalWorld_mirrors|]. split; [exact Hf|].
  apply (addTask_keeps_store_in_step "task_6_bread"
           "2026-01-07T08:00:00.000Z" "Buy bread" today None relationalWorld
           relationalWorld_mirrors Hf).
Defined.

Lemma taskToRow_toggled (now id : string) (t : Task) :
  taskRepository.taskToRow (toggled now id t)
  = toggledRow id (taskRepository.taskToRow t).
Proof.
  unfold toggled, toggledRow. simpl.
  destruct (Task.id t =? id)%string; simpl; [|reflexivity].
  unfold taskRepository.taskToRow. simpl.
  destruct (Task.completed t); reflexivity.
Qed.

(** X15. [toggleTask] keeps the store in step with memory: the flip made
    in memory and the [NOT completed] made on the row agree. *)
Theorem toggleTask_keeps_store_in_step (now id : string)
    (w : useTasks.World) :
  storeMirrorsMemory w ->
  storeMirrorsMemory (snd (useTasks.toggleTask now id w)).
Proof.
  intros (Hdb & d & Hd & Hrows).
  rewrite toggleTask_run. cbv beta iota delta [snd].
  destruct w as [d0 [l t b]]. simpl in *. subst b d0.
  unfold mapTasks, withDb, dbAfter.
  cbn [useTasks.db useTasks.state useTasks.useDb useTasks.localTasks
       useTasks.dbTasks].
  split; [reflexivity|].
  rewrite repo_toggleTask_run.
  eexists. split; [reflexivity|]. simpl.
  rewrite Hrows, !map_map. apply map_ext. intros x.
  symmetry. apply taskToRow_toggled.
Qed.

Lemma toggleTask_keeps_store_in_step_witness :
  storeMirrorsMemory relationalWorld
  /\ storeMirrorsMemory
       (snd (useTasks.toggleTask "2026-01-05T10:00:00.000Z" "task_1_milk"
               relationalWorld)).
Proof.
  split; [exact relationalWorld_mirrors|].
  apply (toggleTask_keeps_store_in_step "2026-01-05T10:00:00.000Z"
           "task_1_milk" relationalWorld relationalWorld_mirrors).
Defined.

(** X16. [deleteTask] keeps the store in step with memory, and afterwards
    the id is neither in the collection nor in the table. *)
Theorem deleteTask_keeps_store_in_step (id : string) (w : useTasks.World) :
  storeMirrorsMemory w ->
  storeMirrorsMemory (snd (useTasks.deleteTask id w))
  /\ ~ In id (map Task.id (useTasks.tasks (snd (useTasks.deleteTask id w))))
  /\ ~ In id
       (map TaskRow.id
          (taskRows (useTasks.db (snd (useTasks.deleteTask id w))))).
Proof.
  intros (Hdb & d & Hd & Hrows).
  rewrite deleteTask_run. cbv beta iota delta [snd].
  destruct w as [d0 [l t b]]. simpl in *. subst b d0.
  unfold mapTasks, withDb, dbAfter, useTasks.tasks. simpl.
  assert (Hgone : ~ In id
                    (map Task.id
                       (filter (fun task => negb (Task.id task =? id)%string)
                               t))).
  { intros Hin. apply in_map_iff in Hin. destruct Hin as (x & Hid & Hx).
    apply filter_In in Hx. destruct Hx as [_ Hne].
    rewrite Hid, String.eqb_refl in Hne. discriminate Hne. }
  assert (Hfilter :
            filter (fun x => negb (TaskRow.id x =? id)%string) (tasks_table d)
            = map taskRepository.taskToRow
                  (filter (fun task => negb (Task.id task =? id)%string) t)).
  { rewrite Hrows, filter_map_commute. reflexivity. }
  split; [|split].
  - split; [reflexivity|]. eexists. split; [reflexivity|]. exact Hfilter.
  - exact Hgone.
  - rewrite Hfilter, taskToRow_ids. exact Hgone.
Qed.

Lemma deleteTask_keeps_store_in_step_witness :
  storeMirrorsMemory relationalWorld
  /\ taskRows
       (useTasks.db (snd (useTasks.deleteTask "task_1_milk" relationalWorld)))
     = [taskRepository.taskToRow eggs]
  /\ useTasks.tasks (snd (useTasks.deleteTask "task_1_milk" relationalWorld))
     = [eggs].
Proof.
  split; [exact relationalWorld_mirrors|].
  destruct (deleteTask_keeps_store_in_step "task_1_milk" relationalWorld
              relationalWorld_mirrors) as (_ & _ & _).
  split; reflexivity.
Defined.

Lemma find_updatedTasks (id : string) (u : TaskUpdates.t) (l : list Task) :
  TaskUpdates.id u = None ->
  find_by (fun t => (Task.id t =? id)%string) (updatedTasks id u l)
  = option_map (fun t => spreadTask t u)
               (find_by (fun t => (Task.id t =? id)%string) l).
Proof.
  intros Hu. induction l as [|t l IH]; simpl; [reflexivity|].
  destruct (Task.id t =? id)%string eqn:E; simpl.
  - rewrite Hu. simpl. rewrite E. reflexivity.
  - rewrite E. exact IH.
Qed.

Lemma NoDup_ids_unique (l : list Task) (a b : Task) :
  NoDup (map Task.id l) -> In a l -> In b l -> Task.id a = Task.id b -> a = b.
Proof.
  induction l as [|x l IH]; simpl; intros Hnd Ha Hb Hid; [contradiction|].
  inversion Hnd as [|y ys Hnotin Hnd']; subst.
  destruct Ha as [->|Ha], Hb as [->|Hb].
  - reflexivity.
  - exfalso. apply Hnotin. rewrite Hid. apply in_map, Hb.
  - exfalso. apply Hnotin. rewrite <- Hid. apply in_map, Ha.
  - apply IH; assumption.
Qed.

(** The world after [updateTask] in relational mode. *)
Lemma updateTask_world (id : string) (u : TaskUpdates.t)
    (d : database.Db) (l t : list Task) :
  snd (useTasks.updateTask id u
         (useTasks.mkWorld d (useTasks.mkState l t true)))
  = useTasks.mkWorld
      (match find_by (fun x => (Task.id x =? id)%string)
                     (updatedTasks id u t) with
       | Some updatedTask =>
           snd (taskRepository.updateTask updatedTask d)
       | None => d
       end)
      (useTasks.mkState l (updatedTasks id u t) true).
Proof.
  unfold useTasks.updateTask, useTasks.setTasks, bind, get. simpl.
  fold (updatedTasks id u t).
  destruct (find_by _ (updatedTasks id u t)) as [p|]; [|reflexivity].
  unfold useTasks.taskRepo. rewrite caught_zoom. reflexivity.
Qed.

(** X17. [updateTask] keeps the store in step with memory when the ids of
    the collection are pairwise distinct and the update touches neither
    [id] nor [createdAt] (the two columns the UPDATE statement does not
    write). *)
Theorem updateTask_keeps_store_in_step (id : string) (u : TaskUpdates.t)
    (w : useTasks.World) :
  storeMirrorsMemory w ->
  NoDup (map Task.id (useTasks.tasks w)) ->
  TaskUpdates.id u = None ->
  TaskUpdates.createdAt u = None ->
  storeMirrorsMemory (snd (useTasks.updateTask id u w))
  /\ useTasks.tasks (snd (useTasks.updateTask id u w))
     = updatedTasks id u (useTasks.tasks w).
Proof.
  intros Hm Hnd Hid Hca. pose proof (tasks_of_mirror w Hm) as Ht.
  destruct Hm as (Hdb & d & Hd & Hrows).
  destruct w as [d0 [l t b]]. simpl in *. subst b d0.
  rewrite updateTask_world. unfold useTasks.tasks in *. simpl in *.
  split; [|reflexivity]. split; [reflexivity|]. simpl.
  rewrite (find_updatedTasks id u t Hid).
  destruct (find_by (fun x => (Task.id x =? id)%string) t) as [t0|] eqn:F;
    simpl.
  - apply find_some in F. destruct F as [Ht0 Hid0].
    apply String.eqb_eq in Hid0.
    eexists. split; [reflexivity|]. simpl.
    rewrite Hrows, map_map. unfold updatedTasks. rewrite map_map.
    apply map_ext_in. intros a Ha. simpl.
    replace (override (Task.id t0) (TaskUpdates.id u)) with (Task.id t0)
      by (rewrite Hid; reflexivity).
    rewrite Hid0.
    destruct (Task.id a =? id)%string eqn:E; [|reflexivity].
    apply String.eqb_eq in E.
    assert (Ha0 : a = t0).
    { apply (NoDup_ids_unique t); try assumption. congruence. }
    subst a. unfold taskRepository.taskToRow, spreadTask. simpl.
    rewrite Hid, Hca. reflexivity.
  - exists d. split; [reflexivity|].
    rewrite Hrows. f_equal. symmetry. apply updatedTasks_unknown.
    intros Hin. apply in_map_iff in Hin. destruct Hin as (a & Ha & Hain).
    pose proof (find_none _ _ F a Hain) as Hf. simpl in Hf.
    rewrite Ha, String.eqb_refl in Hf. discriminate Hf.
Qed.

Lemma updateTask_keeps_store_in_step_witness :
  storeMirrorsMemory relationalWorld
  /\ NoDup (map Task.id (useTasks.tasks relationalWorld))
  /\ storeMirrorsMemory
       (snd (useTasks.updateTask "task_2_eggs"
               (TaskUpdates.mk None (Some "Buy a dozen eggs") None (Some week)
                               (Some high) None (Some (Some "p1")) None None
                               None None None)
               relationalWorld)).
Proof.
  assert (Hnd : NoDup (map Task.id (useTasks.tasks relationalWorld))).
  { simpl. repeat constructor; simpl; intuition discriminate. }
  split; [exact relationalWorld_mirrors|]. split; [exact Hnd|].
  apply (updateTask_keeps_store_in_step "task_2_eggs"
           (TaskUpdates.mk None (Some "Buy a dozen eggs") None (Some week)
                           (Some high) None (Some (Some "p1")) None None
                           None None None)
           relationalWorld relationalWorld_mirrors Hnd eq_refl eq_refl).
Defined.

(** ** Errors never reach the caller *)

Lemma try_catch_setUseDb (body : M useTasks.World unit) (w : useTasks.World) :
  fst (try_catch body (fun _ => useTasks.setUseDb false) w) = Ok tt.
Proof.
  unfold try_catch. destruct (body w) as [[[]|e] s]; reflexivity.
Qed.

Lemma task_loadEffect_ok (dbReady : bool) (w : useTasks.World) :
  fst (useTasks.loadEffect dbReady w) = Ok tt.
Proof.
  unfold useTasks.loadEffect, bind at 1, get.
  destruct (dbReady && database.isDatabaseInitialized (useTasks.db w));
    [apply try_catch_setUseDb | reflexivity].
Qed.

Lemma project_loadEffect_ok (dbReady : bool) (w : useProjects.World) :
  fst (useProjects.loadEffect dbReady w) = Ok tt.
Proof.
  unfold useProjects.loadEffect, bind at 1, get.
  destruct (dbReady && database.isDatabaseInitialized (useProjects.db w));
    [|reflexivity].
  unfold try_catch.
  match goal with |- fst (match ?b with _ => _ end) = _ =>
    destruct b as [[[]|e] s] end; reflexivity.
Qed.

Lemma addProject_ok (newId now name description : string)
    (options : option useProjects.AddOptions) (w : useProjects.World) :
  exists p, fst (useProjects.addProject newId now name description options w)
            = Ok p
            /\ useProjects.projects
                 (snd (useProjects.addProject newId now name description
                         options w))
               = useProjects.projects w ++ [p]
            /\ Project.id p = newId
            /\ Project.progress p = 0
            /\ Project.status p = active.
Proof.
  destruct w as [d [l t b]].
  unfold useProjects.addProject, useProjects.setProjects,
    useProjects.setLocalProjects, useProjects.projects, bind, get.
  simpl. destruct b; simpl.
  - unfold useProjects.projectRepo. rewrite caught_zoom. simpl.
    eexists. repeat split; reflexivity.
  - unfold try_catch, bind, get, ret. simpl.
    eexists. repeat split; reflexivity.
Qed.

(** X18. No operation of the two managers throws, whatever the state: in
    relational mode every repository error (database not initialised,
    constraint violated) is caught inside the operation, and the load
    effect catches what the migration raises. *)
Theorem managers_never_throw
    (wt : useTasks.World) (wp : useProjects.World)
    (id now title name description : string) (category : Category)
    (topts : option useTasks.AddOptions)
    (popts : option useProjects.AddOptions)
    (ut : TaskUpdates.t) (up : ProjectUpdates.t) (l : list Task)
    (projectId : option string) (c t : Z) (s : ProjectStatus)
    (dbReady : bool) (toDateString : string -> string) (day : string) :
  (exists x, fst (useTasks.addTask id now title category topts wt) = Ok x)
  /\ fst (useTasks.toggleTask now id wt) = Ok tt
  /\ fst (useTasks.deleteTask id wt) = Ok tt
  /\ fst (useTasks.updateTask id ut wt) = Ok tt
  /\ fst (useTasks.linkTaskToProject id projectId wt) = Ok tt
  /\ fst (useTasks.reorderTasks category l wt) = Ok tt
  /\ fst (useTasks.loadEffect dbReady wt) = Ok tt
  /\ fst (useTasks.resetRecurringEffect toDateString day wt) = Ok tt
  /\ (exists x,
        fst (useProjects.addProject id now name description popts wp) = Ok x)
  /\ fst (useProjects.updateProject id up wp) = Ok tt
  /\ fst (useProjects.deleteProject id wp) = Ok tt
  /\ fst (useProjects.updateProgress id c t wp) = Ok tt
  /\ fst (useProjects.changeStatus id s wp) = Ok tt
  /\ fst (useProjects.loadEffect dbReady wp) = Ok tt.
Proof.
  split; [rewrite addTask_run; eexists; reflexivity|].
  split; [rewrite toggleTask_run; reflexivity|].
  split; [rewrite deleteTask_run; reflexivity|].
  split; [apply updateTask_run|].
  split; [apply updateTask_run|].
  split; [rewrite reorderTasks_run; reflexivity|].
  split; [apply task_loadEffect_ok|].
  split; [rewrite resetRecurringEffect_run; reflexivity|].
  split.
  { destruct (addProject_ok id now name description popts wp) as (p & H & _).
    exists p. exact H. }
  split; [apply updateProject_run|].
  split; [apply deleteProject_run|].
  split; [apply updateProgress_run|].
  split; [apply updateProject_run|].
  apply project_loadEffect_ok.
Qed.

(** ** The load effect on a localStorage list with a repeated id *)

Lemma forEach_from_app {St A : Type} (f : A -> Z -> M St unit)
    (l1 l2 : list A) :
  forall (i : Z) (s : St),
    forEach_from f i (l1 ++ l2) s
    = bind (forEach_from f i l1)
           (fun _ => forEach_from f (i + Z.of_nat (List.length l1)) l2) s.
Proof.
  induction l1 as [|x l1 IH]; intros i s.
  - simpl. unfold bind, ret. rewrite Z.add_0_r. reflexivity.
  - cbn [app forEach_from List.length]. unfold bind.
    destruct (f x i s) as [[[]|e] s']; [|reflexivity].
    rewrite IH. unfold bind.
    replace (i + 1 + Z.of_nat (List.length l1))
      with (i + Z.of_nat (Datatypes.S (List.length l1))) by lia.
    reflexivity.
Qed.

(** X19. When the relational store is empty and the localStorage list
    repeats an id, the load effect inserts the tasks before the repetition,
    catches the constraint error and stays in localStorage mode with the
    list unchanged.  The store is then no longer empty, so the next run of
    the effect switches to relational mode and shows only the tasks that
    were inserted. *)
Theorem loadEffect_repeated_id_falls_back (w : useTasks.World)
    (d : Database) (pre post : list Task) (t : Task) :
  useTasks.db w = Some d ->
  tasks_table d = [] ->
  useTasks.localTasks (useTasks.state w) = pre ++ t :: post ->
  NoDup (map Task.id pre) ->
  In (Task.id t) (map Task.id pre) ->
  let w1 := snd (useTasks.loadEffect true w) in
  let w2 := snd (useTasks.loadEffect true w1) in
  fst (useTasks.loadEffect true w) = Ok tt
  /\ useTasks.useDb (useTasks.state w1) = false
  /\ useTasks.localTasks (useTasks.state w1) = pre ++ t :: post
  /\ taskRows (useTasks.db w1) = map taskRepository.taskToRow pre
  /\ useTasks.useDb (useTasks.state w2) = true
  /\ useTasks.tasks w2 = readTasks (useTasks.db w1)
  /\ (List.length (useTasks.tasks w2) < List.length (pre ++ t :: post))%nat.
Proof.
  intros Hdb Hrows Hlocal Hnd Hdup. cbv zeta.
  split; [apply task_loadEffect_ok|].
  assert (Hrun : useTasks.loadEffect true w
                 = (Ok tt,
                    useTasks.mkWorld
                      (Some (mkDatabase (map taskRepository.taskToRow pre)
                                        (projects_table d)))
                      (useTasks.mkState (pre ++ t :: post)
                         (useTasks.dbTasks (useTasks.state w)) false))).
  { destruct w as [d0 [l dt b]]. simpl in *. subst d0 l.
    unfold useTasks.loadEffect, bind at 1, get. simpl.
    unfold try_catch, bind at 1. unfold useTasks.taskRepo at 1, zoom.
    simpl useTasks.db. rewrite repo_getAllTasks_run. cbv beta iota.
    rewrite length_map, sort_by_length, Hrows.
    assert (Hlen : (0 <? List.length (pre ++ t :: post))%nat = true).
    { apply Nat.ltb_lt. rewrite length_app. simpl. lia. }
    cbn [Datatypes.length useTasks.state useTasks.localTasks].
    replace (0 <? 0)%nat with false by reflexivity. rewrite Hlen.
    unfold bind at 1, forEach. rewrite forEach_from_app. unfold bind at 1.
    rewrite forEach_insertTask;
      [|exact Hnd | intros t' _; rewrite Hrows; simpl; tauto].
    rewrite Hrows. cbn [app forEach_from]. unfold bind at 1.
    unfold useTasks.taskRepo at 1, zoom. simpl useTasks.db.
    unfold taskRepository.insertTask, database.getDatabase, database.run,
      database.saveDatabase, bind, ret, taskRepository.INSERT_INTO_tasks.
    simpl. rewrite existsb_row_id_present
      by (rewrite taskToRow_ids; exact Hdup).
    reflexivity. }
  rewrite Hrun. cbv beta iota delta [snd].
  split; [reflexivity|]. split; [reflexivity|]. split; [reflexivity|].
  assert (Hne : map taskRepository.taskToRow pre <> []).
  { destruct pre; [contradiction | discriminate]. }
  rewrite (loadEffect_skips
             (useTasks.mkWorld
                (Some (mkDatabase (map taskRepository.taskToRow pre)
                                  (projects_table d))) _)
             (mkDatabase (map taskRepository.taskToRow pre)
                         (projects_table d)) eq_refl Hne).
  cbv beta iota delta [snd]. split; [reflexivity|].
  split; [reflexivity|].
  unfold useTasks.tasks. simpl.
  rewrite length_map, sort_by_length, length_map, length_app. simpl. lia.
Qed.

Lemma loadEffect_repeated_id_falls_back_witness :
  In (Task.id milkAgain) (map Task.id [milk])
  /\ useTasks.useDb
       (useTasks.state (snd (useTasks.loadEffect true duplicateIdWorld)))
     = false
  /\ taskRows (useTasks.db (snd (useTasks.loadEffect true duplicateIdWorld)))
     = [taskRepository.taskToRow milk]
  /\ map Task.title
       (useTasks.tasks
          (snd (useTasks.loadEffect true
                  (snd (useTasks.loadEffect true duplicateIdWorld)))))
     = ["Buy milk"].
Proof.
  assert (Hdup : In (Task.id milkAgain) (map Task.id [milk])).
  { left. reflexivity. }
  assert (Hnd : NoDup (map Task.id [milk])).
  { simpl. repeat constructor. simpl. tauto. }
  split; [exact Hdup|].
  destruct (loadEffect_repeated_id_falls_back duplicateIdWorld
              database.createTables [milk] [eggs] milkAgain
              eq_refl eq_refl eq_refl Hnd Hdup)
    as (_ & Hmode & _ & Hrows & _ & Htasks & _).
  split; [exact Hmode|]. split; [exact Hrows|].
  rewrite Htasks. reflexivity.
Defined.

(** ** Reordering and the category views *)

Lemma inCategory_other_filter (C C' : Category) (l : list Task) :
  C' <> C ->
  inCategory C'
    (filter (fun t => negb (Category_eqb (Task.category t) C)) l)
  = inCategory C' l.
Proof.
  intros Hne. induction l as [|t l IH]; simpl; [reflexivity|].
  destruct (Category_eqb (Task.category t) C) eqn:E; simpl.
  - apply Category_eqb_eq in E.
    destruct (Category_eqb (Task.category t) C') eqn:E'; [|exact IH].
    apply Category_eqb_eq in E'. congruence.
  - destruct (Category_eqb (Task.category t) C'); rewrite IH; reflexivity.
Qed.

Lemma inCategory_none (C C' : Category) (l : list Task) :
  C' <> C -> (forall t, In t l -> Task.category t = C) ->
  inCategory C' l = [].
Proof.
  intros Hne H. induction l as [|t l IH]; simpl; [reflexivity|].
  destruct (Category_eqb (Task.category t) C') eqn:E.
  - apply Category_eqb_eq in E. rewrite (H t) in E by (left; reflexivity).
    congruence.
  - apply IH. intros t' Ht'. apply H. right. exact Ht'.
Qed.

Lemma withIndexOrder_category (l : list Task) :
  forall i t, In t (useTasks.withIndexOrder i l) ->
              exists t0, In t0 l /\ Task.category t = Task.category t0.
Proof.
  induction l as [|x l IH]; intros i t; simpl; [tauto|].
  intros [<-|H].
  - exists x. split; [left; reflexivity | reflexivity].
  - destruct (IH _ _ H) as (t0 & Ht0 & Hc). exists t0. auto.
Qed.

Lemma withIndexOrder_ids (l : list Task) :
  forall i, map Task.id (useTasks.withIndexOrder i l) = map Task.id l.
Proof.
  induction l as [|x l IH]; intros i; simpl; [|rewrite IH]; reflexivity.
Qed.

(** X20. [reorderTasks(C, list)], for a list of tasks of category [C],
    leaves the tasks of every other category as they are and makes the
    list the whole content of [C] in memory: a task of [C] that is not
    listed is no longer in the collection, although no row is removed from
    the store. *)
Theorem reorderTasks_replaces_category (C : Category)
    (reorderedTasks : list Task) (w : useTasks.World) :
  (forall t, In t reorderedTasks -> Task.category t = C) ->
  let w' := snd (useTasks.reorderTasks C reorderedTasks w) in
  (forall C', C' <> C ->
     inCategory C' (useTasks.tasks w') = inCategory C' (useTasks.tasks w))
  /\ map Task.id (inCategory C (useTasks.tasks w'))
     = map Task.id reorderedTasks
  /\ List.length (taskRows (useTasks.db w'))
     = List.length (taskRows (useTasks.db w)).
Proof.
  intros Hcat. cbv zeta. split; [|split].
  - intros C' Hne. rewrite reorderTasks_run. cbv beta iota delta [snd].
    rewrite tasks_mapTasks, tasks_withDb, inCategory_app.
    rewrite (inCategory_other_filter C C' _ Hne).
    rewrite (inCategory_none C C' (useTasks.withIndexOrder 0 reorderedTasks));
      [apply app_nil_r | exact Hne|].
    intros t Ht. destruct (withIndexOrder_category _ _ _ Ht) as (t0 & H0 & ->).
    apply Hcat, H0.
  - rewrite (reorderTasks_inCategory C reorderedTasks w Hcat).
    apply withIndexOrder_ids.
  - rewrite reorderTasks_run. cbv beta iota delta [snd].
    rewrite db_mapTasks. unfold withDb, dbAfter. simpl useTasks.db.
    destruct (useTasks.useDb (useTasks.state w)); [|reflexivity].
    destruct (useTasks.db w) as [d|]; [|reflexivity].
    rewrite repo_updateTaskOrder_run. simpl.
    rewrite orderedRows_map, length_map. reflexivity.
Qed.

Lemma reorderTasks_replaces_category_witness :
  (forall t, In t [eggs] -> Task.category t = today)
  /\ map Task.id
       (inCategory today
          (useTasks.tasks
             (snd (useTasks.reorderTasks today [eggs] mixedWorld))))
     = ["task_2_eggs"]
  /\ inCategory week
       (useTasks.tasks (snd (useTasks.reorderTasks today [eggs] mixedWorld)))
     = [report]
  /\ List.length
       (taskRows
          (useTasks.db (snd (useTasks.reorderTasks today [eggs] mixedWorld))))
     = 3%nat.
Proof.
  assert (Hcat : forall t, In t [eggs] -> Task.category t = today).
  { intros t [<-|[]]. reflexivity. }
  split; [exact Hcat|].
  destruct (reorderTasks_replaces_category today [eggs] mixedWorld Hcat)
    as (Hother & Hids & Hlen).
  split; [exact Hids|]. split; [|exact Hlen].
  rewrite (Hother week); [reflexivity | discriminate].
Defined.

Lemma sort_by_sorted_id {A : Type} (key : A -> Z) (l : list A) :
  StronglySorted Z.le (map key l) -> sort_by key l = l.
Proof.
  induction l as [|x l IH]; simpl; intros H; [reflexivity|].
  inversion H as [|a b Hs Hall]; subst.
  rewrite (IH Hs). apply insert_by_least.
  rewrite Forall_forall in *. intros z Hz. apply Hall, in_map, Hz.
Qed.

Lemma withIndexOrder_keys_from (l : list Task) :
  forall i k,
    In k (map (fun t => or_zero (Task.order t)) (useTasks.withIndexOrder i l))
    -> i <= k.
Proof.
  induction l as [|x l IH]; intros i k; simpl; [tauto|].
  intros [<-|H]; [lia|]. apply IH in H. lia.
Qed.

Lemma withIndexOrder_sorted (l : list Task) :
  forall i,
    StronglySorted Z.le
      (map (fun t => or_zero (Task.order t)) (useTasks.withIndexOrder i l)).
Proof.
  induction l as [|x l IH]; intros i; simpl; constructor; [apply IH|].
  apply Forall_forall. intros k Hk. apply withIndexOrder_keys_from in Hk.
  lia.
Qed.

(** X21. The category view [getTasksByCategory(C)] of the task manager
    shows every task of [C] once, in ascending order of [order]; right
    after [reorderTasks(C, list)], with a list of tasks of [C], it shows
    the list in exactly the order given, numbered from 0. *)
Theorem getTasksByCategory_view (C : Category) (reorderedTasks : list Task)
    (w : useTasks.World) :
  Permutation (useTasks.getTasksByCategory C w)
              (inCategory C (useTasks.tasks w))
  /\ StronglySorted Z.le
       (map (fun t => or_zero (Task.order t))
            (useTasks.getTasksByCategory C w))
  /\ ((forall t, In t reorderedTasks -> Task.category t = C) ->
      useTasks.getTasksByCategory C
        (snd (useTasks.reorderTasks C reorderedTasks w))
      = useTasks.withIndexOrder 0 reorderedTasks).
Proof.
  split; [apply sort_by_perm|]. split; [apply sort_by_sorted|].
  intros Hcat. unfold useTasks.getTasksByCategory.
  fold (inCategory C
          (useTasks.tasks (snd (useTasks.reorderTasks C reorderedTasks w)))).
  rewrite (reorderTasks_inCategory C reorderedTasks w Hcat).
  apply sort_by_sorted_id, withIndexOrder_sorted.
Qed.

Lemma getTasksByCategory_view_witness :
  (forall t, In t [eggs; milk] -> Task.category t = today)
  /\ map (fun t => (Task.title t, Task.order t))
         (useTasks.getTasksByCategory today
            (snd (useTasks.reorderTasks today [eggs; milk] localWorld)))
     = [("Buy eggs", Some 0); ("Buy milk", Some 1)].
Proof.
  assert (Hcat : forall t, In t [eggs; milk] -> Task.category t = today).
  { intros t [<-|[<-|[]]]; reflexivity. }
  split; [exact Hcat|].
  destruct (getTasksByCategory_view today [eggs; milk] localWorld)
    as (_ & _ & H).
  rewrite (H Hcat). reflexivity.
Defined.

(** ** Linking tasks to projects *)

Lemma spreadTask_linkUpdate (p : option string) (t : Task) :
  spreadTask t (linkUpdate p) = withProjectId p t.
Proof. reflexivity. Qed.

(** X22. After [linkTaskToProject(taskId, projectId)] the task is among
    the tasks that [getTasksByProject(projectId)] returns, with all other
    fields as before; after [linkTaskToProject(taskId, undefined)] no task
    with that id is returned for any project. *)
Theorem linkTaskToProject_then_getTasksByProject (taskId projectId : string)
    (w : useTasks.World) (i : nat) (t : Task) :
  nth_error (useTasks.tasks w) i = Some t ->
  Task.id t = taskId ->
  In (withProjectId (Some projectId) t)
     (useTasks.getTasksByProject projectId
        (snd (useTasks.linkTaskToProject taskId (Some projectId) w)))
  /\ forall p : string,
       ~ In taskId
           (map Task.id
              (useTasks.getTasksByProject p
                 (snd (useTasks.linkTaskToProject taskId None w)))).
Proof.
  intros Hnth Hid. split.
  - unfold useTasks.getTasksByProject, useTasks.linkTaskToProject.
    destruct (updateTask_run taskId (linkUpdate (Some projectId)) w)
      as (_ & Htasks & _).
    fold (linkUpdate (Some projectId)). rewrite Htasks.
    apply filter_In. split.
    + unfold updatedTasks. apply in_map_iff. exists t. split.
      * replace (Task.id t =? taskId)%string with true
          by (symmetry; apply String.eqb_eq; exact Hid).
        apply spreadTask_linkUpdate.
      * eapply nth_error_In, Hnth.
    + simpl. apply String.eqb_refl.
  - intros p Hin.
    unfold useTasks.getTasksByProject, useTasks.linkTaskToProject in Hin.
    destruct (updateTask_run taskId (linkUpdate None) w) as (_ & Htasks & _).
    fold (linkUpdate None) in Hin. rewrite Htasks in Hin.
    apply in_map_iff in Hin. destruct Hin as (x & Hx & Hxin).
    apply filter_In in Hxin. destruct Hxin as [Hxin Hp].
    unfold updatedTasks in Hxin. apply in_map_iff in Hxin.
    destruct Hxin as (y & Hy & _).
    destruct (Task.id y =? taskId)%string eqn:E.
    + rewrite <- Hy in Hp. simpl in Hp. discriminate Hp.
    + subst x. apply String.eqb_neq in E. contradiction.
Qed.

Lemma linkTaskToProject_then_getTasksByProject_witness :
  nth_error (useTasks.tasks relationalWorld) 0 = Some milk
  /\ In (withProjectId (Some "p1") milk)
        (useTasks.getTasksByProject "p1"
           (snd (useTasks.linkTaskToProject "task_1_milk" (Some "p1")
                   relationalWorld))).
Proof.
  split; [reflexivity|].
  apply (linkTaskToProject_then_getTasksByProject "task_1_milk" "p1"
           relationalWorld 0 milk eq_refl eq_refl).
Defined.

(** ** useProjects *)

(** [changeStatus(id, s)] sets the status of the project with that id
    and nothing else: its progress and counts stay, so any status can
    stand next to any progress; projects with another id are untouched. *)
Theorem changeStatus_sets_only_status (id : string) (s : ProjectStatus)
    (w : useProjects.World) (i : nat) (p : Project) :
  nth_error (useProjects.projects w) i = Some p ->
  nth_error (useProjects.projects (snd (useProjects.changeStatus id s w))) i
  = Some (if (Project.id p =? id)%string then withStatus s p else p).
Proof.
  intros Hnth. unfold useProjects.changeStatus.
  destruct (updateProject_run id
              (ProjectUpdates.mk None None None None None None None (Some s)
                                 None None None) w) as (_ & -> & _).
  unfold updatedProjects. rewrite nth_error_map, Hnth. simpl.
  destruct (Project.id p =? id)%string; reflexivity.
Qed.

Lemma changeStatus_sets_only_status_witness :
  nth_error (useProjects.projects exampleProjectWorld) 0 = Some exampleProject
  /\ nth_error
       (useProjects.projects
          (snd (useProjects.changeStatus "p1" completed exampleProjectWorld)))
       0
     = Some (withStatus completed exampleProject)
  /\ Project.progress (withStatus completed exampleProject) = 50.
Proof.
  split; [reflexivity|]. split; [|reflexivity].
  apply (changeStatus_sets_only_status "p1" completed exampleProjectWorld 0
           exampleProject eq_refl).
Defined.

(** X23. The three status lists of the project manager partition the
    collection: together they hold every project exactly once, and each
    list holds only projects of its status. *)
Theorem status_lists_partition (w : useProjects.World) :
  Permutation
    (useProjects.activeProjects w ++ useProjects.onHoldProjects w
     ++ useProjects.completedProjects w)
    (useProjects.projects w)
  /\ (forall p, In p (useProjects.activeProjects w) ->
                Project.status p = active)
  /\ (forall p, In p (useProjects.onHoldProjects w) ->
                Project.status p = on_hold)
  /\ (forall p, In p (useProjects.completedProjects w) ->
                Project.status p = completed).
Proof.
  unfold useProjects.activeProjects, useProjects.onHoldProjects,
    useProjects.completedProjects.
  split.
  - induction (useProjects.projects w) as [|p l IH]; simpl;
      [apply perm_nil|].
    destruct (Project.status p); simpl.
    + apply perm_skip, IH.
    + apply Permutation_sym.
      apply (Permutation_cons_app _ _ p), Permutation_sym, IH.
    + apply Permutation_sym.
      rewrite app_assoc.
      apply (Permutation_cons_app _ _ p), Permutation_sym.
      rewrite <- app_assoc. exact IH.
  - repeat split; intros p Hp; apply filter_In in Hp; destruct Hp as [_ Hp];
      destruct (Project.status p); simpl in Hp; congruence.
Qed.

(** X24. For counts with 0 <= c <= t and 0 < t < 2^44 the progress that
    [updateProgress] computes in double arithmetic lies between 0 and 100,
    is 0 for c = 0 and 100 for c = t, and is at most one half away from
    the exact percentage; with fewer than 200 tasks it is 100, and the
    project marked completed, only when all tasks are completed. *)
Theorem computeProgress_bounds (c t : Z) :
  0 <= c <= t ->
  0 < t < 2 ^ 44 ->
  0 <= useProjects.computeProgress c t <= 100
  /\ (c = 0 -> useProjects.computeProgress c t = 0)
  /\ (c = t -> useProjects.computeProgress c t = 100)
  /\ 2 * Z.abs (useProjects.computeProgress c t * t - 100 * c) <= t
  /\ (t < 200 -> useProjects.computeProgress c t = 100 -> c = t).
Proof.
  intros Hc Ht.
  assert (Hnear : 2 * Z.abs (useProjects.computeProgress c t * t - 100 * c)
                  <= t)
    by (apply computeProgress_nearest; lia).
  set (P := useProjects.computeProgress c t) in *.
  split; [|split; [|split; [|split]]].
  - split; [nia | nia].
  - intros ->. nia.
  - intros ->. nia.
  - exact Hnear.
  - intros Hsmall HP. rewrite HP in Hnear. lia.
Qed.

Lemma computeProgress_bounds_witness :
  0 <= 7 <= 9 /\ 0 < 9 < 2 ^ 44
  /\ useProjects.computeProgress 7 9 = 78
  /\ 0 <= useProjects.computeProgress 7 9 <= 100.
Proof.
  assert (Hc : 0 <= 7 <= 9) by lia. assert (Ht : 0 < 9 < 2 ^ 44) by lia.
  split; [exact Hc|]. split; [exact Ht|]. split; [reflexivity|].
  apply (computeProgress_bounds 7 9 Hc Ht).
Defined.

(** Halves of the exact percentage: the double product can fall just
    below the half, and then [Math.round] goes down; at 200 tasks one
    open task already shows as 100. *)
Example computeProgress_halves :
  useProjects.computeProgress 1 8 = 13
  /\ useProjects.computeProgress 23 40 = 57
  /\ useProjects.computeProgress 29 200 = 14
  /\ useProjects.computeProgress 201 200 = 100
  /\ useProjects.computeProgress 199 200 = 100.
Proof. repeat split; reflexivity. Qed.

(** The model's double arithmetic against the Standard Library's
    specification of binary64: the products agree for all numerators from
    -8 to 55 over all denominators from 1 to 48, and for the halves above
    and some large counts. *)
Lemma percentage_agrees_with_binary64 :
  percentagesAgree (integersFrom (-8) 64) (integersFrom 1 48) = true
  /\ percentagesAgree
       [23; 29; 199; 201; 12345; 1000000007; 17592186044415;
        9007199254740991]
       [40; 200; 400; 997; 65536; 999999999989; 9007199254740991]
     = true.
Proof. split; vm_compute; reflexivity. Qed.

Lemma find_updatedProjects (id : string) (u : ProjectUpdates.t)
    (l : list Project) :
  ProjectUpdates.id u = None ->
  find_by (fun p => (Project.id p =? id)%string) (updatedProjects id u l)
  = option_map (fun p => spreadProject p u)
               (find_by (fun p => (Project.id p =? id)%string) l).
Proof.
  intros Hu. induction l as [|p l IH]; simpl; [reflexivity|].
  destruct (Project.id p =? id)%string eqn:E; simpl.
  - rewrite Hu. simpl. rewrite E. reflexivity.
  - rewrite E. exact IH.
Qed.

Lemma NoDup_project_ids_unique (l : list Project) (a b : Project) :
  NoDup (map Project.id l) -> In a l -> In b l ->
  Project.id a = Project.id b -> a = b.
Proof.
  induction l as [|x l IH]; simpl; intros Hnd Ha Hb Hid; [contradiction|].
  inversion Hnd as [|y ys Hnotin Hnd']; subst.
  destruct Ha as [->|Ha], Hb as [->|Hb].
  - reflexivity.
  - exfalso. apply Hnotin. rewrite Hid. apply in_map, Hb.
  - exfalso. apply Hnotin. rewrite <- Hid. apply in_map, Ha.
  - apply IH; assumption.
Qed.

Lemma updateProject_world (id : string) (u : ProjectUpdates.t)
    (d : database.Db) (l t : list Project) :
  snd (useProjects.updateProject id u
         (useProjects.mkWorld d (useProjects.mkState l t true)))
  = useProjects.mkWorld
      (match find_by (fun x => (Project.id x =? id)%string)
                     (updatedProjects id u t) with
       | Some updatedProject =>
           snd (projectRepository.updateProject updatedProject d)
       | None => d
       end)
      (useProjects.mkState l (updatedProjects id u t) true).
Proof.
  unfold useProjects.updateProject, useProjects.setProjects, bind, get.
  simpl. fold (updatedProjects id u t).
  destruct (find_by _ (updatedProjects id u t)) as [p|]; [|reflexivity].
  unfold useProjects.projectRepo. rewrite caught_zoom. reflexivity.
Qed.

(** [updateProject] keeps the projects table in step with memory when the
    ids are pairwise distinct and neither [id] nor [createdAt] is
    updated. *)
Lemma updateProject_keeps_store_in_step (id : string) (u : ProjectUpdates.t)
    (w : useProjects.World) :
  projectStoreMirrorsMemory w ->
  NoDup (map Project.id (useProjects.projects w)) ->
  ProjectUpdates.id u = None ->
  ProjectUpdates.createdAt u = None ->
  projectStoreMirrorsMemory (snd (useProjects.updateProject id u w)).
Proof.
  intros (Hdb & d & Hd & Hrows) Hnd Hid Hca.
  destruct w as [d0 [l t b]]. simpl in *. subst b d0.
  rewrite updateProject_world. unfold useProjects.projects in Hnd.
  simpl in Hnd. split; [reflexivity|]. simpl.
  rewrite (find_updatedProjects id u t Hid).
  destruct (find_by (fun x => (Project.id x =? id)%string) t) as [t0|] eqn:F;
    simpl.
  - apply find_some in F. destruct F as [Ht0 Hid0].
    apply String.eqb_eq in Hid0.
    eexists. split; [reflexivity|]. simpl.
    rewrite Hrows, map_map. unfold updatedProjects. rewrite map_map.
    apply map_ext_in. intros a Ha. simpl.
    replace (override (Project.id t0) (ProjectUpdates.id u))
      with (Project.id t0) by (rewrite Hid; reflexivity).
    rewrite Hid0.
    destruct (Project.id a =? id)%string eqn:E; [|reflexivity].
    apply String.eqb_eq in E.
    assert (Ha0 : a = t0).
    { apply (NoDup_project_ids_unique t); try assumption. congruence. }
    subst a. unfold projectRepository.projectToRow, spreadProject. simpl.
    rewrite Hid, Hca. reflexivity.
  - exists d. split; [reflexivity|].
    rewrite Hrows. f_equal. symmetry. apply updatedProjects_unknown.
    intros Hin. apply in_map_iff in Hin. destruct Hin as (a & Ha & Hain).
    pose proof (find_none _ _ F a Hain) as Hf. simpl in Hf.
    rewrite Ha, String.eqb_refl in Hf. discriminate Hf.
Qed.

Lemma find_by_id_nth (l : list Project) :
  forall (i : nat) (p : Project),
    NoDup (map Project.id l) ->
    nth_error l i = Some p ->
    find_by (fun x => (Project.id x =? Project.id p)%string) l = Some p.
Proof.
  induction l as [|x l IH]; intros i p Hnd Hnth; [destruct i; discriminate|].
  inversion Hnd as [|y ys Hnotin Hnd']; subst. simpl.
  destruct i as [|i]; simpl in Hnth.
  - injection Hnth as ->. rewrite String.eqb_refl. reflexivity.
  - destruct (Project.id x =? Project.id p)%string eqn:E.
    + apply String.eqb_eq in E. exfalso. apply Hnotin. rewrite E.
      apply in_map. eapply nth_error_In, Hnth.
    + apply (IH i p Hnd' Hnth).
Qed.

Lemma find_projectToRow (id : string) (l : list Project) :
  find_by (fun x => (ProjectRow.id x =? id)%string)
          (map projectRepository.projectToRow l)
  = option_map projectRepository.projectToRow
               (find_by (fun p => (Project.id p =? id)%string) l).
Proof.
  induction l as [|p l IH]; simpl; [reflexivity|].
  destruct (Project.id p =? id)%string; [reflexivity|exact IH].
Qed.

(** X25. In relational mode [updateProgress] is written through to the
    store: when the projects table holds the rows of the in-memory
    projects and the ids are pairwise distinct, it still does afterwards,
    and [getProjectById] returns the project exactly as memory holds it,
    with the new progress, counts and status (for a deadline that is
    absent or not empty). *)
Theorem updateProgress_is_persisted (id : string) (c t : Z)
    (w : useProjects.World) (i : nat) (p : Project) :
  projectStoreMirrorsMemory w ->
  NoDup (map Project.id (useProjects.projects w)) ->
  nth_error (useProjects.projects w) i = Some p ->
  Project.id p = id ->
  or_null (Project.deadline p) = Project.deadline p ->
  projectStoreMirrorsMemory (snd (useProjects.updateProgress id c t w))
  /\ exists p' : Project,
       nth_error
         (useProjects.projects (snd (useProjects.updateProgress id c t w))) i
       = Some p'
       /\ Project.progress p' = useProjects.computeProgress c t
       /\ Project.totalTasks p' = t
       /\ Project.completedTasks p' = c
       /\ fst (projectRepository.getProjectById id
                 (useProjects.db (snd (useProjects.updateProgress id c t w))))
          = Ok (Some p').
Proof.
  intros Hm Hnd Hnth Hid Hdl. subst id.
  assert (Hm' : projectStoreMirrorsMemory
                  (snd (useProjects.updateProgress (Project.id p) c t w))).
  { apply updateProject_keeps_store_in_step; try assumption; reflexivity. }
  split; [exact Hm'|].
  pose proof (updateProgress_nth (Project.id p) c t w i p Hnth eq_refl) as Hnth'.
  cbv zeta in Hnth'.
  eexists. split; [exact Hnth'|]. simpl.
  repeat (split; [reflexivity|]).
  pose proof (updateProgress_run (Project.id p) c t w) as Hrun. cbv zeta in Hrun.
  destruct Hrun as [_ Hprojects].
  destruct Hm' as (Hdb' & d' & Hd' & Hrows').
  assert (Hnd' : NoDup
                   (map Project.id
                      (useProjects.projects
                         (snd (useProjects.updateProgress (Project.id p) c t w))))).
  { rewrite Hprojects. unfold updatedProjects. rewrite map_map.
    erewrite map_ext; [exact Hnd|]. intros a. simpl.
    destruct (Project.id a =? Project.id p)%string; reflexivity. }
  rewrite Hd'.
  unfold projectRepository.getProjectById, bind, ret, database.getDatabase.
  simpl. rewrite Hrows', find_projectToRow.
  assert (Hdbp : useProjects.dbProjects
                   (useProjects.state
                      (snd (useProjects.updateProgress (Project.id p) c t w)))
                 = useProjects.projects
                     (snd (useProjects.updateProgress (Project.id p) c t w))).
  { unfold useProjects.projects. rewrite Hdb'. reflexivity. }
  rewrite Hdbp.
  pose proof (find_by_id_nth _ i _ Hnd' Hnth') as Hfind.
  simpl in Hfind. rewrite Hfind. simpl.
  rewrite rowToProject_projectToRow; [reflexivity | exact Hdl].
Qed.

Lemma updateProgress_is_persisted_witness :
  projectStoreMirrorsMemory mirroredProjectWorld
  /\ NoDup (map Project.id (useProjects.projects mirroredProjectWorld))
  /\ exists p' : Project,
       fst (projectRepository.getProjectById "p1"
              (useProjects.db
                 (snd (useProjects.updateProgress "p1" 4 4
                         mirroredProjectWorld))))
       = Ok (Some p')
       /\ Project.progress p' = 100
       /\ Project.completedTasks p' = 4.
Proof.
  assert (Hm : projectStoreMirrorsMemory mirroredProjectWorld).
  { split; [reflexivity|]. eexists. split; reflexivity. }
  assert (Hnd : NoDup
                  (map Project.id (useProjects.projects mirroredProjectWorld))).
  { simpl. repeat constructor; simpl; intuition discriminate. }
  split; [exact Hm|]. split; [exact Hnd|].
  destruct (updateProgress_is_persisted "p1" 4 4 mirroredProjectWorld 0
              exampleProject Hm Hnd eq_refl eq_refl eq_refl)
    as (_ & p' & _ & Hp & _ & Hc & Hget).
  exists p'. split; [exact Hget|]. split; [exact Hp | exact Hc].
Defined.

(** ** useProjectsDB *)

Section ProjectsDB.
Import useProjectsDB.





(** A project added with an empty deadline text keeps the text in memory
    and is read back without a deadline after a refresh. *)
Example projectsDB_empty_deadline :
  let w1 :=
    snd (addProject "p7" "2026-02-01T10:00:00.000Z" "Garden" "Plan the beds"
           (Some (useProjects.mkAddOptions None (Some EmptyString) None))
           projectsDBWorld) in
  map Project.deadline (projects (state w1)) = [Some EmptyString]
  /\ map Project.deadline
       (filter (fun p => (Project.id p =? "p7")%string)
               (projects (state (snd (loadProjects w1)))))
     = [None].
Proof. split; reflexivity. Qed.

End ProjectsDB.

(** ** useTaskFilters *)

Section TaskFilters.
Import useTaskFilters.

Variable diffDays : string -> option Z.

Lemma Priority_eqb_eq (a b : Priority) : Priority_eqb a b = true <-> a = b.
Proof. destruct a, b; simpl; split; intros H; congruence. Qed.

Lemma passes_inactive (filters : TaskFilterState) (task : Task) :
  hasActiveFilters filters = false -> passes diffDays filters task = true.
Proof.
  destruct filters as [[p|] [q|] []]; simpl; try discriminate; reflexivity.
Qed.

Lemma filter_subsequence {A : Type} (p : A -> bool) (l : list A) :
  subsequence (filter p l) l.
Proof.
  induction l as [|x l IH]; simpl; [constructor|].
  destruct (p x); constructor; exact IH.
Qed.

(** X27. [applyFilters] returns the given list with some tasks left out
    and the others in their order: each task is kept or dropped on its
    own, whatever the rest of the list is.  Without an active filter, and
    after [clearFilters], it returns the list itself; every task it
    returns belongs to the selected project and has the selected
    priority; applying it twice changes nothing more. *)
Theorem applyFilters_selects (filters : TaskFilterState)
    (tasks : list Task) :
  subsequence (applyFilters diffDays filters tasks) tasks
  /\ applyFilters diffDays filters tasks
     = flat_map (fun t => applyFilters diffDays filters [t]) tasks
  /\ (forall t, applyFilters diffDays filters [t] = [t]
                \/ applyFilters diffDays filters [t] = [])
  /\ (hasActiveFilters filters = false ->
      applyFilters diffDays filters tasks = tasks)
  /\ applyFilters diffDays (clearFilters filters) tasks = tasks
  /\ (forall t, In t (applyFilters diffDays filters tasks) ->
        In t tasks
        /\ (forall fp, project filters = Some fp ->
                       Task.projectId t = Some fp)
        /\ (forall fp, priority filters = Some fp -> Task.priority t = fp))
  /\ applyFilters diffDays filters (applyFilters diffDays filters tasks)
     = applyFilters diffDays filters tasks.
Proof.
  unfold applyFilters. split; [|split; [|split; [|split; [|split; [|split]]]]].
  - apply filter_subsequence.
  - induction tasks as [|t l IH]; [reflexivity|].
    cbn [flat_map]. rewrite <- IH. simpl.
    destruct (passes diffDays filters t); reflexivity.
  - intros t. simpl. destruct (passes diffDays filters t); auto.
  - intros H. apply forallb_filter_id, forallb_forall. intros t _.
    apply passes_inactive, H.
  - apply forallb_filter_id, forallb_forall. intros t _. reflexivity.
  - intros t Ht. apply filter_In in Ht. destruct Ht as [Hin Hp].
    split; [exact Hin|]. unfold passes in Hp. split.
    + intros fp Hfp. rewrite Hfp in Hp.
      destruct (Task.projectId t) as [p|]; [|discriminate Hp].
      destruct (p =? fp)%string eqn:E; [|discriminate Hp].
      apply String.eqb_eq in E. congruence.
    + intros fp Hfp. rewrite Hfp in Hp.
      destruct (match project filters with
                | Some fp0 =>
                    match Task.projectId t with
                    | Some p => negb (p =? fp0)%string
                    | None => true
                    end
                | None => false
                end); [discriminate Hp|].
      destruct (Priority_eqb (Task.priority t) fp) eqn:E;
        [|discriminate Hp].
      apply Priority_eqb_eq, E.
  - apply forallb_filter_id, forallb_forall. intros t Ht.
    apply filter_In in Ht. apply Ht.
Qed.

(** X28. The date ranges: with the project and priority filters fixed, a
    task shown under "today" is also shown under "week"; a task whose due
    date parses is never shown under both "overdue" and "week"; and a task
    due more than seven days ahead is shown under none of "overdue",
    "today" and "week". *)
Theorem date_ranges (filters : TaskFilterState) (task : Task) :
  (passes diffDays (setDateRangeFilter range_today filters) task = true ->
   passes diffDays (setDateRangeFilter range_week filters) task = true)
  /\ (forall due n,
        Task.dueDate task = Some due -> diffDays due = Some n ->
        passes diffDays (setDateRangeFilter range_overdue filters) task = true ->
        passes diffDays (setDateRangeFilter range_week filters) task = false)
  /\ (forall due n,
        Task.dueDate task = Some due -> diffDays due = Some n -> 7 < n ->
        passes diffDays (setDateRangeFilter range_overdue filters) task = false
        /\ passes diffDays (setDateRangeFilter range_today filters) task
           = false
        /\ passes diffDays (setDateRangeFilter range_week filters) task
           = false).
Proof.
  unfold passes, setDateRangeFilter. simpl.
  destruct (match project filters with
            | Some fp =>
                match Task.projectId task with
                | Some p => negb (p =? fp)%string
                | None => true
                end
            | None => false
            end);
    [split; [discriminate|split; [discriminate|auto]]|].
  destruct (match priority filters with
            | Some fp => negb (Priority_eqb (Task.priority task) fp)
            | None => false
            end);
    [split; [discriminate|split; [discriminate|auto]]|].
  split; [|split].
  - destruct (negb (truthy_string (Task.dueDate task))); [discriminate|].
    destruct (Task.dueDate task) as [due|]; [|discriminate].
    destruct (diffDays due) as [n|]; [|discriminate].
    intros H. apply Z.eqb_eq in H. subst n. reflexivity.
  - intros due n -> ->.
    destruct (negb (truthy_string (Some due))); [discriminate|].
    intros H. apply negb_true_iff, Z.leb_gt in H.
    replace (n <? 0) with true by (symmetry; apply Z.ltb_lt; lia).
    reflexivity.
  - intros due n -> -> Hn.
    destruct (negb (truthy_string (Some due))); [auto|].
    replace (0 <=? n) with true by (symmetry; apply Z.leb_le; lia).
    replace (n =? 0) with false by (symmetry; apply Z.eqb_neq; lia).
    replace (7 <? n) with true by (symmetry; apply Z.ltb_lt; lia).
    rewrite orb_true_r. auto.
Qed.

End TaskFilters.

Lemma applyFilters_selects_witness :
  useTaskFilters.hasActiveFilters useTaskFilters.defaultFilters = false
  /\ useTaskFilters.applyFilters exampleDiffDays useTaskFilters.defaultFilters
       [milk; invoice; report]
     = [milk; invoice; report]
  /\ useTaskFilters.applyFilters exampleDiffDays
       (useTaskFilters.mkFilters (Some "p1") None useTaskFilters.range_week)
       [milk; invoice; report]
     = [invoice].
Proof.
  split; [reflexivity|].
  destruct (applyFilters_selects exampleDiffDays useTaskFilters.defaultFilters
              [milk; invoice; report]) as (_ & _ & _ & Hid & _).
  split; [exact (Hid eq_refl) | reflexivity].
Defined.

Lemma date_ranges_witness :
  Task.dueDate invoice = Some "2026-01-09"
  /\ exampleDiffDays "2026-01-09" = Some 4
  /\ useTaskFilters.passes exampleDiffDays
       (useTaskFilters.setDateRangeFilter useTaskFilters.range_week
          useTaskFilters.defaultFilters) invoice = true
  /\ (useTaskFilters.passes exampleDiffDays
        (useTaskFilters.setDateRangeFilter useTaskFilters.range_overdue
           useTaskFilters.defaultFilters) invoice = true ->
      useTaskFilters.passes exampleDiffDays
        (useTaskFilters.setDateRangeFilter useTaskFilters.range_week
           useTaskFilters.defaultFilters) invoice = false).
Proof.
  split; [reflexivity|]. split; [reflexivity|]. split; [reflexivity|].
  destruct (date_ranges exampleDiffDays useTaskFilters.defaultFilters invoice)
    as (_ & H & _).
  exact (H "2026-01-09" 4 eq_refl eq_refl).
Defined.

(** ** TasksPage: dragging in a filtered list *)

(** X29. On the Tasks page the Today list shows the filtered tasks and
    reports a drag as a new order of what it shows.  After the reorder the
    Today tasks in memory are exactly the shown ones: a Today task that
    the active filter hides is no longer in the collection.  Without an
    active filter no task is lost, and the other categories are never
    touched. *)
Theorem filtered_reorder_drops_hidden_tasks
    (diffDays : string -> option Z)
    (filters : useTaskFilters.TaskFilterState) (w : useTasks.World)
    (newOrder : list Task) :
  Permutation newOrder (TasksPage.filteredTodayTasks diffDays filters w) ->
  let w' := snd (TasksPage.handleReorderToday newOrder w) in
  (forall id,
     In id (map Task.id (inCategory today (useTasks.tasks w')))
     <-> In id (map Task.id
                    (TasksPage.filteredTodayTasks diffDays filters w)))
  /\ (useTaskFilters.hasActiveFilters filters = false ->
      Permutation (map Task.id (inCategory today (useTasks.tasks w')))
                  (map Task.id (inCategory today (useTasks.tasks w))))
  /\ (forall C, C <> today ->
        inCategory C (useTasks.tasks w') = inCategory C (useTasks.tasks w)).
Proof.
  intros Hperm. cbv zeta. unfold TasksPage.handleReorderToday.
  assert (Hcat : forall t, In t newOrder -> Task.category t = today).
  { intros t Ht. apply (Permutation_in _ Hperm) in Ht.
    unfold TasksPage.filteredTodayTasks, useTaskFilters.applyFilters in Ht.
    apply filter_In in Ht. destruct Ht as [Ht _].
    unfold TasksPage.todayTasks, useTasks.getTasksByCategory in Ht.
    apply sort_by_In, filter_In in Ht. destruct Ht as [_ Ht].
    apply Category_eqb_eq, Ht. }
  assert (Hids : map Task.id
                   (inCategory today
                      (useTasks.tasks
                         (snd (useTasks.reorderTasks today newOrder w))))
                 = map Task.id newOrder).
  { rewrite (reorderTasks_inCategory today newOrder w Hcat).
    apply withIndexOrder_ids. }
  split; [|split].
  - intros id. rewrite Hids. split; intros H.
    + apply (Permutation_in _ (Permutation_map Task.id Hperm)), H.
    + apply (Permutation_in _
               (Permutation_sym (Permutation_map Task.id Hperm))), H.
  - intros Hinactive. rewrite Hids. apply Permutation_map.
    apply perm_trans with (TasksPage.filteredTodayTasks diffDays filters w);
      [exact Hperm|].
    unfold TasksPage.filteredTodayTasks, useTaskFilters.applyFilters.
    rewrite forallb_filter_id.
    + unfold TasksPage.todayTasks, useTasks.getTasksByCategory.
      apply sort_by_perm.
    + apply forallb_forall. intros t _.
      apply passes_inactive, Hinactive.
  - intros C HC. rewrite reorderTasks_run. cbv beta iota delta [snd].
    rewrite tasks_mapTasks, tasks_withDb, inCategory_app.
    rewrite (inCategory_other_filter today C _ HC).
    rewrite (inCategory_none today C (useTasks.withIndexOrder 0 newOrder));
      [apply app_nil_r | exact HC|].
    intros t Ht. destruct (withIndexOrder_category _ _ _ Ht) as (t0 & H0 & ->).
    apply Hcat, H0.
Qed.

Lemma filtered_reorder_drops_hidden_tasks_witness :
  Permutation [invoice]
    (TasksPage.filteredTodayTasks exampleDiffDays
       (useTaskFilters.mkFilters (Some "p1") None useTaskFilters.range_all)
       filterWorld)
  /\ map Task.id (inCategory today (useTasks.tasks filterWorld))
     = ["task_1_milk"; "task_7_invoice"]
  /\ ~ In "task_1_milk"
       (map Task.id
          (inCategory today
             (useTasks.tasks
                (snd (TasksPage.handleReorderToday [invoice] filterWorld))))).
Proof.
  assert (Hperm : Permutation [invoice]
                    (TasksPage.filteredTodayTasks exampleDiffDays
                       (useTaskFilters.mkFilters (Some "p1") None
                          useTaskFilters.range_all)
                       filterWorld)).
  { apply Permutation_refl. }
  split; [exact Hperm|]. split; [reflexivity|].
  destruct (filtered_reorder_drops_hidden_tasks exampleDiffDays
              (useTaskFilters.mkFilters (Some "p1") None
                 useTaskFilters.range_all)
              filterWorld [invoice] Hperm) as (Hshown & _ & _).
  intros Hin. apply Hshown in Hin. simpl in Hin.
  destruct Hin as [H|[]]. discriminate H.
Defined.
